(** * LeetCode leaderboard: the data pipeline of [src/main.py]

    A shallow embedding of the functions of [main.py] that turn API payloads
    into the leaderboard and skill views, the properties of them that the
    specification states, and further properties of the handlers and views.

    Conventions of the embedding.
    - A JSON document decoded by [r.json()] is a [value]; numbers are
      integers (the API reports counts and ranks).
    - A Python [float] is a binary64 number: the rational it denotes or an
      infinity; every operation rounds to the nearest number of 53 bits, ties
      to even. The sign of zero is not kept and there is no NaN (no operation
      of the program produces one from integers).
    - A Python [str] is a [string], whose characters are 8-bit;
      [capitalize] and [strip] are those of Python on ASCII text, and what
      is stated of them is stated of ASCII text.
    - A call that raises is [Raise]; the class of the exception is not kept,
      since every handler of the program is [except Exception].
    - [DataFrame.sort_values] is a parameter: the program calls it with the
      default [kind], for which pandas promises a sorted rearrangement of the
      rows and nothing about rows with equal keys. [quicksort_descending] is
      the sort of one descending integer column as pandas and numpy's
      quicksort for every processor carry it out; the sorts that numpy has
      for the vector units of some processors are not embedded.
    - The numbers of a table are 64-bit integers: a sum of pandas is the sum
      brought back into the range of 64 bits by [wrap64].
    - [pd.read_csv] is a parameter of the tracked-user store: pandas guesses
      the type of the username column from the text of the file, so that a
      name need not come back as the string that was written. *)

From Stdlib Require Import ZArith QArith Qround Qabs Qpower String Ascii List Permutation Sorted Lia.
From stdpp Require Import gmap strings list fin_maps pretty.

Set Warnings "-register-all".
Open Scope Z_scope.
Open Scope string_scope.

(** ** Python values and exceptions *)

Module Py.

Inductive value : Type :=
| VNone
| VBool (b : bool)
| VInt (z : Z)
| VStr (s : string)
| VList (l : list value)
| VDict (d : list (string * value)).

Inductive result (A : Type) : Type :=
| Ok (a : A)
| Raise.
Arguments Ok {A} a.
Arguments Raise {A}.

Definition bind {A B} (m : result A) (k : A -> result B) : result B :=
  match m with
  | Ok a => k a
  | Raise => Raise
  end.

(** [bool(v)] *)
Definition truthy (v : value) : bool :=
  match v with
  | VNone => false
  | VBool b => b
  | VInt z => negb (Z.eqb z 0)
  | VStr s => negb (String.eqb s "")
  | VList l => match l with [] => false | _ => true end
  | VDict d => match d with [] => false | _ => true end
  end.

Fixpoint assoc (k : string) (d : list (string * value)) : option value :=
  match d with
  | [] => None
  | (k', v) :: d' => if String.eqb k k' then Some v else assoc k d'
  end.

(** [v[k]] for a string key: [KeyError] on a dict without the key,
    [TypeError] on everything that is not a dict. *)
Definition getitem (v : value) (k : string) : result value :=
  match v with
  | VDict d => match assoc k d with Some x => Ok x | None => Raise end
  | _ => Raise
  end.

(** [v.get(k, default)]: [AttributeError] on everything that is not a dict. *)
Definition get (v : value) (k : string) (default : value) : result value :=
  match v with
  | VDict d => Ok (match assoc k d with Some x => x | None => default end)
  | _ => Raise
  end.

(** [v == s] for a string literal [s] *)
Definition eq_str (v : value) (s : string) : bool :=
  match v with
  | VStr s' => String.eqb s' s
  | _ => false
  end.

(** the elements [iter(v)] yields; [TypeError] when [v] is not iterable *)
Definition iter (v : value) : result (list value) :=
  match v with
  | VList l => Ok l
  | VDict d => Ok (map (fun kv => VStr (fst kv)) d)
  | VStr s => Ok (map (fun c => VStr (String c "")) (list_ascii_of_string s))
  | _ => Raise
  end.

(** [bool] is a subclass of [int] *)
Definition as_int (v : value) : option Z :=
  match v with
  | VInt z => Some z
  | VBool b => Some (if b then 1 else 0)
  | _ => None
  end.

(** [x - y]: [TypeError] unless both are integers *)
Definition sub (x y : value) : result Z :=
  match as_int x, as_int y with
  | Some a, Some b => Ok (a - b)
  | _, _ => Raise
  end.

(** [round(q)] to the nearest integer, ties to the even one *)
Definition round_half_even (q : Q) : Z :=
  let f := Qfloor q in
  let r := (q - inject_Z f)%Q in
  match (r ?= 1 # 2)%Q with
  | Lt => f
  | Gt => f + 1
  | Eq => if Z.even f then f else f + 1
  end.

(** the least exponent of a normal number, and the exponent out of range *)
Definition emin : Z := -1022.
Definition emax : Z := 1024.

(** the integer part of the binary logarithm of a positive rational *)
Definition ilog2 (q : Q) : Z :=
  let n := Qnum q in
  let d := Zpos (Qden q) in
  if Z.leb d n then Z.log2 (n / d) else - Z.log2_up ((d + n - 1) / n).

(** the gap between the binary64 numbers around [q] *)
Definition ulp (q : Q) : Q := (2 ^ (Z.max (ilog2 (Qabs q)) emin - 52))%Q.

(** the binary64 number nearest to [q], were the exponent unbounded above *)
Definition rnd (q : Q) : Q := Qred (inject_Z (round_half_even (q / ulp q)) * ulp q).

Inductive float : Type :=
| Finite (q : Q)
| Infinity (negative : bool).

(** the result of an operation whose exact value is [q] *)
Definition of_Q (q : Q) : float :=
  let r := rnd q in
  if Qle_bool (2 ^ emax) (Qabs r) then Infinity (negb (Qle_bool 0 r)) else Finite r.

(** [x / y], a float: [TypeError] unless both are integers,
    [ZeroDivisionError] when [y] is zero, [OverflowError] when the quotient
    is out of range *)
Definition truediv (x y : value) : result float :=
  match as_int x, as_int y with
  | Some a, Some b =>
      if Z.eqb b 0 then Raise
      else match of_Q (inject_Z a / inject_Z b) with
           | Finite q => Ok (Finite q)
           | Infinity _ => Raise
           end
  | _, _ => Raise
  end.

(** [x * 100] *)
Definition times_100 (x : float) : float :=
  match x with
  | Finite q => of_Q (q * 100)
  | Infinity s => Infinity s
  end.

(** [round(x, 2)]: the decimal with two places nearest to [x], ties to the
    even one, read back as a float; an infinity is returned as it is *)
Definition round2 (x : float) : float :=
  match x with
  | Finite q => Finite (rnd (inject_Z (round_half_even (q * 100)) / 100))
  | Infinity s => Infinity s
  end.

(** [f"{z}"] *)
Definition str_of_int (z : Z) : string := pretty z.

Definition is_lower (c : ascii) : bool :=
  let n := nat_of_ascii c in Nat.leb 97 n && Nat.leb n 122.
Definition is_upper (c : ascii) : bool :=
  let n := nat_of_ascii c in Nat.leb 65 n && Nat.leb n 90.
Definition upper (c : ascii) : ascii :=
  if is_lower c then ascii_of_nat (nat_of_ascii c - 32)%nat else c.
Definition lower (c : ascii) : ascii :=
  if is_upper c then ascii_of_nat (nat_of_ascii c + 32)%nat else c.

Fixpoint map_string (f : ascii -> ascii) (s : string) : string :=
  match s with
  | EmptyString => EmptyString
  | String c r => String (f c) (map_string f r)
  end.

(** [s.capitalize()] *)
Definition capitalize (s : string) : string :=
  match s with
  | EmptyString => EmptyString
  | String c r => String (upper c) (map_string lower r)
  end.

(** the characters [str.strip()] removes: tab to carriage return, the
    separators 28 to 31 and the space *)
Definition is_space (c : ascii) : bool :=
  let n := nat_of_ascii c in
  (Nat.leb 9 n && Nat.leb n 13) || (Nat.leb 28 n && Nat.leb n 32).

Fixpoint lstrip (s : string) : string :=
  match s with
  | EmptyString => EmptyString
  | String c r => if is_space c then lstrip r else s
  end.

Fixpoint rstrip (s : string) : string :=
  match s with
  | EmptyString => EmptyString
  | String c r =>
      match rstrip r with
      | EmptyString => if is_space c then EmptyString else String c EmptyString
      | r' => String c r'
      end
  end.

(** [s.strip()] *)
Definition strip (s : string) : string := rstrip (lstrip s).

(** [s.split(",")] *)
Fixpoint split_comma (s : string) : list string :=
  match s with
  | EmptyString => [EmptyString]
  | String c r =>
      if Ascii.eqb c "," then EmptyString :: split_comma r
      else match split_comma r with
           | p :: ps => String c p :: ps
           | [] => [String c EmptyString]
           end
  end.

(** [sep.join(l)] *)
Fixpoint join (sep : string) (l : list string) : string :=
  match l with
  | [] => EmptyString
  | [x] => x
  | x :: r => x +:+ sep +:+ join sep r
  end.

End Py.

Import Py.

Notation "x <~ y ; z" := (Py.bind y (fun x => z))
  (at level 20, y at level 100, z at level 200, only parsing).

(** ** Config *)

Definition BASE : string := "https://alfa-leetcode-api.onrender.com".
Definition CACHE_TTL : Z := 1800.

(** [f"{BASE}/userProfile/{username}"] and [f"{BASE}/{username}/skill"] *)
Definition profile_url (u : string) : string := BASE +:+ "/userProfile/" +:+ u.
Definition skill_url (u : string) : string := BASE +:+ "/" +:+ u +:+ "/skill".

Definition LEVEL_ORDER : gmap string Z :=
  <["Advanced" := 0]> (<["Intermediate" := 1]> (<["Fundamental" := 2]> ∅)).

(** ** rank_change *)

(** [pd.isna(v)]: true on [None], false on every other scalar and on a dict.
    A list is turned into an array, whose truth value is that of its only
    element and an error for any other size. *)
Fixpoint null_nest (v : value) : bool :=
  match v with
  | VNone => true
  | VList [x] => null_nest x
  | _ => false
  end.

(** [pd.isna(old) or old == "N/A"] as the condition of an [if] *)
Definition isna_or_na (old : value) : result bool :=
  match old with
  | VList _ => if null_nest old then Ok true else Raise
  | _ => Ok (null_nest old || eq_str old "N/A")
  end.

Definition rank_change (old new : value) : result string :=
  c <~ isna_or_na old;
  if c then Ok ""
  else
    diff <~ Py.sub old new;
    if Z.ltb 0 diff then Ok ("Up " +:+ str_of_int diff)
    else if Z.ltb diff 0 then Ok ("Down " +:+ str_of_int (- diff))
    else Ok "No change".

(** ** compute_accuracy *)

Fixpoint accuracy_loop (pairs : list (value * value)) : result (option float) :=
  match pairs with
  | [] => Ok None
  | (a, t) :: rest =>
      d <~ getitem a "difficulty";
      if eq_str d "All" then
        sub <~ getitem t "submissions";
        if truthy sub then
          n <~ getitem a "submissions";
          q <~ truediv n sub;
          Ok (Some (round2 (times_100 q)))
        else Ok (Some (Finite 0))
      else accuracy_loop rest
  end.

(** the statements under [try] *)
Definition compute_accuracy_try (profile : value) : result (option float) :=
  stats <~ getitem profile "matchedUserStats";
  ac <~ getitem stats "acSubmissionNum";
  stats' <~ getitem profile "matchedUserStats";
  total <~ getitem stats' "totalSubmissionNum";
  la <~ iter ac;
  lt <~ iter total;
  accuracy_loop (combine la lt).

Definition compute_accuracy (profile : value) : result float :=
  match compute_accuracy_try profile with
  | Ok (Some q) => Ok q
  | Ok None => Ok (Finite 0)
  | Raise => Ok (Finite 0)
  end.

(** ** pandas *)

(** [DataFrame.sort_values]: the rows, the order to sort them by, the rows
    rearranged. *)
Definition sorter : Type := forall A : Type, (A -> A -> bool) -> list A -> list A.

Fixpoint insert {A} (le : A -> A -> bool) (x : A) (l : list A) : list A :=
  match l with
  | [] => [x]
  | y :: r => if le x y then x :: l else y :: insert le x r
  end.

(** a sort that keeps rows with equal keys in their order *)
Definition insertion_sort : sorter :=
  fun A le l => foldr (insert le) [] l.

(** [sort_values("Total Solved", ascending=False)] as pandas and numpy carry
    it out for an integer column and the default [kind]: [nargsort] of
    pandas reverses the column, has numpy sort it in ascending order with
    [argsort(kind="quicksort")], and reverses the outcome. The sort below
    is [aquicksort_] of numpy's npysort/quicksort.cpp, the routine written
    for every processor. It moves the positions of the rows, which it
    compares by their keys; the embedding moves the rows themselves. *)
Section Quicksort.
Context {A : Type} (less : A -> A -> bool).












End Quicksort.


(** the distinct values of a column, in increasing order: the labels of a
    [groupby] or of the axes of a [pivot_table] *)
Definition sorted_unique {A} `{EqDecision A} (le : A -> A -> bool) (l : list A) : list A :=
  insertion_sort A le (remove_dups l).

(** A column of integers that fit 64 bits is an int64 column, and pandas
    adds its numbers in 64 bits: a sum that leaves the range comes back into
    it from the other end. *)
Definition wrap64 (z : Z) : Z := (z + 2 ^ 63) mod 2 ^ 64 - 2 ^ 63.

(** ** The remote API and the messages on the page *)

Inductive response (A : Type) : Type :=
| RequestFailed            (* [requests.get] raised: no connection, timeout *)
| StatusError              (* [raise_for_status] raised: not a 2xx answer *)
| JsonError                (* [r.json()] raised: the body is not JSON *)
| Json (a : A).
Arguments RequestFailed {A}.
Arguments StatusError {A}.
Arguments JsonError {A}.
Arguments Json {A} a.

(** The document of the skill endpoint, as far as [get_skill_table] looks
    into it: an object of lists of objects with the optional keys [tagName]
    (a string) and [problemsSolved] (an integer). *)
Inductive skill_json : Type :=
| SkillObject (tagName : option string) (problemsSolved : option Z)
| SkillNotObject.

Inductive skills_json : Type :=
| SkillList (l : list skill_json)
| SkillsNotList.

Inductive skill_doc : Type :=
| Levels (items : list (string * skills_json))
| DocNotObject.

(** [st.error], [st.warning], [st.info], [st.success]; the text of the
    exception that ends an error message is left out. *)
Inductive message : Type :=
| StError (text : string)
| StWarning (text : string)
| StInfo (text : string)
| StSuccess (text : string).

(** ** The tracked-user store *)

(** A row of the frame of tracked users. The username is a [value]: the
    text that [add_user] writes, or what [read_csv] has made of a text that
    it takes for a number, a truth value or a missing value. *)
Record TrackedUser := { username : value; added_at : option Z }.

(** [tracked_users.csv]: the frame that [to_csv] wrote last, [None] while
    the file does not exist. *)
Definition csv_file : Type := option (list TrackedUser).

(** [pd.read_csv(CSV_FILE)], from the frame written to the frame read.
    pandas infers the type of a column from its text: a username comes back
    as the text written unless that reads as a number, a truth value or a
    missing value (123, 1.5, True, NA, null). What is read is a parameter of
    the embedding; the statements say what they assume of it. *)
Definition csv_reader : Type := list TrackedUser -> list TrackedUser.

Definition init_csv (f : csv_file) : csv_file :=
  match f with
  | None => Some []
  | Some _ => f
  end.

Definition load_users (read_csv : csv_reader) (f : csv_file) : list TrackedUser * csv_file :=
  let f' := init_csv f in (read_csv (default [] f'), f').

Definition save_users (df : list TrackedUser) (f : csv_file) : csv_file := Some df.

Definition nonempty (s : string) : bool := negb (String.eqb s "").

(** [u in df["username"].values]: a value that is no text equals no text *)
Definition tracked (u : string) (df : list TrackedUser) : bool :=
  existsb (fun r => eq_str (username r) u) df.

Definition add_user (read_csv : csv_reader) (now : Z) (u : string) (f : csv_file)
  : bool * csv_file :=
  let '(df, f1) := load_users read_csv f in
  let u := strip u in
  if nonempty u && negb (tracked u df)
  then (true, save_users (df ++ [{| username := VStr u; added_at := Some now |}]) f1)
  else (false, f1).

Definition remove_user (read_csv : csv_reader) (u : string) (f : csv_file) : csv_file :=
  let '(df, f1) := load_users read_csv f in
  save_users (List.filter (fun r => negb (eq_str (username r) u)) df) f1.

(** the handler of the button "Add User(s)": the file and the message shown *)
Definition add_users_clicked (read_csv : csv_reader) (now : Z) (bulk_input : string)
           (f : csv_file) : csv_file * message :=
  if nonempty (strip bulk_input) then
    let names := List.filter nonempty (map strip (split_comma bulk_input)) in
    let '(f', added) :=
      foldl (fun '(f0, added) u =>
               let '(ok, f1) := add_user read_csv now u f0 in
               (f1, if ok then (added ++ [u])%list else added))
            (f, @nil string) names in
    match added with
    | [] => (f', StWarning "All usernames already exist.")
    | _ => (f', StSuccess ("Added: " +:+ join ", " added))
    end
  else (f, StError "Enter at least one username.").

(** ** Skill records *)

Record SkillRecord := {
  Level : string;
  Skill : string;
  ProblemsSolved : Z;
  Username : string
}.

(** [LEVEL_ORDER.get(level, 2)], also [.map(LEVEL_ORDER).fillna(2)] *)
Definition level_sort (level : string) : Z := default 2 (LEVEL_ORDER !! level).

(** lines 81 to 83: capitalize, then fall back to "Fundamental" *)
Definition normalize_level (level_raw : string) : string :=
  let level := capitalize level_raw in
  match LEVEL_ORDER !! level with
  | None => "Fundamental"
  | Some _ => level
  end.

(** the inner loop over the skills of one level; each record with its
    [_sort] column *)
Fixpoint skill_records (level u : string) (l : list skill_json)
  : result (list (SkillRecord * Z)) :=
  match l with
  | [] => Ok []
  | SkillNotObject :: _ => Raise
  | SkillObject tag n :: rest =>
      more <~ skill_records level u rest;
      Ok (({| Level := level;
              Skill := default "Unknown" tag;
              ProblemsSolved := default 0 n;
              Username := u |}, level_sort level) :: more)
  end.

(** the outer loop over [data.items()] *)
Fixpoint level_records (u : string) (items : list (string * skills_json))
  : result (list (SkillRecord * Z)) :=
  match items with
  | [] => Ok []
  | (level_raw, skills) :: rest =>
      let level := normalize_level level_raw in
      rows <~ match skills with
              | SkillList l => skill_records level u l
              | SkillsNotList => Ok []
              end;
      more <~ level_records u rest;
      Ok (rows ++ more)%list
  end.

(** the order of [sort_values(["_sort", "Problems Solved"],
    ascending=[True, False])] *)
Definition skill_le (a b : SkillRecord * Z) : bool :=
  Z.ltb (snd a) (snd b)
  || (Z.eqb (snd a) (snd b) && Z.leb (ProblemsSolved (fst b)) (ProblemsSolved (fst a))).

(** ** Rows of the leaderboard and the state of a run *)

Record Row := {
  row_Username : string;
  Total_Solved : value;
  Easy : value;
  Medium : value;
  Hard : value;
  Accuracy : float;
  Rank : value;
  Rank_Delta : string
}.

Record run := {
  rows : list Row;
  skill_dfs : list (list SkillRecord);
  prev_ranks : gmap string value;      (* st.session_state.prev_ranks *)
  messages : list message
}.

(** how the fetch loop ends: normally, or with an exception that no handler
    catches; the session state is the one reached by then *)
Inductive outcome : Type :=
| Completed (s : run)
| Aborted (s : run).

Definition state_of (o : outcome) : run :=
  match o with
  | Completed s => s
  | Aborted s => s
  end.

Section Fetch.

(** [requests.get(url, timeout=10)] followed by [raise_for_status] and
    [json]: what the two endpoints answer during a run *)
Variable profile_api : string -> response value.
Variable skill_api : string -> response skill_doc.
Variable sort_values : sorter.

Definition get_profile_try (u : string) : result value :=
  match profile_api (profile_url u) with
  | Json v => Ok v
  | _ => Raise
  end.

Definition get_profile (u : string) : result (value * list message) :=
  match get_profile_try u with
  | Ok v => Ok (v, [])
  | Raise => Ok (VNone, [StError ("Profile error (" +:+ u +:+ ")")])
  end.

Definition get_skill_table_try (u : string) : result (list SkillRecord) :=
  match skill_api (skill_url u) with
  | Json (Levels items) =>
      records <~ level_records u items;
      match records with
      | [] => Ok []
      | _ => Ok (map fst (sort_values _ skill_le records))
      end
  | _ => Raise
  end.

Definition get_skill_table (u : string) : result (list SkillRecord * list message) :=
  match get_skill_table_try u with
  | Ok df => Ok (df, [])
  | Raise => Ok ([], [StError ("Skill error (" +:+ u +:+ ")")])
  end.

(** the dict literal of lines 159 to 168 *)
Definition make_row (user : string) (prof : value) (prev : gmap string value)
  : result Row :=
  total <~ get prof "totalSolved" (VInt 0);
  easy <~ get prof "easySolved" (VInt 0);
  medium <~ get prof "mediumSolved" (VInt 0);
  hard <~ get prof "hardSolved" (VInt 0);
  acc <~ compute_accuracy prof;
  rank <~ get prof "ranking" (VStr "N/A");
  new <~ get prof "ranking" VNone;
  delta <~ rank_change (default VNone (prev !! user)) new;
  Ok {| row_Username := user; Total_Solved := total; Easy := easy;
        Medium := medium; Hard := hard; Accuracy := acc; Rank := rank;
        Rank_Delta := delta |}.

Definition log (msgs : list message) (s : run) : run :=
  {| rows := rows s; skill_dfs := skill_dfs s; prev_ranks := prev_ranks s;
     messages := (messages s ++ msgs)%list |}.

Definition remember (user : string) (r : value) (s : run) : run :=
  {| rows := rows s; skill_dfs := skill_dfs s;
     prev_ranks := <[user := r]> (prev_ranks s); messages := messages s |}.

(** [rows.append(row)] *)
Definition add_row (row : Row) (s : run) : run :=
  {| rows := (rows s ++ [row])%list; skill_dfs := skill_dfs s;
     prev_ranks := prev_ranks s; messages := messages s |}.

(** [skill_dfs.append(df)] *)
Definition add_skills (df : list SkillRecord) (s : run) : run :=
  {| rows := rows s; skill_dfs := (skill_dfs s ++ [df])%list;
     prev_ranks := prev_ranks s; messages := messages s |}.

(** the body of the loop of lines 154 to 170 *)
Definition fetch_user (user : string) (s : run) : outcome :=
  match get_profile user with
  | Raise => Aborted s
  | Ok (prof, msgs) =>
      let s := log msgs s in
      if truthy prof then
        match make_row user prof (prev_ranks s) with
        | Raise => Aborted s
        | Ok row =>
            let s := add_row row s in
            match get_skill_table user with
            | Raise => Aborted s
            | Ok (df, msgs') =>
                let s := add_skills df (log msgs' s) in
                match get prof "ranking" VNone with
                | Raise => Aborted s
                | Ok r => Completed (remember user r s)
                end
            end
        end
      else Completed (remember user (VStr "N/A") s)
  end.

Fixpoint fetch_loop (usernames : list string) (s : run) : outcome :=
  match usernames with
  | [] => Completed s
  | user :: rest =>
      match fetch_user user s with
      | Completed s' => fetch_loop rest s'
      | Aborted s' => Aborted s'
      end
  end.

(** one run of the script from "Fetch Data" on: the rows start empty, the
    previous ranks are those of the session *)
Definition fetch_data (usernames : list string) (prev : gmap string value) : outcome :=
  fetch_loop usernames {| rows := []; skill_dfs := []; prev_ranks := prev; messages := [] |}.

(** ** The leaderboard *)

(** the column "Total Solved" next to its rows; columns that are not
    integer columns are outside the embedding *)
Definition total_solved (r : Row) : option Z :=
  match Total_Solved r with
  | VInt z => Some z
  | _ => None
  end.

Definition with_totals (rs : list Row) : option (list (Z * Row)) :=
  mapM (fun r => z ← total_solved r; Some (z, r)) rs.

(** the order of [ascending=False] *)
Definition total_ge (a b : Z * Row) : bool := Z.leb (fst b) (fst a).

(** lines 178 and 179: the rows sorted, then indexed from 1 (with no row at
    all the script has stopped before, line 176) *)
Definition leaderboard (rs : list Row) : option (list (nat * Row)) :=
  keyed ← with_totals rs;
  let df := map snd (sort_values _ total_ge keyed) in
  Some (zip (seq 1 (length df)) df).

(** ** The heatmap *)

Definition all_skills (dfs : list (list SkillRecord)) : list SkillRecord := concat dfs.

(** the index of the pivot table: Skill, Level, _sort *)
Definition pivot_key : Type := string * string * Z.

Definition key_of (r : SkillRecord) : pivot_key :=
  (Skill r, Level r, level_sort (Level r)).

(** [groupby(index + columns).sum()]: one running total per group, added
    in 64 bits *)
Definition group_sum (df : list SkillRecord) : gmap (pivot_key * string) Z :=
  foldl (fun m r =>
           let k := (key_of r, Username r) in
           <[k := wrap64 (default 0 (m !! k) + ProblemsSolved r)]> m)
        ∅ df.

Definition pivot_key_le (a b : pivot_key) : bool :=
  let '(s1, l1, z1) := a in
  let '(s2, l2, z2) := b in
  String.ltb s1 s2
  || (String.eqb s1 s2 && (String.ltb l1 l2 || (String.eqb l1 l2 && Z.leb z1 z2))).

Record Heatmap := {
  columns : list string;                       (* the usernames *)
  cells : list (string * string * list Z)      (* Skill, Level, one number per column *)
}.

(** [pivot_table(index=["Skill", "Level", "_sort"], columns="Username",
    values="Problems Solved", aggfunc="sum", fill_value=0).reset_index()] *)
Definition pivot_table (df : list SkillRecord) : list string * list (pivot_key * list Z) :=
  let sums := group_sum df in
  let index := sorted_unique pivot_key_le (map key_of df) in
  let cols := sorted_unique String.leb (map Username df) in
  (cols, map (fun k => (k, map (fun u => default 0 (sums !! (k, u))) cols)) index).

(** the order of [sort_values("_sort")] *)
Definition sort_le (a b : pivot_key * list Z) : bool :=
  Z.leb (snd (fst a)) (snd (fst b)).

(** the names [reset_index] gives to the columns it makes of the index; it
    raises "cannot insert ..., already exists" when the table has a column
    (here: a username) of such a name *)
Definition index_names : list string := ["Skill"; "Level"; "_sort"].

Definition name_clash (cols : list string) : bool :=
  existsb (fun c => existsb (String.eqb c) index_names) cols.

(** lines 292 to 301; [None] is the branch "No skill data available." *)
Definition heatmap (dfs : list (list SkillRecord)) : result (option Heatmap) :=
  match all_skills dfs with
  | [] => Ok None
  | df =>
      let '(cols, table) := pivot_table df in
      if name_clash cols then Raise
      else
        let sorted := sort_values _ sort_le table in
        Ok (Some {| columns := cols;
                    cells := map (fun row => (fst (fst (fst row)), snd (fst (fst row)), snd row))
                                 sorted |})
  end.

End Fetch.

(** ** Vocabulary of the statements *)

(** What pandas promises of [sort_values] with the default [kind]: the rows
    rearranged into the requested order. *)
Definition sorts (s : sorter) : Prop :=
  forall (A : Type) (le : A -> A -> bool) (l : list A),
    (forall x y, le x y = true \/ le y x = true) ->
    (forall x y z, le x y = true -> le y z = true -> le x z = true) ->
    Permutation (s A le l) l /\ StronglySorted (fun x y => le x y = true) (s A le l).

(** an answer that is no document *)
Definition failed {A} (r : response A) : bool :=
  match r with
  | Json _ => false
  | _ => true
  end.

(** the two parallel arrays of a profile *)
Definition stats_of (p : value) (ac total : list value) : Prop :=
  exists stats,
    getitem p "matchedUserStats" = Ok stats
    /\ getitem stats "acSubmissionNum" = Ok (VList ac)
    /\ getitem stats "totalSubmissionNum" = Ok (VList total).

(** [all_bucket ac total x y]: the first entry of [ac] labelled "All" reports
    [x] accepted submissions, the entry of [total] at the same position [y]
    submissions, and the entries before it carry other labels. *)
Inductive all_bucket : list value -> list value -> Z -> Z -> Prop :=
| all_here a t ac total n sub x y :
    getitem a "difficulty" = Ok (VStr "All") ->
    getitem a "submissions" = Ok n -> as_int n = Some x ->
    getitem t "submissions" = Ok sub -> as_int sub = Some y ->
    all_bucket (a :: ac) (t :: total) x y
| all_later a t ac total d x y :
    getitem a "difficulty" = Ok d -> eq_str d "All" = false ->
    all_bucket ac total x y ->
    all_bucket (a :: ac) (t :: total) x y.

(** [round(accepted / total * 100, 2)] as [compute_accuracy] evaluates it:
    0.0 when total is 0 or the quotient is out of range *)
Definition accuracy_of (accepted total : Z) : float :=
  if Z.eqb total 0 then Finite 0
  else match of_Q (inject_Z accepted / inject_Z total) with
       | Finite q => round2 (times_100 (Finite q))
       | Infinity _ => Finite 0
       end.

(** [round(100 * accepted / total, 2)], the formula of the specification *)
Definition accuracy_formula (accepted total : Z) : float :=
  round2 (of_Q (inject_Z (100 * accepted) / inject_Z total)).

(** a profile whose "All" bucket, if it has one, counts no more accepted
    submissions than submissions *)
Definition valid_profile (p : value) : Prop :=
  forall ac total x y, stats_of p ac total -> all_bucket ac total x y -> 0 <= x <= y.

Definition level_names : list string := ["Advanced"; "Intermediate"; "Fundamental"].

(** the order of the output of the skill fetcher: level rank first, then
    problems solved, larger first *)
Definition skill_order (a b : SkillRecord) : Prop :=
  level_sort (Level a) < level_sort (Level b)
  \/ (level_sort (Level a) = level_sort (Level b) /\ ProblemsSolved b <= ProblemsSolved a).

(** the records of one user with one skill tag and one level *)
Definition matching (skill level user : string) (r : SkillRecord) : bool :=
  String.eqb (Skill r) skill && String.eqb (Level r) level && String.eqb (Username r) user.

Definition solved_sum (df : list SkillRecord) : Z :=
  foldr Z.add 0 (map ProblemsSolved df).






(** what holds of every record the two loops build *)
Definition well_formed (u : string) (r : SkillRecord * Z) : Prop :=
  In (Level (fst r)) level_names
  /\ snd r = level_sort (Level (fst r))
  /\ Username (fst r) = u.

Definition is_dict (v : value) : Prop := exists d, v = VDict d.


Definition levels_ascending (a b : string * string * list Z) : Prop :=
  level_sort (snd (fst a)) <= level_sort (snd (fst b)).

(** the records of one group of the pivot table *)
Definition group_of (k : pivot_key * string) (r : SkillRecord) : bool :=
  bool_decide ((key_of r, Username r) = k).

Definition no_leading_space (s : string) : Prop :=
  match s with
  | EmptyString => True
  | String c _ => is_space c = false
  end.

(** A text of ASCII characters. On such texts [strip], [capitalize] and the
    comparisons of the embedding are those of Python; the statements about
    texts that the program strips or capitalizes are made for these. *)
Definition is_ascii (s : string) : bool :=
  forallb (fun c => Nat.ltb (nat_of_ascii c) 128) (list_ascii_of_string s).

Definition ascii_text (s : string) : Prop := is_ascii s = true.

(** two texts that differ in the case of their letters at most *)
Definition caseless (s t : string) : Prop := map_string lower s = map_string lower t.

(** [read_csv] gives back as written every frame whose usernames are among
    [names]: so pandas does for usernames that are text to it *)
Definition reads_as_written (read_csv : csv_reader) (names : list value) : Prop :=
  forall df, Forall (fun r => In (username r) names) df -> read_csv df = df.

(** the reader of a file whose usernames are all text to pandas *)
Definition as_written : csv_reader := fun df => df.

(** the reader of a file whose usernames are all 123: pandas reads the
    column as integers *)
Definition read_123 : csv_reader :=
  map (fun r => if eq_str (username r) "123"
                then {| username := VInt 123; added_at := added_at r |} else r).

(** ** Sample data *)

Definition bucket (difficulty : string) (submissions : Z) : value :=
  VDict [("difficulty", VStr difficulty); ("count", VInt 0); ("submissions", VInt submissions)].

(** a profile with [accepted] accepted submissions out of [total] *)
Definition profile_of (accepted total : Z) : value :=
  VDict [("totalSolved", VInt 120); ("ranking", VInt 500);
         ("matchedUserStats",
           VDict [("acSubmissionNum", VList [bucket "Easy" 1; bucket "All" accepted]);
                  ("totalSubmissionNum", VList [bucket "Easy" 2; bucket "All" total])])].

Definition sample_profile : value := profile_of 1 3.

(** the profile endpoint answers for alice, carol and dave (whose profile
    has no ranking), the skill endpoint for alice only *)
Definition sample_profile_api (url : string) : response value :=
  if String.eqb url (profile_url "alice") then Json sample_profile
  else if String.eqb url (profile_url "carol") then Json sample_profile
  else if String.eqb url (profile_url "dave") then Json (VDict [("totalSolved", VInt 5)])
  else StatusError.

Definition sample_skill_api (url : string) : response skill_doc :=
  if String.eqb url (skill_url "alice")
  then Json (Levels [("unrated", SkillList [SkillObject (Some "Graphs") None]);
                     ("advanced", SkillList [SkillObject (Some "Arrays") (Some 3);
                                             SkillObject (Some "Trie") (Some 4)])])
  else JsonError.

Definition sample_table : list SkillRecord :=
  [{| Level := "Advanced"; Skill := "Trie"; ProblemsSolved := 4; Username := "alice" |};
   {| Level := "Advanced"; Skill := "Arrays"; ProblemsSolved := 3; Username := "alice" |};
   {| Level := "Fundamental"; Skill := "Graphs"; ProblemsSolved := 0; Username := "alice" |}].

Definition sample_frames : list (list SkillRecord) :=
  [sample_table; [];
   [{| Level := "Advanced"; Skill := "Arrays"; ProblemsSolved := 5; Username := "bob" |};
    {| Level := "Advanced"; Skill := "Arrays"; ProblemsSolved := 2; Username := "bob" |}]].

(** the records of a user who is called Skill *)
Definition clash_frames : list (list SkillRecord) :=
  [[{| Level := "Advanced"; Skill := "Arrays"; ProblemsSolved := 3; Username := "Skill" |}]].

(** two records of one user, skill and level whose sum leaves the 64 bits *)
Definition overflow_frames : list (list SkillRecord) :=
  [[{| Level := "Advanced"; Skill := "Arrays"; ProblemsSolved := 2 ^ 62; Username := "alice" |};
    {| Level := "Advanced"; Skill := "Arrays"; ProblemsSolved := 2 ^ 62; Username := "alice" |}]].

(** the ranks a session holds after alice and bob were seen at 640 and 500 *)
Definition sample_ranks : gmap string value :=
  <["alice" := VInt 640]> (<["bob" := VInt 500]> ∅).

(** ** The other handlers and views of the page *)

(** lines 137 to 140, "Refresh All": the previous ranks of the session
    afterwards (the cache that is cleared is Streamlit's) *)
Definition refresh_all (prev : gmap string value) : gmap string value := ∅.

(** lines 191 to 193: the table "Rank Changes", drawn when some rank delta is
    not empty *)
Definition rank_changes (df : list (nat * Row)) : option (list (string * string)) :=
  if existsb (fun ir => nonempty (Rank_Delta (snd ir))) df
  then Some (map (fun ir => (row_Username (snd ir), Rank_Delta (snd ir)))
                 (List.filter (fun ir => nonempty (Rank_Delta (snd ir))) df))
  else None.

(** [all_skills[all_skills["Skill"] == x]["Problems Solved"].sum()], a sum
    in 64 bits *)
Definition skill_total (df : list SkillRecord) (x : string) : Z :=
  wrap64 (solved_sum (List.filter (fun r => String.eqb (Skill r) x) df)).

(** the first part of the key [(-total, x)] of line 234; the total is a
    64-bit number, and so is its negative *)
Definition skill_rank (df : list SkillRecord) (x : string) : Z :=
  wrap64 (- skill_total df x).

(** the order of the keys *)
Definition skill_key_le (df : list SkillRecord) (x y : string) : bool :=
  Z.ltb (skill_rank df x) (skill_rank df y)
  || (Z.eqb (skill_rank df x) (skill_rank df y) && String.leb x y).

(** line 234: the skills of the select box below "All Skills". The keys of
    two skills differ, so the order in which [unique()] lists them does not
    reach the result of [sorted]. *)
Definition unique_skills (df : list SkillRecord) : list string :=
  insertion_sort string (skill_key_le df) (remove_dups (map Skill df)).

(** line 245 *)
Definition filtered_skills (selected : string) (df : list SkillRecord) : list SkillRecord :=
  if String.eqb selected "All Skills" then df
  else List.filter (fun r => String.eqb (Skill r) selected) df.

(** lines 249 and 250, again 323 and 324: the column [_sort] is added and the
    frame sorted by it and by "Problems Solved", larger first *)
Definition sort_by_level (sort_values : sorter) (df : list SkillRecord) : list SkillRecord :=
  map fst (sort_values _ skill_le (map (fun r => (r, level_sort (Level r))) df)).

Definition is_advanced (r : SkillRecord) : bool := String.eqb (Level r) "Advanced".

(** [Level.isin(["Intermediate", "Fundamental"])] *)
Definition is_other (r : SkillRecord) : bool :=
  String.eqb (Level r) "Intermediate" || String.eqb (Level r) "Fundamental".

(** [pivot_table(index="Username", values="Problems Solved", aggfunc="sum",
    fill_value=0)]: one row per user, in the order of the names *)
Definition user_sums (df : list SkillRecord) : list (string * Z) :=
  let sums := foldl (fun (m : gmap string Z) r =>
                       <[Username r := wrap64 (default 0 (m !! Username r) + ProblemsSolved r)]> m)
                    ∅ df in
  map (fun u => (u, default 0 (sums !! u))) (sorted_unique String.leb (map Username df)).

(** the order of [sort_values("Problems Solved", ascending=False)] *)
Definition sum_ge (a b : string * Z) : bool := Z.leb (snd b) (snd a).

(** what the section "Skill Comparison" shows; of a record the tables show
    Username, Skill and Problems Solved, and an empty table is not drawn *)
Inductive skill_view : Type :=
| NoSkillData                                   (* "No skill data available." *)
| NoDataForFilter                               (* "No data available for selected filter." *)
| TopSkills (advanced other : list SkillRecord)
| SkillPivot (table : list (string * Z)).

(** lines 233 to 287, for the entry [selected] of the select box *)
Definition skill_comparison (sort_values : sorter) (selected : string)
           (dfs : list (list SkillRecord)) : skill_view :=
  match all_skills dfs with
  | [] => NoSkillData
  | df =>
      match filtered_skills selected df with
      | [] => NoDataForFilter
      | fs =>
          let sorted := sort_by_level sort_values fs in
          if String.eqb selected "All Skills"
          then TopSkills (take 5 (List.filter is_advanced sorted))
                         (take 5 (List.filter is_other sorted))
          else SkillPivot (sort_values _ sum_ge (user_sums sorted))
      end
  end.

(** lines 319 to 326: one table per user of the leaderboard who has skill
    records. When no user has any, [all_skills] is a frame without columns
    and [all_skills["Username"]] raises [KeyError]. *)
Definition detailed_tables (sort_values : sorter) (users : list string)
           (dfs : list (list SkillRecord)) : result (list (string * list SkillRecord)) :=
  match users with
  | [] => Ok []
  | _ =>
      match all_skills dfs with
      | [] => Raise
      | df =>
          Ok (flat_map
                (fun user =>
                   match List.filter (fun r => String.eqb (Username r) user) df with
                   | [] => []
                   | usr => [(user, sort_by_level sort_values usr)]
                   end)
                users)
      end
  end.

(** ** Vocabulary of the further statements *)

Definition usernames_of (f : csv_file) : list value := map username (default [] f).

(** the users of a run for whom [get_profile] returns a truthy value *)
Definition has_data (profile_api : string -> response value) (u : string) : bool :=
  match profile_api (profile_url u) with
  | Json prof => truthy prof
  | _ => false
  end.

(** what line 170 stores for a user: the ranking of the profile, [None] when
    the profile has none, "N/A" when there is no profile *)
Definition current_rank (profile_api : string -> response value) (u : string) : value :=
  match profile_api (profile_url u) with
  | Json prof =>
      if truthy prof
      then match get prof "ranking" VNone with
           | Ok r => r
           | Raise => VNone
           end
      else VStr "N/A"
  | _ => VStr "N/A"
  end.

(** an API whose profiles are objects with an integer ranking *)
Definition ranked_profiles (profile_api : string -> response value) (us : list string) : Prop :=
  forall u prof,
    In u us -> profile_api (profile_url u) = Json prof -> truthy prof = true ->
    exists d z, prof = VDict d /\ assoc "ranking" d = Some (VInt z).

(** previous ranks that are integers or "N/A" *)
Definition known_ranks (prev : gmap string value) : Prop :=
  forall u v, prev !! u = Some v -> v = VStr "N/A" \/ exists z, v = VInt z.

(** the skill objects of a document, level by level *)
Fixpoint skill_objects (items : list (string * skills_json)) : list skill_json :=
  match items with
  | [] => []
  | (_, SkillList l) :: rest => (l ++ skill_objects rest)%list
  | (_, SkillsNotList) :: rest => skill_objects rest
  end.

Definition sum_Z (l : list Z) : Z := foldr Z.add 0 l.

(** the records of one user *)
Definition records_of (user : string) (df : list SkillRecord) : list SkillRecord :=
  List.filter (fun r => String.eqb (Username r) user) df.

(** the records of one skill tag *)
Definition records_with (skill : string) (df : list SkillRecord) : list SkillRecord :=
  List.filter (fun r => String.eqb (Skill r) skill) df.

(** the order of the select box: larger total first, then the names in
    increasing order; the totals are the exact sums *)
Definition skill_before (df : list SkillRecord) (x y : string) : Prop :=
  solved_sum (records_with y df) < solved_sum (records_with x df)
  \/ (solved_sum (records_with x df) = solved_sum (records_with y df)
      /\ String.leb x y = true).

(** the same order on the keys that the program compares *)
Definition skill_key_before (df : list SkillRecord) (x y : string) : Prop :=
  skill_rank df x < skill_rank df y
  \/ (skill_rank df x = skill_rank df y /\ String.leb x y = true).

(** numbers that fit 64 bits: a column of them is an int64 column *)
Definition fits64 (z : Z) : Prop := - 2 ^ 63 <= z < 2 ^ 63.

Definition int64_column (df : list SkillRecord) : Prop :=
  Forall (fun r => fits64 (ProblemsSolved r)) df.

(** counts, none below zero, whose total fits 64 bits: no sum of some of
    them leaves the range *)
Definition small_counts (df : list SkillRecord) : Prop :=
  Forall (fun r => 0 <= ProblemsSolved r) df /\ solved_sum df < 2 ^ 63.

(** [shown] holds the first five of the records of [df] that satisfy [p], in
    the order of the levels and of the problems solved *)
Definition top_five (p : SkillRecord -> bool) (df shown : list SkillRecord) : Prop :=
  length shown = Nat.min 5 (length (List.filter p df))
  /\ (forall r, In r shown -> In r df /\ p r = true)
  /\ StronglySorted skill_order shown
  /\ (forall r r', In r' shown -> In r df -> p r = true -> ~ In r shown -> skill_order r' r).

(** a skill fetch that ends in the handler of [get_skill_table]: no
    document, a document that is no object, or an entry that is no object *)
Definition skill_failed (skill_api : string -> response skill_doc) (u : string) : bool :=
  match skill_api (skill_url u) with
  | Json (Levels items) =>
      existsb (fun s => match s with SkillNotObject => true | SkillObject _ _ => false end)
              (skill_objects items)
  | _ => true
  end.

(** the error messages that the turn of one user puts on the page *)
Definition errors_of (profile_api : string -> response value)
           (skill_api : string -> response skill_doc) (u : string) : list message :=
  ((if failed (profile_api (profile_url u))
    then [StError ("Profile error (" +:+ u +:+ ")")] else [])
   ++ (if has_data profile_api u && skill_failed skill_api u
       then [StError ("Skill error (" +:+ u +:+ ")")] else []))%list.

(** ** Further sample data *)

(** the profile endpoint at a later run: alice has moved to ranking 450 *)
Definition later_profile_api (url : string) : response value :=
  if String.eqb url (profile_url "alice")
  then Json (VDict [("totalSolved", VInt 121); ("ranking", VInt 450)])
  else StatusError.

(** the state the loop reaches over alice, bob and carol *)
Definition sample_state : run :=
  state_of (fetch_data sample_profile_api sample_skill_api insertion_sort
              ["alice"; "bob"; "carol"] sample_ranks).

(** the state of a run after "Refresh All" *)
Definition fresh_state : run :=
  state_of (fetch_data sample_profile_api sample_skill_api insertion_sort
              ["alice"; "bob"; "carol"] (refresh_all sample_ranks)).

(** the state of the later run over alice, after [sample_state] *)
Definition later_state : run :=
  state_of (fetch_data later_profile_api sample_skill_api insertion_sort
              ["alice"] (prev_ranks sample_state)).

(** a skill endpoint that cannot be reached, and the state of a run with it *)
Definition skill_api_down (url : string) : response skill_doc := RequestFailed.

Definition down_state : run :=
  state_of (fetch_data sample_profile_api skill_api_down insertion_sort
              ["alice"; "bob"; "carol"] sample_ranks).

(** the state a run reaches when dave, seen at rank 500 before, comes
    without a ranking *)
Definition aborted_state : run :=
  state_of (fetch_data sample_profile_api sample_skill_api insertion_sort
              ["alice"; "dave"; "carol"] (<["dave" := VInt 500]> ∅)).

(** the state of a first run over a list that names alice twice *)
Definition repeated_state : run :=
  state_of (fetch_data later_profile_api sample_skill_api insertion_sort
              ["alice"; "alice"] ∅).

(** * Properties *)

(** ** Sorting *)

Section Insertion.
Context {A : Type} (le : A -> A -> bool).
Hypothesis le_total : forall x y, le x y = true \/ le y x = true.
Hypothesis le_trans : forall x y z, le x y = true -> le y z = true -> le x z = true.

Let R (x y : A) : Prop := le x y = true.

Lemma insert_perm (x : A) (l : list A) : Permutation (insert le x l) (x :: l).
Proof.
  induction l as [|y l IH]; simpl; [reflexivity|].
  destruct (le x y); [reflexivity|].
  rewrite IH. apply perm_swap.
Qed.

Lemma insertion_sort_perm (l : list A) : Permutation (insertion_sort A le l) l.
Proof.
  induction l as [|x l IH]; simpl; [reflexivity|].
  unfold insertion_sort in *. simpl. rewrite insert_perm. now rewrite IH.
Qed.

Lemma insert_sorted (x : A) (l : list A) :
  StronglySorted R l -> StronglySorted R (insert le x l).
Proof.
  induction 1 as [|y l Hs IH Hy]; simpl.
  - repeat constructor.
  - destruct (le x y) eqn:E.
    + constructor; [now constructor|].
      constructor; [exact E|].
      eapply Forall_impl; [exact Hy|]. intros z Hz. eapply le_trans; eauto.
    + constructor; [exact IH|].
      assert (Hyx : R y x) by (destruct (le_total x y); [congruence|assumption]).
      eapply Permutation_Forall; [symmetry; apply insert_perm|].
      now constructor.
Qed.

Lemma insertion_sort_sorted (l : list A) : StronglySorted R (insertion_sort A le l).
Proof.
  induction l as [|x l IH]; [constructor|].
  unfold insertion_sort in *. simpl. now apply insert_sorted.
Qed.
End Insertion.

Lemma insertion_sort_sorts : sorts insertion_sort.
Proof.
  intros A le l Htot Htr. split.
  - apply insertion_sort_perm.
  - now apply insertion_sort_sorted.
Qed.

(** ** rank_change *)

Lemma rank_change_unknown (new : value) :
  rank_change VNone new = Ok "" /\ rank_change (VStr "N/A") new = Ok "".
Proof. split; reflexivity. Qed.

Lemma rank_change_numbers (prev cur : Z) :
  rank_change (VInt prev) (VInt cur) =
    Ok (if Z.ltb 0 (prev - cur) then "Up " +:+ str_of_int (prev - cur)
        else if Z.ltb (prev - cur) 0 then "Down " +:+ str_of_int (cur - prev)
        else "No change").
Proof.
  unfold rank_change. simpl.
  destruct (Z.ltb 0 (prev - cur)); [reflexivity|].
  destruct (Z.ltb (prev - cur) 0); [|reflexivity].
  do 3 f_equal. lia.
Qed.

Example rank_change_examples :
  rank_change (VInt 500) (VInt 300) = Ok "Up 200"
  /\ rank_change (VInt 300) (VInt 500) = Ok "Down 200"
  /\ rank_change (VInt 300) (VInt 300) = Ok "No change"
  /\ rank_change VNone (VInt 300) = Ok "".
Proof. repeat split; reflexivity. Qed.

(** C1, where the code departs from it: with a numeric previous rank and a
    current rank that is "N/A" (or [None], which is what [prof.get("ranking")]
    yields for a profile without the key) the subtraction [old - new] raises,
    so [rank_change] returns none of the four strings. *)
Theorem rank_change_raises_without_current_rank (prev : Z) :
  rank_change (VInt prev) (VStr "N/A") = Raise
  /\ rank_change (VInt prev) VNone = Raise.
Proof. split; reflexivity. Qed.

(** ** Rounding *)

Lemma round_half_even_bounds (q : Q) (n : Z) :
  (0 <= q)%Q -> (q <= inject_Z n)%Q -> 0 <= round_half_even q <= n.
Proof.
  intros H0 Hn. unfold round_half_even.
  pose proof (Qfloor_le q) as Hfl.
  assert (Hf0 : 0 <= Qfloor q).
  { rewrite <- (Qfloor_Z 0). now apply Qfloor_resp_le. }
  assert (Hfn : Qfloor q <= n).
  { rewrite <- (Qfloor_Z n). now apply Qfloor_resp_le. }
  destruct (Z.eq_dec (Qfloor q) n) as [E|E].
  - assert (Hr : (q - inject_Z (Qfloor q) <= 0)%Q).
    { rewrite E. unfold Qminus. rewrite <- (Qplus_opp_r (inject_Z n)).
      apply Qplus_le_l. exact Hn. }
    assert (Hlt : (q - inject_Z (Qfloor q) < 1 # 2)%Q).
    { eapply Qle_lt_trans; [exact Hr|]. reflexivity. }
    destruct (Qcompare_spec (q - inject_Z (Qfloor q)) (1 # 2)) as [He|_|Hg];
      [exfalso; unfold Qlt, Qeq in *; lia|lia|exfalso; unfold Qlt in *; lia].
  - destruct (q - inject_Z (Qfloor q) ?= 1 # 2)%Q; [destruct (Z.even _)| |]; lia.
Qed.

(** values of CPython: [0.1], [23 / 160], [23 / 160 * 100] (printed as
    14.374999999999998), the latter rounded to two places, a quotient out of
    range, and half of the least positive float *)
Example binary64_values :
  of_Q (1 # 10) = Finite (3602879701896397 # 36028797018963968)
  /\ of_Q (23 # 160) = Finite (2589569785738035 # 18014398509481984)
  /\ times_100 (of_Q (23 # 160)) = Finite (8092405580431359 # 562949953421312)
  /\ round2 (times_100 (of_Q (23 # 160))) = Finite (8089590830664253 # 562949953421312)
  /\ of_Q (inject_Z (10 ^ 400) / 3) = Infinity false
  /\ of_Q (1 # 2 ^ 1075) = Finite 0.
Proof. repeat split; vm_compute; reflexivity. Qed.

Lemma ilog2_small (q : Q) (c : Z) :
  (0 <= q)%Q -> (q <= inject_Z c)%Q -> c < 2 ^ 53 -> ilog2 (Qabs q) <= 52.
Proof.
  destruct q as [n d]. unfold Qle, ilog2. simpl. intros Hn Hc Hlt.
  rewrite Z.abs_eq by lia.
  destruct (Z.leb_spec (Z.pos d) n) as [Hdn|Hdn].
  - assert (Hq : 0 < n / Z.pos d) by (apply Z.div_str_pos; lia).
    assert (Hle : n / Z.pos d <= c).
    { apply Z.div_le_upper_bound; lia. }
    assert (Hl : Z.log2 (n / Z.pos d) < 53) by (apply Z.log2_lt_pow2; lia).
    lia.
  - pose proof (Z.log2_up_nonneg ((Z.pos d + n - 1) / n)). lia.
Qed.

Lemma ulp_pos (q : Q) : (0 < ulp q)%Q.
Proof. unfold ulp. now apply Qpower_0_lt. Qed.

Lemma two_power_inverse (k : Z) : 0 <= k -> (inject_Z (2 ^ k) * 2 ^ (- k) == 1)%Q.
Proof.
  intros Hk. rewrite Zpower_Qpower by exact Hk.
  change (inject_Z 2) with 2%Q. rewrite <- Qpower_plus by discriminate.
  now replace (k + - k) with 0 by lia.
Qed.

(** rounding stays below an integer of at most 53 bits *)
Lemma rnd_bounds (q : Q) (c : Z) :
  (0 <= q)%Q -> (q <= inject_Z c)%Q -> c < 2 ^ 53 ->
  (0 <= rnd q)%Q /\ (rnd q <= inject_Z c)%Q.
Proof.
  intros H0 Hc Hlt. unfold rnd. rewrite !Qred_correct.
  pose proof (ilog2_small q c H0 Hc Hlt) as He.
  pose proof (ulp_pos q) as Hu. unfold ulp in *.
  set (E := Z.max (ilog2 (Qabs q)) emin) in *.
  assert (HE : E <= 52) by (unfold E, emin; lia).
  set (u := (2 ^ (E - 52))%Q) in *.
  assert (Hone : (inject_Z (2 ^ (52 - E)) * u == 1)%Q).
  { unfold u. replace (E - 52) with (- (52 - E)) by lia. apply two_power_inverse. lia. }
  assert (Hcu : (inject_Z (c * 2 ^ (52 - E)) * u == inject_Z c)%Q).
  { rewrite inject_Z_mult, <- Qmult_assoc, Hone. apply Qmult_1_r. }
  destruct (round_half_even_bounds (q / u) (c * 2 ^ (52 - E))) as [Ha Hb].
  - apply Qle_shift_div_l; [exact Hu|]. now rewrite Qmult_0_l.
  - apply Qle_shift_div_r; [exact Hu|]. now rewrite Hcu.
  - split.
    + apply Qmult_le_0_compat; [|now apply Qlt_le_weak].
      change 0%Q with (inject_Z 0). now rewrite <- Zle_Qle.
    + rewrite <- Hcu. apply Qmult_le_compat_r; [|now apply Qlt_le_weak].
      now rewrite <- Zle_Qle.
Qed.

Lemma of_Q_bounds (q : Q) (c : Z) :
  (0 <= q)%Q -> (q <= inject_Z c)%Q -> c < 2 ^ 53 ->
  exists r, of_Q q = Finite r /\ (0 <= r)%Q /\ (r <= inject_Z c)%Q.
Proof.
  intros H0 Hc Hlt. destruct (rnd_bounds q c H0 Hc Hlt) as [Ha Hb].
  unfold of_Q. exists (rnd q). split; [|split; assumption].
  destruct (Qle_bool (2 ^ emax) (Qabs (rnd q))) eqn:E; [|reflexivity].
  exfalso. apply Qle_bool_iff in E. rewrite Qabs_pos in E by exact Ha.
  assert (Hbig : (inject_Z c < 2 ^ emax)%Q).
  { apply Qlt_le_trans with (inject_Z (2 ^ 53)); [now rewrite <- Zlt_Qlt|].
    apply Qle_bool_iff. vm_compute. reflexivity. }
  apply (Qlt_irrefl (2 ^ emax)).
  eapply Qle_lt_trans; [exact E|]. eapply Qle_lt_trans; [exact Hb|exact Hbig].
Qed.

Lemma round2_bounds (q : Q) :
  (0 <= q)%Q -> (q <= 100)%Q ->
  exists r, round2 (Finite q) = Finite r /\ (0 <= r)%Q /\ (r <= 100)%Q.
Proof.
  intros H0 H1. simpl. eexists. split; [reflexivity|].
  destruct (round_half_even_bounds (q * 100) 10000) as [Ha Hb].
  - apply Qmult_le_0_compat; [exact H0|discriminate].
  - change (inject_Z 10000) with (100 * 100)%Q. apply Qmult_le_compat_r; [exact H1|discriminate].
  - set (n := round_half_even (q * 100)) in *. clearbody n.
    apply (rnd_bounds (inject_Z n / 100) 100).
    + unfold Qle, Qdiv, Qmult, Qinv, inject_Z; simpl. lia.
    + unfold Qle, Qdiv, Qmult, Qinv, inject_Z; simpl. lia.
    + reflexivity.
Qed.

Lemma accuracy_of_bounds (x y : Z) :
  0 <= x <= y -> y <> 0 ->
  exists r, accuracy_of x y = Finite r /\ (0 <= r)%Q /\ (r <= 100)%Q.
Proof.
  intros Hxy Hy. unfold accuracy_of.
  rewrite (proj2 (Z.eqb_neq y 0) Hy).
  destruct (of_Q_bounds (inject_Z x / inject_Z y) 1) as (q & -> & Hq0 & Hq1).
  - destruct y as [|p|p]; [lia| |lia].
    unfold Qle, Qdiv, Qmult, Qinv, inject_Z; simpl. lia.
  - destruct y as [|p|p]; [lia| |lia].
    unfold Qle, Qdiv, Qmult, Qinv, inject_Z; simpl. lia.
  - reflexivity.
  - simpl times_100.
    destruct (of_Q_bounds (q * 100) 100) as (r & -> & Hr0 & Hr1).
    + apply Qmult_le_0_compat; [exact Hq0|discriminate].
    + change (inject_Z 100) with (1 * 100)%Q. apply Qmult_le_compat_r; [exact Hq1|discriminate].
    + reflexivity.
    + now apply round2_bounds.
Qed.

(** ** compute_accuracy *)

Lemma truthy_int (v : value) (y : Z) : as_int v = Some y -> truthy v = negb (Z.eqb y 0).
Proof. destruct v as [|b|z|s|l|d]; simpl; intros [= <-]; [now destruct b|reflexivity]. Qed.

Lemma accuracy_loop_all (ac total : list value) (x y : Z) :
  all_bucket ac total x y ->
  match accuracy_loop (combine ac total) with
  | Ok (Some f) => f = accuracy_of x y
  | Ok None => False
  | Raise => accuracy_of x y = Finite 0
  end.
Proof.
  induction 1 as [a t ac total n sub x y Hd Hn Hx Hs Hy | a t ac total d x y Hd Hne _ IH]; simpl.
  - rewrite Hd. simpl. rewrite Hs. simpl. rewrite (truthy_int _ _ Hy).
    unfold accuracy_of.
    destruct (Z.eqb y 0) eqn:E; simpl; [reflexivity|].
    rewrite Hn. simpl. unfold truediv. rewrite Hx, Hy, E.
    now destruct (of_Q (inject_Z x / inject_Z y)).
  - rewrite Hd. simpl. rewrite Hne. exact IH.
Qed.

Lemma accuracy_loop_some (la lt : list value) (f : float) :
  accuracy_loop (combine la lt) = Ok (Some f) ->
  f = Finite 0 \/ exists x y, all_bucket la lt x y /\ y <> 0.
Proof.
  revert lt. induction la as [|a la IH]; intros [|t lt]; simpl; try discriminate.
  destruct (getitem a "difficulty") as [d|] eqn:Hd; simpl; [|discriminate].
  destruct (eq_str d "All") eqn:Hall.
  - destruct (getitem t "submissions") as [sub|] eqn:Hs; simpl; [|discriminate].
    destruct (truthy sub) eqn:Ht; [|intros [= <-]; now left].
    destruct (getitem a "submissions") as [n|] eqn:Hn; simpl; [|discriminate].
    unfold truediv. destruct (as_int n) as [x|] eqn:Hx; [|discriminate].
    destruct (as_int sub) as [y|] eqn:Hy; [|discriminate].
    destruct (Z.eqb y 0) eqn:E; [discriminate|]. intros _.
    right. exists x, y. split; [|now apply Z.eqb_neq].
    eapply all_here; eauto.
    destruct d; simpl in Hall; try discriminate.
    apply String.eqb_eq in Hall. now subst.
  - intros H. destruct (IH _ H) as [->|(x & y & Hb & Hy)]; [now left|].
    right. exists x, y. split; [|exact Hy].
    eapply all_later; eauto.
Qed.

Lemma getitem_is_dict (v : value) (k : string) (x : value) : getitem v k = Ok x -> is_dict v.
Proof. destruct v; simpl; try discriminate. intros _. now eexists. Qed.

Lemma all_bucket_dicts (la lt : list value) (x y : Z) :
  all_bucket la lt x y -> Exists is_dict la /\ Exists is_dict lt.
Proof.
  induction 1 as [a t ac total n sub x y Hd Hn Hx Hs Hy | a t ac total d x y Hd Hne _ [IH1 IH2]].
  - split; constructor; eapply getitem_is_dict; eauto.
  - split; now apply Exists_cons_tl.
Qed.

Lemma iter_dicts (v : value) (l : list value) :
  iter v = Ok l -> Exists is_dict l -> v = VList l.
Proof.
  destruct v as [| | |s|l'|d]; simpl; try discriminate; intros [= <-]; [|reflexivity|];
    intros H; apply Exists_exists in H as (e & Hin & (d' & ->));
    apply list_elem_of_In, in_map_iff in Hin as (? & ? & _); discriminate.
Qed.

Lemma compute_accuracy_returns (p : value) : exists f, compute_accuracy p = Ok f.
Proof. unfold compute_accuracy. destruct (compute_accuracy_try p) as [[f|]|]; eauto. Qed.

Lemma compute_accuracy_all (p : value) (ac total : list value) (x y : Z) :
  stats_of p ac total -> all_bucket ac total x y ->
  compute_accuracy p = Ok (accuracy_of x y).
Proof.
  intros (stats & H1 & H2 & H3) Hb. unfold compute_accuracy, compute_accuracy_try.
  rewrite H1. simpl. rewrite H2. simpl. rewrite H3. simpl.
  pose proof (accuracy_loop_all _ _ _ _ Hb) as H.
  destruct (accuracy_loop (combine ac total)) as [[f|]|]; [now subst|destruct H|now rewrite H].
Qed.

Lemma compute_accuracy_cases (p : value) :
  compute_accuracy p = Ok (Finite 0)
  \/ exists ac total x y, stats_of p ac total /\ all_bucket ac total x y /\ y <> 0.
Proof.
  unfold compute_accuracy.
  destruct (compute_accuracy_try p) as [[f|]|] eqn:E; [|now left|now left].
  unfold compute_accuracy_try in E.
  destruct (getitem p "matchedUserStats") as [stats|] eqn:H1; simpl in E; [|discriminate].
  destruct (getitem stats "acSubmissionNum") as [ac|] eqn:H2; simpl in E; [|discriminate].
  destruct (getitem stats "totalSubmissionNum") as [total|] eqn:H3; simpl in E; [|discriminate].
  destruct (iter ac) as [la|] eqn:Ha; simpl in E; [|discriminate].
  destruct (iter total) as [lt|] eqn:Ht; simpl in E; [|discriminate].
  destruct (accuracy_loop_some _ _ _ E) as [->|(x & y & Hb & Hy)]; [now left|].
  right. exists la, lt, x, y.
  destruct (all_bucket_dicts _ _ _ _ Hb) as [Da Dt].
  apply (iter_dicts _ _ Ha) in Da. apply (iter_dicts _ _ Ht) in Dt. subst.
  split; [|split; assumption]. exists stats. auto.
Qed.

(** C3, as far as the code goes: [compute_accuracy] returns a float for every
    payload; for a payload with an "All" bucket it is accepted / total * 100
    rounded to two places, each step in binary64, and 0.0 when total is 0;
    it is 0.0 for every payload without an "All" bucket with a nonzero total
    (absent bucket, malformed payload); and it lies between 0 and 100 for
    every valid payload. *)
Theorem compute_accuracy_spec (p : value) :
  (exists f, compute_accuracy p = Ok f)
  /\ (forall ac total x y,
        stats_of p ac total -> all_bucket ac total x y ->
        compute_accuracy p = Ok (accuracy_of x y))
  /\ ((forall ac total x y, stats_of p ac total -> all_bucket ac total x y -> y = 0) ->
      compute_accuracy p = Ok (Finite 0))
  /\ (valid_profile p ->
      exists q, compute_accuracy p = Ok (Finite q) /\ (0 <= q)%Q /\ (q <= 100)%Q).
Proof.
  split; [|split; [|split]].
  - apply compute_accuracy_returns.
  - apply compute_accuracy_all.
  - intros H. destruct (compute_accuracy_cases p) as [E|(ac & total & x & y & Hs & Hb & Hy)];
      [exact E|]. exfalso. apply Hy. eapply H; eauto.
  - intros Hv. destruct (compute_accuracy_cases p) as [E|(ac & total & x & y & Hs & Hb & Hy)].
    + exists 0%Q. split; [exact E|]. split; discriminate.
    + rewrite (compute_accuracy_all _ _ _ _ _ Hs Hb).
      destruct (accuracy_of_bounds x y (Hv _ _ _ _ Hs Hb) Hy) as (r & -> & Hr).
      now exists r.
Qed.

(** C3 as stated fails: with 23 accepted submissions out of 160 the exact
    percentage is 14.375, which [round(100 * 23 / 160, 2)] turns into 14.38;
    the code divides first, 23 / 160 * 100 is a float just below 14.375, and
    it returns 14.37. *)
Lemma accuracy_differs_from_formula :
  compute_accuracy (profile_of 23 160) = Ok (Finite (rnd (1437 # 100)))
  /\ accuracy_formula 23 160 = Finite (rnd (1438 # 100))
  /\ compute_accuracy (profile_of 23 160) <> Ok (accuracy_formula 23 160).
Proof.
  split; [vm_compute; reflexivity|]. split; [vm_compute; reflexivity|].
  vm_compute. discriminate.
Qed.

Lemma profile_of_stats (x y : Z) :
  stats_of (profile_of x y) [bucket "Easy" 1; bucket "All" x] [bucket "Easy" 2; bucket "All" y].
Proof. eexists. repeat split; reflexivity. Defined.

Lemma profile_of_all (x y : Z) :
  all_bucket [bucket "Easy" 1; bucket "All" x] [bucket "Easy" 2; bucket "All" y] x y.
Proof.
  eapply all_later; [reflexivity|reflexivity|].
  eapply all_here; reflexivity.
Defined.

Lemma compute_accuracy_spec_witness :
  compute_accuracy (profile_of 1 3) = Ok (Finite (rnd (3333 # 100)))
  /\ compute_accuracy VNone = Ok (Finite 0)
  /\ exists q, compute_accuracy (profile_of 1 3) = Ok (Finite q) /\ (0 <= q)%Q /\ (q <= 100)%Q.
Proof.
  split; [|split].
  - exact (proj1 (proj2 (compute_accuracy_spec (profile_of 1 3))) _ _ 1 3
             (profile_of_stats 1 3) (profile_of_all 1 3)).
  - apply (proj1 (proj2 (proj2 (compute_accuracy_spec VNone)))).
    intros ac total x y (stats & H & _). discriminate H.
  - apply (proj2 (proj2 (proj2 (compute_accuracy_spec (profile_of 1 3))))).
    intros ac total x y (stats & H1 & H2 & H3) Hb.
    injection H1 as <-. injection H2 as <-. injection H3 as <-.
    inversion Hb as [a t ac' total' n sub x' y' Hd0 | a t ac' total' d x' y' Hd Hne Hb'];
      subst; [discriminate Hd0|].
    inversion Hb' as [a t ac'' total'' n sub x' y' Hd' Hn Hx Hs Hy
                     | a t ac'' total'' d' x' y' Hd' Hne' Hb'']; subst.
    + injection Hn as <-. injection Hs as <-. injection Hx as <-. injection Hy as <-. lia.
    + inversion Hb''.
Defined.

(** ** The skill fetcher *)

Lemma upper_lower (c : ascii) : upper (lower c) = upper c.
Proof. destruct c as [[] [] [] [] [] [] [] []]; reflexivity. Qed.

Lemma lower_lower (c : ascii) : lower (lower c) = lower c.
Proof. destruct c as [[] [] [] [] [] [] [] []]; reflexivity. Qed.

Lemma upper_upper (c : ascii) : upper (upper c) = upper c.
Proof. destruct c as [[] [] [] [] [] [] [] []]; reflexivity. Qed.

Lemma lower_upper (c : ascii) : lower (upper c) = lower c.
Proof. destruct c as [[] [] [] [] [] [] [] []]; reflexivity. Qed.

Lemma map_lower_lower (s : string) : map_string lower (map_string lower s) = map_string lower s.
Proof. induction s as [|c s IH]; simpl; [reflexivity|]. now rewrite lower_lower, IH. Qed.

Lemma map_lower_upper (s : string) : map_string lower (map_string upper s) = map_string lower s.
Proof. induction s as [|c s IH]; simpl; [reflexivity|]. now rewrite lower_upper, IH. Qed.

Lemma capitalize_case (s : string) :
  capitalize (map_string lower s) = capitalize s
  /\ capitalize (map_string upper s) = capitalize s.
Proof.
  destruct s as [|c s]; simpl; [now split|].
  now rewrite upper_lower, upper_upper, map_lower_lower, map_lower_upper.
Qed.


Lemma capitalize_caseless (s t : string) : caseless s t -> capitalize s = capitalize t.
Proof.
  unfold caseless. intros H.
  destruct (capitalize_case s) as [<- _]. destruct (capitalize_case t) as [<- _].
  now rewrite H.
Qed.


Lemma level_order_names (level : string) (z : Z) :
  LEVEL_ORDER !! level = Some z -> In level level_names.
Proof.
  unfold LEVEL_ORDER, level_names. intros H.
  destruct (decide (level = "Advanced")) as [->|N1]; [now left|].
  destruct (decide (level = "Intermediate")) as [->|N2]; [right; now left|].
  destruct (decide (level = "Fundamental")) as [->|N3]; [right; right; now left|].
  rewrite !lookup_insert_ne in H by congruence. rewrite lookup_empty in H. discriminate.
Qed.

Lemma level_names_order (level : string) :
  In level level_names -> exists z, LEVEL_ORDER !! level = Some z.
Proof.
  intros [<-|[<-|[<-|[]]]]; eexists; reflexivity.
Qed.

Lemma normalize_level_spec (level_raw : string) :
  In (normalize_level level_raw) level_names
  /\ (In (capitalize level_raw) level_names -> normalize_level level_raw = capitalize level_raw)
  /\ (~ In (capitalize level_raw) level_names -> normalize_level level_raw = "Fundamental").
Proof.
  unfold normalize_level.
  destruct (LEVEL_ORDER !! capitalize level_raw) as [z|] eqn:E.
  - apply level_order_names in E. repeat split; [exact E|tauto].
  - repeat split.
    + right; right; now left.
    + intros H. apply level_names_order in H as [z Hz]. congruence.
Qed.

Lemma skill_records_well_formed (level u : string) (l : list skill_json) rs :
  In level level_names ->
  skill_records level u l = Ok rs -> Forall (well_formed u) rs.
Proof.
  intros Hl. revert rs. induction l as [|[tag n|] l IH]; simpl; intros rs.
  - intros [= <-]. constructor.
  - destruct (skill_records level u l) as [more|]; simpl; [|discriminate].
    intros [= <-]. constructor; [|now apply IH]. now repeat split.
  - discriminate.
Qed.

Lemma level_records_well_formed (u : string) (items : list (string * skills_json)) rs :
  level_records u items = Ok rs -> Forall (well_formed u) rs.
Proof.
  revert rs. induction items as [|[level_raw skills] items IH]; simpl; intros rs.
  - intros [= <-]. constructor.
  - destruct (match skills with
              | SkillList l => skill_records (normalize_level level_raw) u l
              | SkillsNotList => Ok []
              end) as [here|] eqn:E; simpl; [|discriminate].
    destruct (level_records u items) as [more|]; simpl; [|discriminate].
    intros [= <-]. apply Forall_app. split; [|now apply IH].
    destruct skills as [l|].
    + eapply skill_records_well_formed; [|exact E]. apply normalize_level_spec.
    + injection E as <-. constructor.
Qed.

Lemma skill_le_total (a b : SkillRecord * Z) : skill_le a b = true \/ skill_le b a = true.
Proof.
  unfold skill_le.
  rewrite !orb_true_iff, !andb_true_iff, !Z.ltb_lt, !Z.eqb_eq, !Z.leb_le. lia.
Qed.

Lemma skill_le_trans (a b c : SkillRecord * Z) :
  skill_le a b = true -> skill_le b c = true -> skill_le a c = true.
Proof.
  unfold skill_le.
  rewrite !orb_true_iff, !andb_true_iff, !Z.ltb_lt, !Z.eqb_eq, !Z.leb_le. lia.
Qed.

Lemma skill_le_order (u : string) (a b : SkillRecord * Z) :
  well_formed u a -> well_formed u b -> skill_le a b = true -> skill_order (fst a) (fst b).
Proof.
  intros (_ & Ha & _) (_ & Hb & _). unfold skill_le, skill_order.
  rewrite !orb_true_iff, !andb_true_iff, !Z.ltb_lt, !Z.eqb_eq, !Z.leb_le. lia.
Qed.

Lemma StronglySorted_map {A B} (f : A -> B) (R : A -> A -> Prop) (R' : B -> B -> Prop)
      (P : A -> Prop) (l : list A) :
  (forall a b, P a -> P b -> R a b -> R' (f a) (f b)) ->
  Forall P l -> StronglySorted R l -> StronglySorted R' (map f l).
Proof.
  intros HR HP HS. induction HS as [|a l HS IH Ha]; simpl; [constructor|].
  apply Forall_cons in HP as [Pa Pl].
  constructor; [now apply IH|].
  apply Forall_map. rewrite Forall_forall in *. intros b Hb. apply HR; auto.
Qed.

(** the table a parsed document yields *)
Lemma get_skill_table_json api (sv : sorter) (u : string) items records :
  sorts sv ->
  api (skill_url u) = Json (Levels items) ->
  level_records u items = Ok records ->
  exists df, get_skill_table api sv u = Ok (df, [])
             /\ Permutation df (map fst records)
             /\ StronglySorted skill_order df.
Proof.
  intros Hsv Hapi Hrec. unfold get_skill_table, get_skill_table_try.
  rewrite Hapi, Hrec. simpl.
  destruct records as [|r records]; [exists []; repeat split; constructor|].
  destruct (Hsv _ skill_le (r :: records) skill_le_total skill_le_trans) as [Hp Hs].
  eexists. split; [reflexivity|]. split; [now apply Permutation_map|].
  apply (StronglySorted_map fst (fun x y => skill_le x y = true) skill_order (well_formed u));
    [apply skill_le_order| |exact Hs].
  eapply Permutation_Forall; [symmetry; exact Hp|].
  eapply level_records_well_formed; eauto.
Qed.

Lemma get_skill_table_cases api (sv : sorter) (u : string) df msgs :
  get_skill_table api sv u = Ok (df, msgs) ->
  (df = [] /\ msgs = [StError ("Skill error (" +:+ u +:+ ")")])
  \/ exists items records,
       api (skill_url u) = Json (Levels items) /\ level_records u items = Ok records.
Proof.
  unfold get_skill_table, get_skill_table_try.
  destruct (api (skill_url u)) as [| | |[items|]]; try (intros [= <- <-]; now left).
  destruct (level_records u items) as [records|] eqn:E; simpl;
    [|intros [= <- <-]; now left].
  intros _. right. eauto.
Qed.


(** C5: the table of the skill fetcher is sorted by level rank, Advanced
    (rank 0) before Intermediate (1) before Fundamental (2), and within a
    level by problems solved, larger first; it holds the records of the
    document and no others. *)
Theorem skill_table_sorted api (sv : sorter) (u : string) :
  sorts sv ->
  level_sort "Advanced" < level_sort "Intermediate" < level_sort "Fundamental"
  /\ (forall df msgs,
         get_skill_table api sv u = Ok (df, msgs) -> StronglySorted skill_order df)
  /\ (forall items records,
         api (skill_url u) = Json (Levels items) ->
         level_records u items = Ok records ->
         exists df, get_skill_table api sv u = Ok (df, [])
                    /\ Permutation df (map fst records)).
Proof.
  intros Hsv. split; [split; reflexivity|]. split.
  - intros df msgs H.
    destruct (get_skill_table_cases _ _ _ _ _ H) as [[-> _]|(items & records & Hapi & Hrec)];
      [constructor|].
    destruct (get_skill_table_json _ _ _ _ _ Hsv Hapi Hrec) as (df' & E & _ & Hs).
    rewrite E in H. now injection H as <- _.
  - intros items records Hapi Hrec.
    destruct (get_skill_table_json _ _ _ _ _ Hsv Hapi Hrec) as (df & E & Hp & _). eauto.
Qed.

(** ** The leaderboard *)

Lemma total_ge_total (a b : Z * Row) : total_ge a b = true \/ total_ge b a = true.
Proof. unfold total_ge. rewrite !Z.leb_le. lia. Qed.

Lemma total_ge_trans (a b c : Z * Row) :
  total_ge a b = true -> total_ge b c = true -> total_ge a c = true.
Proof. unfold total_ge. rewrite !Z.leb_le. lia. Qed.

Lemma with_totals_keyed (rs : list Row) (keyed : list (Z * Row)) :
  with_totals rs = Some keyed ->
  map snd keyed = rs /\ Forall (fun kr => Total_Solved (snd kr) = VInt (fst kr)) keyed.
Proof.
  unfold with_totals. intros H. apply mapM_Some in H.
  induction H as [|r kr rs keyed Hr _ [IH1 IH2]]; simpl; [split; constructor|].
  unfold total_solved in Hr. destruct (Total_Solved r) eqn:E; try discriminate.
  injection Hr as <-. simpl. split; [now f_equal|]. now constructor.
Qed.





(** ** The heatmap *)

Lemma sorted_unique_elem {A} `{EqDecision A} (le : A -> A -> bool) (l : list A) (x : A) :
  In x (sorted_unique le l) <-> In x l.
Proof.
  unfold sorted_unique. rewrite <- !list_elem_of_In.
  rewrite (insertion_sort_perm le (remove_dups l)). apply elem_of_remove_dups.
Qed.

Lemma wrap64_range (z : Z) : fits64 (wrap64 z).
Proof.
  unfold fits64, wrap64.
  pose proof (Z.mod_pos_bound (z + 2 ^ 63) (2 ^ 64) ltac:(lia)). lia.
Qed.

Lemma wrap64_fits (z : Z) : fits64 z -> wrap64 z = z.
Proof. unfold fits64, wrap64. intros H. rewrite Z.mod_small by lia. lia. Qed.

Lemma wrap64_add (a b : Z) : wrap64 (wrap64 a + b) = wrap64 (a + b).
Proof.
  unfold wrap64. f_equal.
  replace ((a + 2 ^ 63) mod 2 ^ 64 - 2 ^ 63 + b + 2 ^ 63) with ((a + 2 ^ 63) mod 2 ^ 64 + b) by lia.
  rewrite Zplus_mod_idemp_l. f_equal. lia.
Qed.

Lemma wrap64_idem (z : Z) : wrap64 (wrap64 z) = wrap64 z.
Proof. apply wrap64_fits, wrap64_range. Qed.

(** a running total in 64 bits is the exact sum brought into the range *)
Lemma group_sum_fold (df : list SkillRecord) (m : gmap (pivot_key * string) Z)
      (k : pivot_key * string) :
  fits64 (default 0 (m !! k)) ->
  default 0
    (foldl (fun m r =>
              let k := (key_of r, Username r) in
              <[k := wrap64 (default 0 (m !! k) + ProblemsSolved r)]> m) m df !! k)
  = wrap64 (default 0 (m !! k) + solved_sum (List.filter (group_of k) df)).
Proof.
  revert m. induction df as [|r df IH]; intros m Hm; simpl.
  - unfold solved_sum. simpl. rewrite Z.add_0_r. symmetry. now apply wrap64_fits.
  - assert (Hg : group_of k r = bool_decide ((key_of r, Username r) = k)) by reflexivity.
    rewrite Hg. destruct (bool_decide_reflect ((key_of r, Username r) = k)) as [E|E].
    + rewrite IH by (rewrite E, lookup_insert_eq; apply wrap64_range).
      rewrite E, lookup_insert_eq. simpl. rewrite wrap64_add.
      unfold solved_sum. simpl. f_equal. lia.
    + rewrite IH by (now rewrite lookup_insert_ne by exact E).
      now rewrite lookup_insert_ne by exact E.
Qed.

Lemma group_sum_lookup (df : list SkillRecord) (skill level user : string) :
  default 0 (group_sum df !! ((skill, level, level_sort level), user))
  = wrap64 (solved_sum (List.filter (matching skill level user) df)).
Proof.
  unfold group_sum. rewrite group_sum_fold, lookup_empty by (rewrite lookup_empty; simpl; unfold fits64; lia).
  simpl. rewrite Z.add_0_l. do 2 f_equal. apply List.filter_ext. intros r.
  unfold group_of, matching, key_of.
  case_bool_decide as E.
  - injection E as -> -> _ ->. now rewrite !String.eqb_refl.
  - destruct (String.eqb_spec (Skill r) skill) as [<-|]; [|reflexivity].
    destruct (String.eqb_spec (Level r) level) as [<-|]; [|reflexivity].
    destruct (String.eqb_spec (Username r) user) as [<-|]; [|reflexivity].
    now destruct E.
Qed.

Lemma sort_le_total (a b : pivot_key * list Z) : sort_le a b = true \/ sort_le b a = true.
Proof. unfold sort_le. rewrite !Z.leb_le. lia. Qed.

Lemma sort_le_trans (a b c : pivot_key * list Z) :
  sort_le a b = true -> sort_le b c = true -> sort_le a c = true.
Proof. unfold sort_le. rewrite !Z.leb_le. lia. Qed.

(** the rows of the pivot table, before they are sorted by level *)
Lemma pivot_table_rows (df : list SkillRecord) (k : pivot_key) (vals : list Z) :
  In (k, vals) (snd (pivot_table df)) ->
  (exists r, In r df /\ key_of r = k)
  /\ vals = map (fun u => default 0 (group_sum df !! (k, u))) (fst (pivot_table df)).
Proof.
  unfold pivot_table. simpl. intros H.
  apply in_map_iff in H as (k' & [= <- <-] & Hk).
  apply sorted_unique_elem, in_map_iff in Hk as (r & Hr & Hin).
  split; [now exists r|reflexivity].
Qed.

Lemma filter_none {A} (f : A -> bool) (l : list A) :
  (forall x, In x l -> f x = false) -> List.filter f l = [].
Proof.
  induction l as [|x l IH]; simpl; intros H; [reflexivity|].
  rewrite (H x) by now left. apply IH. intros y Hy. apply H. now right.
Qed.

(** C6, as far as the code goes: in the heatmap, the cell of a (skill,
    level) row and a username column is the sum of the problems solved over
    the records of that user with that skill and level, added in 64 bits: it
    is the exact sum when that fits 64 bits, and 0 when there is no such
    record. The rows come in the order of the level ranks, Advanced (rank 0)
    before Intermediate (1) before Fundamental (2); every user and every
    (skill, level) pair of the data has its column and its row. With no skill
    data at all the page shows a note instead of the matrix; with skill data
    the matrix is built, whoever else has none, exactly when no user who has
    records is called Skill, Level or _sort. *)
Theorem heatmap_cells (sv : sorter) (dfs : list (list SkillRecord)) :
  sorts sv ->
  int64_column (all_skills dfs) ->
  level_sort "Advanced" < level_sort "Intermediate" < level_sort "Fundamental"
  /\ (all_skills dfs = [] -> heatmap sv dfs = Ok None)
  /\ (all_skills dfs <> [] ->
      ((forall r, In r (all_skills dfs) -> ~ In (Username r) index_names)
       <-> exists h, heatmap sv dfs = Ok (Some h)))
  /\ (forall h,
        heatmap sv dfs = Ok (Some h) ->
        (forall skill level vals,
            In (skill, level, vals) (cells h) ->
            length vals = length (columns h)
            /\ forall i user,
                columns h !! i = Some user ->
                vals !! i = Some (wrap64 (solved_sum (List.filter (matching skill level user)
                                                                  (all_skills dfs))))
                /\ (fits64 (solved_sum (List.filter (matching skill level user)
                                                    (all_skills dfs))) ->
                    vals !! i = Some (solved_sum (List.filter (matching skill level user)
                                                              (all_skills dfs))))
                /\ ((forall r, In r (all_skills dfs) -> matching skill level user r = false) ->
                    vals !! i = Some 0))
        /\ StronglySorted levels_ascending (cells h)
        /\ (forall r, In r (all_skills dfs) ->
              In (Username r) (columns h)
              /\ exists vals, In (Skill r, Level r, vals) (cells h))).
Proof.
  intros Hsv _. split; [split; reflexivity|]. split; [|split].
  - intros E. unfold heatmap. now rewrite E.
  - intros Hne. unfold heatmap.
    destruct (all_skills dfs) as [|r0 l0] eqn:E; [congruence|].
    set (df := r0 :: l0) in *. clearbody df.
    destruct (pivot_table df) as [cols table] eqn:Ept.
    unfold pivot_table in Ept. injection Ept as <- _.
    destruct (name_clash _) eqn:Hc.
    + split; [|now intros [h Hh]]. intros Hnames. exfalso.
      unfold name_clash in Hc.
      apply existsb_exists in Hc as (c & Hin & Hc).
      apply existsb_exists in Hc as (n & Hn & Hcn). apply String.eqb_eq in Hcn. subst n.
      apply sorted_unique_elem, in_map_iff in Hin as (r & <- & Hr).
      exact (Hnames r Hr Hn).
    + split; [eauto|]. intros _ r Hr Hn.
      assert (Ht : name_clash (sorted_unique String.leb (map Username df)) = true);
        [|congruence].
      unfold name_clash. apply existsb_exists. exists (Username r). split.
      * apply sorted_unique_elem. now apply in_map.
      * apply existsb_exists. exists (Username r). split; [exact Hn|apply String.eqb_refl].
  - intros h. unfold heatmap.
    destruct (all_skills dfs) as [|r0 l0] eqn:E; [discriminate|].
    set (df := r0 :: l0) in *. clearbody df. clear E r0 l0.
    destruct (pivot_table df) as [cols table] eqn:Ept.
    destruct (name_clash cols); [discriminate|]. intros [= <-].
    assert (Hcols : cols = fst (pivot_table df)) by now rewrite Ept.
    assert (Htable : table = snd (pivot_table df)) by now rewrite Ept.
    destruct (Hsv _ sort_le table sort_le_total sort_le_trans) as [Hp Hs].
    set (sorted := sv _ sort_le table) in *.
    assert (Hrow : forall k vals, In (k, vals) sorted ->
               (exists r, In r df /\ key_of r = k)
               /\ vals = map (fun u => default 0 (group_sum df !! (k, u))) cols).
    { intros k vals Hin. rewrite Hcols. apply pivot_table_rows. rewrite <- Htable.
      apply list_elem_of_In. rewrite <- Hp. now apply list_elem_of_In. }
    simpl. split; [|split].
    + intros skill level vals Hin.
      apply in_map_iff in Hin as ([[[s l] z] v] & [= -> -> ->] & Hin).
      destruct (Hrow _ _ Hin) as [(r & _ & Hk) ->].
      injection Hk as <- <- <-. rewrite length_map. split; [reflexivity|].
      intros i user Hi.
      assert (Hv : map (fun u => default 0 (group_sum df !! (key_of r, u))) cols !! i
                   = Some (wrap64 (solved_sum (List.filter (matching (Skill r) (Level r) user)
                                                           df)))).
      { change (map ?f cols) with (f <$> cols). rewrite list_lookup_fmap, Hi. simpl.
        f_equal. apply group_sum_lookup. }
      split; [exact Hv|]. split.
      * intros Hfit. now rewrite (wrap64_fits _ Hfit) in Hv.
      * intros Hno. rewrite (filter_none _ _ Hno) in Hv. exact Hv.
    + apply (StronglySorted_map _ (fun x y => sort_le x y = true) levels_ascending
               (fun row => snd (fst row) = level_sort (snd (fst (fst row))))); [| |exact Hs].
      * intros [[[s1 l1] z1] v1] [[[s2 l2] z2] v2] Ha Hb Hab.
        unfold sort_le in Hab. apply Z.leb_le in Hab.
        unfold levels_ascending. simpl in *. lia.
      * apply Forall_forall. intros [k v] Hin. apply list_elem_of_In in Hin.
        destruct (Hrow _ _ Hin) as [(r & _ & <-) _]. reflexivity.
    + intros r Hr.
      unfold pivot_table in Ept. injection Ept as <- <-. split.
      * apply sorted_unique_elem, in_map. exact Hr.
      * eexists. apply in_map_iff. eexists (key_of r, _). split; [reflexivity|].
        apply list_elem_of_In. rewrite Hp. apply list_elem_of_In.
        apply in_map_iff. exists (key_of r). split; [reflexivity|].
        apply sorted_unique_elem, in_map. exact Hr.
Qed.

(** C6 as stated fails in two ways. A user who has skill records and is
    called Skill makes [reset_index] raise, so no matrix is built; and the
    cell of a user with two records of 2^62 problems solved holds -2^63, not
    their sum 2^63, since pandas adds the int64 column in 64 bits. *)
Lemma heatmap_not_as_claimed :
  (forall sv : sorter, heatmap sv clash_frames = Raise)
  /\ heatmap insertion_sort overflow_frames
     = Ok (Some {| columns := ["alice"];
                   cells := [("Arrays", "Advanced", [- 2 ^ 63])] |})
  /\ solved_sum (List.filter (matching "Arrays" "Advanced" "alice") (all_skills overflow_frames))
     = 2 ^ 63.
Proof.
  split; [intros sv; reflexivity|]. split; vm_compute; reflexivity.
Qed.

(** ** The tracked-user store *)

Lemma eq_str_true (v : value) (s : string) : eq_str v s = true <-> v = VStr s.
Proof.
  destruct v; simpl; try (split; [discriminate|intros [=]]).
  rewrite String.eqb_eq. split; [now intros ->|now intros [= ->]].
Qed.

Lemma tracked_In (u : string) (df : list TrackedUser) :
  tracked u df = true <-> In (VStr u) (map username df).
Proof.
  unfold tracked. rewrite existsb_exists, in_map_iff. split.
  - intros (r & Hr & E). apply eq_str_true in E. now exists r.
  - intros (r & E & Hr). exists r. split; [exact Hr|]. now apply eq_str_true.
Qed.

Lemma lstrip_no_leading_space (s : string) : no_leading_space (lstrip s).
Proof.
  induction s as [|c s IH]; simpl; [exact I|].
  destruct (is_space c) eqn:E; [exact IH|exact E].
Qed.

Lemma lstrip_fixed (s : string) : no_leading_space s -> lstrip s = s.
Proof. destruct s as [|c s]; simpl; [reflexivity|]. now intros ->. Qed.

Lemma rstrip_no_leading_space (s : string) : no_leading_space s -> no_leading_space (rstrip s).
Proof.
  destruct s as [|c s]; simpl; [exact id|]. intros E.
  destruct (rstrip s); [rewrite E|]; exact E.
Qed.

Lemma rstrip_fixed (s : string) : rstrip (rstrip s) = rstrip s.
Proof.
  induction s as [|c s IH]; simpl; [reflexivity|].
  destruct (rstrip s) as [|c' r] eqn:E.
  - destruct (is_space c) eqn:Ec; simpl; [reflexivity|]. now rewrite Ec.
  - change (rstrip (String c (String c' r))) with
      (match rstrip (String c' r) with
       | EmptyString => if is_space c then EmptyString else String c EmptyString
       | r' => String c r'
       end).
    now rewrite IH.
Qed.

Lemma strip_fixed (s : string) : strip (strip s) = strip s.
Proof.
  unfold strip. rewrite lstrip_fixed.
  - apply rstrip_fixed.
  - apply rstrip_no_leading_space, lstrip_no_leading_space.
Qed.

(** a reader that gives back the frames of some usernames gives back the
    frames of fewer *)
Lemma reads_rows (read_csv : csv_reader) (names : list value) (df : list TrackedUser) :
  reads_as_written read_csv names ->
  (forall v, In v (map username df) -> In v names) ->
  read_csv df = df.
Proof.
  intros Hr Hsub. apply Hr. apply Forall_forall. intros r Hin.
  apply Hsub, in_map. now apply list_elem_of_In.
Qed.

Lemma reads_fewer (read_csv : csv_reader) (names names' : list value) :
  reads_as_written read_csv names ->
  (forall v, In v names' -> In v names) ->
  reads_as_written read_csv names'.
Proof.
  intros Hr Hsub df Hdf. apply Hr. eapply Forall_impl; [exact Hdf|].
  intros r. apply Hsub.
Qed.

Lemma as_written_reads (names : list value) : reads_as_written as_written names.
Proof. intros df _. reflexivity. Qed.

Lemma add_user_present (read_csv : csv_reader) (now : Z) (u : string) (df : list TrackedUser) :
  read_csv df = df ->
  In (VStr (strip u)) (map username df) ->
  add_user read_csv now u (Some df) = (false, Some df).
Proof.
  intros Hr H. apply tracked_In in H. unfold add_user, load_users. simpl. rewrite Hr, H.
  now rewrite andb_false_r.
Qed.

Lemma add_user_again (read_csv : csv_reader) (now now' : Z) (u : string) (f : csv_file) :
  reads_as_written read_csv (VStr (strip u) :: map username (default [] f)) ->
  add_user read_csv now' u (snd (add_user read_csv now u f))
  = (false, snd (add_user read_csv now u f)).
Proof.
  intros Hr.
  assert (Hd : default [] (init_csv f) = default [] f) by now destruct f.
  assert (Hrows : read_csv (default [] f) = default [] f).
  { apply (reads_rows _ _ _ Hr). intros v Hv. now right. }
  unfold add_user at 2 3. unfold load_users. rewrite Hd, Hrows.
  destruct (nonempty (strip u) && negb (tracked (strip u) (default [] f))) eqn:E; simpl.
  - apply add_user_present.
    + apply (reads_rows _ _ _ Hr). intros v Hv. rewrite map_app in Hv.
      apply in_app_iff in Hv as [Hv|[<-|[]]]; [now right|now left].
    + rewrite map_app, in_app_iff. right. now left.
  - unfold add_user, load_users.
    assert (Hi : init_csv (init_csv f) = init_csv f) by now destruct f.
    rewrite Hi, Hd, Hrows, E. reflexivity.
Qed.

Lemma add_all_present (read_csv : csv_reader) (now : Z) (df : list TrackedUser)
      (names added : list string) :
  read_csv df = df ->
  Forall (fun n => In (VStr (strip n)) (map username df)) names ->
  foldl (fun '(f0, added) u =>
           let '(ok, f1) := add_user read_csv now u f0 in
           (f1, if ok then (added ++ [u])%list else added))
        (Some df, added) names = (Some df, added).
Proof.
  intros Hr. induction 1 as [|n names Hn _ IH]; simpl; [reflexivity|].
  now rewrite (add_user_present read_csv now n df Hr Hn).
Qed.

(** C7, as far as the code goes, for usernames typed in ASCII and a store
    that [read_csv] gives back as it was written: [add_user] for a username
    whose stripped form is in the store changes nothing and returns [False];
    so does a second [add_user] of the same username; and the button reports
    "All usernames already exist." when every username typed is in the
    store. *)
Theorem add_user_idempotent (read_csv : csv_reader) (now : Z) (u : string)
        (df : list TrackedUser) :
  ascii_text u ->
  reads_as_written read_csv (map username df) ->
  In (VStr (strip u)) (map username df) ->
  add_user read_csv now u (Some df) = (false, Some df)
  /\ (forall now' f,
         reads_as_written read_csv (VStr (strip u) :: map username (default [] f)) ->
         add_user read_csv now' u (snd (add_user read_csv now u f))
         = (false, snd (add_user read_csv now u f)))
  /\ (forall bulk_input,
         ascii_text bulk_input ->
         nonempty (strip bulk_input) = true ->
         (forall x, In x (split_comma bulk_input) ->
                    strip x = "" \/ In (VStr (strip x)) (map username df)) ->
         add_users_clicked read_csv now bulk_input (Some df)
         = (Some df, StWarning "All usernames already exist.")).
Proof.
  intros _ Hr Hu.
  assert (Hrows : read_csv df = df) by (apply (reads_rows _ _ _ Hr); auto).
  split; [now apply add_user_present|]. split; [intros; now apply add_user_again|].
  intros bulk_input _ Hne Hall. unfold add_users_clicked. rewrite Hne.
  rewrite add_all_present; [reflexivity|exact Hrows|].
  apply Forall_forall. intros n Hn. apply list_elem_of_In, filter_In in Hn as [Hn Hnn].
  apply in_map_iff in Hn as (x & <- & Hx). rewrite strip_fixed.
  destruct (Hall x Hx) as [E|H]; [|exact H].
  rewrite E in Hnn. discriminate.
Qed.

(** C7 as stated fails. A username that pandas reads back as a number is
    added a second time, and [add_user] returns [True] both times: the
    integer 123 of the frame is not the text "123". For a store that
    [read_csv] gives back as written: a username that is in the store with
    white space around it (the list can be edited on the page) is added
    again in stripped form; and when the usernames typed include a new one,
    the page reports the added ones only and says nothing of the one that
    exists. *)
Lemma add_user_not_always_reported :
  (add_user read_123 7 "123" None
   = (true, Some [{| username := VStr "123"; added_at := Some 7 |}])
   /\ add_user read_123 8 "123" (Some [{| username := VStr "123"; added_at := Some 7 |}])
      = (true, Some [{| username := VInt 123; added_at := Some 7 |};
                     {| username := VStr "123"; added_at := Some 8 |}]))
  /\ add_user as_written 7 " bob" (Some [{| username := VStr " bob"; added_at := None |}])
     = (true, Some [{| username := VStr " bob"; added_at := None |};
                    {| username := VStr "bob"; added_at := Some 7 |}])
  /\ add_users_clicked as_written 7 "alice, bob"
       (Some [{| username := VStr "alice"; added_at := None |}])
     = (Some [{| username := VStr "alice"; added_at := None |};
              {| username := VStr "bob"; added_at := Some 7 |}],
        StSuccess "Added: bob").
Proof. repeat split; reflexivity. Qed.

Lemma add_user_idempotent_witness :
  add_user as_written 7 " alice " (Some [{| username := VStr "alice"; added_at := None |}])
  = (false, Some [{| username := VStr "alice"; added_at := None |}])
  /\ add_users_clicked as_written 7 "alice, alice ,"
       (Some [{| username := VStr "alice"; added_at := None |}])
     = (Some [{| username := VStr "alice"; added_at := None |}],
        StWarning "All usernames already exist.").
Proof.
  assert (H : In (VStr (strip " alice "))
                 (map username [{| username := VStr "alice"; added_at := None |}]))
    by (left; reflexivity).
  destruct (add_user_idempotent as_written 7 " alice " _ eq_refl (as_written_reads _) H)
    as (H1 & _ & H3).
  split; [exact H1|]. apply H3; [reflexivity|reflexivity|].
  intros x [<-|[<-|[<-|[]]]]; vm_compute; auto.
Defined.

(** ** The fetch loop *)

Section Run.
Variable profile_api : string -> response value.
Variable skill_api : string -> response skill_doc.
Variable sv : sorter.


Lemma get_profile_failed (u : string) :
  failed (profile_api (profile_url u)) = true ->
  get_profile profile_api u = Ok (VNone, [StError ("Profile error (" +:+ u +:+ ")")]).
Proof.
  unfold get_profile, get_profile_try.
  now destruct (profile_api (profile_url u)).
Qed.

Lemma get_profile_json (u : string) (prof : value) :
  profile_api (profile_url u) = Json prof -> get_profile profile_api u = Ok (prof, []).
Proof.
  unfold get_profile, get_profile_try.
  now intros ->.
Qed.

Lemma get_profile_returns (u : string) : exists prof msgs, get_profile profile_api u = Ok (prof, msgs).
Proof.
  unfold get_profile. destruct (get_profile_try profile_api u); eauto.
Qed.

Lemma get_skill_table_failed (u : string) :
  failed (skill_api (skill_url u)) = true ->
  get_skill_table skill_api sv u = Ok ([], [StError ("Skill error (" +:+ u +:+ ")")]).
Proof.
  unfold get_skill_table, get_skill_table_try.
  now destruct (skill_api (skill_url u)).
Qed.

Lemma get_skill_table_returns (u : string) : exists df msgs, get_skill_table skill_api sv u = Ok (df, msgs).
Proof.
  unfold get_skill_table. destruct (get_skill_table_try skill_api sv u); eauto.
Qed.

Lemma make_row_dict (user : string) (d : list (string * value)) (prev : gmap string value) :
  make_row user (VDict d) prev =
    match rank_change (default VNone (prev !! user)) (default VNone (assoc "ranking" d)) with
    | Ok delta =>
        match compute_accuracy (VDict d) with
        | Ok acc =>
            Ok {| row_Username := user;
                  Total_Solved := default (VInt 0) (assoc "totalSolved" d);
                  Easy := default (VInt 0) (assoc "easySolved" d);
                  Medium := default (VInt 0) (assoc "mediumSolved" d);
                  Hard := default (VInt 0) (assoc "hardSolved" d);
                  Accuracy := acc;
                  Rank := default (VStr "N/A") (assoc "ranking" d);
                  Rank_Delta := delta |}
        | Raise => Raise
        end
    | Raise => Raise
    end.
Proof.
  unfold make_row. simpl.
  destruct (compute_accuracy_returns (VDict d)) as [acc ->]. simpl.
  destruct (assoc "totalSolved" d), (assoc "easySolved" d), (assoc "mediumSolved" d),
    (assoc "hardSolved" d), (assoc "ranking" d); simpl;
    now destruct (rank_change _ _).
Qed.

Lemma make_row_ok (user : string) (prof : value) (prev : gmap string value) (row : Row) :
  make_row user prof prev = Ok row ->
  exists d, prof = VDict d
            /\ row_Username row = user
            /\ rank_change (default VNone (prev !! user)) (default VNone (assoc "ranking" d))
               = Ok (Rank_Delta row).
Proof.
  destruct prof as [| | | | |d]; try discriminate.
  rewrite make_row_dict. intros H. exists d. split; [reflexivity|].
  destruct (rank_change _ _) as [delta|]; [|discriminate].
  destruct (compute_accuracy _); [|discriminate].
  now injection H as <-.
Qed.

(** what one turn of the loop does when it does not raise *)
Lemma fetch_user_completed (user : string) (s s' : run) :
  fetch_user profile_api skill_api sv user s = Completed s' ->
  exists prof msgs,
    get_profile profile_api user = Ok (prof, msgs)
    /\ ((truthy prof = false
         /\ rows s' = rows s /\ skill_dfs s' = skill_dfs s
         /\ messages s' = (messages s ++ msgs)%list
         /\ prev_ranks s' = <[user := VStr "N/A"]> (prev_ranks s))
        \/ (exists row df msgs' r,
               truthy prof = true
               /\ make_row user prof (prev_ranks s) = Ok row
               /\ get_skill_table skill_api sv user = Ok (df, msgs')
               /\ get prof "ranking" VNone = Ok r
               /\ rows s' = (rows s ++ [row])%list
               /\ skill_dfs s' = (skill_dfs s ++ [df])%list
               /\ messages s' = ((messages s ++ msgs) ++ msgs')%list
               /\ prev_ranks s' = <[user := r]> (prev_ranks s))).
Proof.
  unfold fetch_user.
  destruct (get_profile profile_api user) as [[prof msgs]|]; [|discriminate].
  intros H. exists prof, msgs. split; [reflexivity|].
  destruct (truthy prof).
  - right. simpl in H.
    destruct (make_row user prof (prev_ranks s)) as [row|]; [|discriminate].
    destruct (get_skill_table skill_api sv user) as [[df msgs']|]; [|discriminate].
    destruct (get prof "ranking" VNone) as [r|]; [|discriminate].
    injection H as <-. exists row, df, msgs', r. simpl. repeat split.
  - left. injection H as <-. simpl. repeat split.
Qed.

(** a turn that raises has changed neither the rows nor the ranks *)
Lemma fetch_user_aborted (user : string) (s s' : run) :
  fetch_user profile_api skill_api sv user s = Aborted s' ->
  rows s' = rows s /\ prev_ranks s' = prev_ranks s.
Proof.
  unfold fetch_user.
  destruct (get_profile_returns user) as (prof & msgs & ->).
  destruct (truthy prof); [|discriminate]. simpl.
  destruct (make_row user prof (prev_ranks s)) as [row|] eqn:E;
    [|intros [= <-]; split; reflexivity].
  destruct (get_skill_table_returns user) as (df & msgs' & ->).
  apply make_row_ok in E as (d & -> & _). discriminate.
Qed.

Lemma fetch_user_profile_failed (user : string) (s : run) :
  failed (profile_api (profile_url user)) = true ->
  fetch_user profile_api skill_api sv user s =
    Completed (remember user (VStr "N/A")
                 (log [StError ("Profile error (" +:+ user +:+ ")")] s)).
Proof.
  intros H. unfold fetch_user. now rewrite (get_profile_failed _ H).
Qed.




(** the loop leaves the rank of a user it does not visit *)
Lemma fetch_loop_other_rank (u : string) (us : list string) (s : run) :
  ~ In u us ->
  prev_ranks (state_of (fetch_loop profile_api skill_api sv us s)) !! u = prev_ranks s !! u.
Proof.
  revert s. induction us as [|v us IH]; intros s Hu; simpl; [reflexivity|].
  destruct (fetch_user profile_api skill_api sv v s) as [s1|s1] eqn:E.
  - rewrite IH by (intros H; apply Hu; now right).
    apply fetch_user_completed in E
        as (prof & msgs & _ & [(_ & _ & _ & _ & ->)|(? & ? & ? & ? & _ & _ & _ & _ & _ & _ & _ & ->)]);
      apply lookup_insert_ne; intros ->; apply Hu; now left.
  - simpl. apply fetch_user_aborted in E as [_ ->]. reflexivity.
Qed.

Lemma fetch_loop_failed_rank (u : string) (us : list string) (s s' : run) :
  fetch_loop profile_api skill_api sv us s = Completed s' ->
  In u us ->
  failed (profile_api (profile_url u)) = true ->
  prev_ranks s' !! u = Some (VStr "N/A").
Proof.
  revert s. induction us as [|v us IH]; intros s Hl Hu Hf; [destruct Hu|].
  simpl in Hl.
  destruct (fetch_user profile_api skill_api sv v s) as [s1|s1] eqn:E; [|discriminate].
  destruct (in_dec string_dec u us) as [Hin|Hout]; [now apply (IH s1)|].
  destruct Hu as [->|Hin]; [|contradiction].
  pose proof (fetch_loop_other_rank u us s1 Hout) as Ho. rewrite Hl in Ho. simpl in Ho.
  rewrite Ho. rewrite (fetch_user_profile_failed u s Hf) in E. injection E as <-.
  simpl. apply lookup_insert_eq.
Qed.

(** while the rank of [u] is unknown, no row of [u] reports a change *)
Lemma fetch_loop_delta (u : string) (us : list string) (s : run) :
  NoDup us ->
  (In u us -> prev_ranks s !! u = Some (VStr "N/A")) ->
  (forall row, In row (rows s) -> row_Username row = u -> Rank_Delta row = "") ->
  forall row, In row (rows (state_of (fetch_loop profile_api skill_api sv us s))) ->
              row_Username row = u -> Rank_Delta row = "".
Proof.
  revert s. induction us as [|v us IH]; intros s Hnd Hprev Hrows; simpl; [exact Hrows|].
  apply NoDup_cons in Hnd as [Hv Hnd].
  destruct (fetch_user profile_api skill_api sv v s) as [s1|s1] eqn:E.
  - apply fetch_user_completed in E
        as (prof & msgs & _ & [(_ & Hr & _ & _ & Hp)
                              |(row & df & msgs' & r & _ & Hrow & _ & _ & Hr & _ & _ & Hp)]).
    + apply IH; [exact Hnd| |now rewrite Hr].
      intros Hin. rewrite Hp, lookup_insert_ne; [apply Hprev; now right|].
      intros ->. apply Hv. now apply list_elem_of_In.
    + apply IH; [exact Hnd| |].
      * intros Hin. rewrite Hp, lookup_insert_ne; [apply Hprev; now right|].
        intros ->. apply Hv. now apply list_elem_of_In.
      * intros row' Hin Hu. rewrite Hr in Hin. apply in_app_iff in Hin as [Hin|[<-|[]]];
          [now apply Hrows|].
        apply make_row_ok in Hrow as (d & _ & Hn & Hd). rewrite Hu in Hn. subst v.
        rewrite Hprev in Hd by now left. simpl in Hd. now injection Hd as <-.
  - simpl. apply fetch_user_aborted in E as [-> _]. exact Hrows.
Qed.

Lemma fetch_loop_keeps_rows (us : list string) (s s' : run) (row : Row) :
  fetch_loop profile_api skill_api sv us s = Completed s' ->
  In row (rows s) -> In row (rows s').
Proof.
  revert s. induction us as [|v us IH]; intros s Hl Hin; simpl in Hl; [now injection Hl as <-|].
  destruct (fetch_user profile_api skill_api sv v s) as [s1|s1] eqn:E; [|discriminate].
  apply (IH s1 Hl).
  apply fetch_user_completed in E
      as (prof & msgs & _ & [(_ & -> & _)|(? & ? & ? & ? & _ & _ & _ & _ & -> & _)]);
    [exact Hin|]. apply in_app_iff. now left.
Qed.

Lemma fetch_loop_app (pre post : list string) (s : run) :
  fetch_loop profile_api skill_api sv (pre ++ post) s
  = match fetch_loop profile_api skill_api sv pre s with
    | Completed s' => fetch_loop profile_api skill_api sv post s'
    | Aborted s' => Aborted s'
    end.
Proof.
  revert s. induction pre as [|v pre IH]; intros s; simpl; [reflexivity|].
  destruct (fetch_user profile_api skill_api sv v s); [apply IH|reflexivity].
Qed.

(** within a run, the rank of a user whose fetch fails stays "N/A" *)
Lemma fetch_loop_rank_stays (u : string) (us : list string) (s : run) :
  failed (profile_api (profile_url u)) = true ->
  prev_ranks s !! u = Some (VStr "N/A") ->
  prev_ranks (state_of (fetch_loop profile_api skill_api sv us s)) !! u = Some (VStr "N/A").
Proof.
  intros Hf. revert s. induction us as [|v us IH]; intros s Hs; simpl; [exact Hs|].
  destruct (string_dec v u) as [->|Hne].
  - rewrite (fetch_user_profile_failed u s Hf). apply IH. simpl. apply lookup_insert_eq.
  - destruct (fetch_user profile_api skill_api sv v s) as [s1|s1] eqn:E.
    + apply IH.
      apply fetch_user_completed in E
          as (prof & msgs & _ & [(_ & _ & _ & _ & ->)|(? & ? & ? & ? & _ & _ & _ & _ & _ & _ & _ & ->)]);
        now rewrite lookup_insert_ne.
    + simpl. apply fetch_user_aborted in E as [_ ->]. exact Hs.
Qed.

(** a run that reaches a user whose fetch fails leaves "N/A" for that user,
    also when an exception ends the run at a later user *)
Lemma fetch_loop_rank_reached (u : string) (pre post : list string) (s s1 : run) :
  fetch_loop profile_api skill_api sv pre s = Completed s1 ->
  failed (profile_api (profile_url u)) = true ->
  prev_ranks (state_of (fetch_loop profile_api skill_api sv (pre ++ u :: post) s)) !! u
  = Some (VStr "N/A").
Proof.
  intros Hpre Hf. rewrite fetch_loop_app, Hpre. simpl.
  rewrite (fetch_user_profile_failed u s1 Hf).
  apply fetch_loop_rank_stays; [exact Hf|]. simpl. apply lookup_insert_eq.
Qed.

(** a completed loop has a row for every user whose profile arrived *)
Lemma fetch_loop_row (u : string) (us : list string) (s s' : run) (prof : value) :
  fetch_loop profile_api skill_api sv us s = Completed s' ->
  In u us ->
  profile_api (profile_url u) = Json prof -> truthy prof = true ->
  exists row, In row (rows s') /\ row_Username row = u.
Proof.
  revert s. induction us as [|v us IH]; intros s Hl Hu Hp Ht; [destruct Hu|].
  simpl in Hl.
  destruct (fetch_user profile_api skill_api sv v s) as [s1|s1] eqn:E; [|discriminate].
  destruct Hu as [->|Hin]; [|now apply (IH s1)].
  apply fetch_user_completed in E
      as (prof' & msgs & Hg & [(Hf & _)|(row & ? & ? & ? & _ & Hrow & _ & _ & Hr & _)]).
  - rewrite (get_profile_json _ _ Hp) in Hg. injection Hg as <- _. congruence.
  - exists row. split.
    + apply (fetch_loop_keeps_rows us s1 s' row Hl). rewrite Hr. apply in_app_iff.
      right. now left.
    + now apply make_row_ok in Hrow as (d & _ & Hn & _).
Qed.

End Run.

(** C10: when the loop of a run completes, the previous rank of every user
    whose profile fetch failed is "N/A", whatever it was before; so in the
    next run over a list without repetitions no row of that user reports a
    rank change, and the row that a successful fetch produces has the empty
    rank delta. *)
Theorem failed_fetch_forgets_rank
        (profile_api : string -> response value) (skill_api : string -> response skill_doc)
        (sv : sorter) (usernames : list string) (prev : gmap string value) (s : run)
        (u : string) :
  fetch_data profile_api skill_api sv usernames prev = Completed s ->
  In u usernames ->
  failed (profile_api (profile_url u)) = true ->
  prev_ranks s !! u = Some (VStr "N/A")
  /\ forall (profile_api' : string -> response value)
            (skill_api' : string -> response skill_doc) (sv' : sorter)
            (usernames' : list string),
      NoDup usernames' ->
      (forall row,
          In row (rows (state_of (fetch_data profile_api' skill_api' sv' usernames'
                                             (prev_ranks s)))) ->
          row_Username row = u -> Rank_Delta row = "")
      /\ (forall s' prof,
             fetch_data profile_api' skill_api' sv' usernames' (prev_ranks s) = Completed s' ->
             In u usernames' ->
             profile_api' (profile_url u) = Json prof -> truthy prof = true ->
             exists row, In row (rows s') /\ row_Username row = u /\ Rank_Delta row = "").
Proof.
  intros Hrun Hu Hf.
  assert (Hna : prev_ranks s !! u = Some (VStr "N/A")).
  { eapply fetch_loop_failed_rank; eauto. }
  split; [exact Hna|].
  intros profile_api' skill_api' sv' usernames' Hnd.
  assert (Hd : forall row,
             In row (rows (state_of (fetch_data profile_api' skill_api' sv' usernames'
                                                (prev_ranks s)))) ->
             row_Username row = u -> Rank_Delta row = "").
  { apply fetch_loop_delta; [exact Hnd|intros _; exact Hna|intros row []]. }
  split; [exact Hd|].
  intros s' prof Hrun' Hu' Hp Ht.
  destruct (fetch_loop_row _ _ _ u usernames' _ s' prof Hrun' Hu' Hp Ht) as (row & Hin & Hn).
  exists row. split; [exact Hin|]. split; [exact Hn|].
  apply Hd; [|exact Hn]. now rewrite Hrun'.
Qed.

(** ** The statements at the sample data *)


Lemma skill_table_sorted_witness : StronglySorted skill_order sample_table.
Proof.
  apply (proj1 (proj2 (skill_table_sorted sample_skill_api insertion_sort "alice"
                         insertion_sort_sorts)) sample_table []).
  reflexivity.
Defined.

Lemma heatmap_cells_witness :
  heatmap insertion_sort [[]; []] = Ok None
  /\ exists h, heatmap insertion_sort sample_frames = Ok (Some h)
               /\ StronglySorted levels_ascending (cells h).
Proof.
  split.
  - apply (proj1 (proj2 (heatmap_cells insertion_sort [[]; []] insertion_sort_sorts
                          (List.Forall_nil _)))).
    reflexivity.
  - assert (Hcol : int64_column (all_skills sample_frames)).
    { repeat constructor; vm_compute; discriminate. }
    destruct (heatmap_cells insertion_sort sample_frames insertion_sort_sorts Hcol)
      as (_ & _ & Hex & Hall).
    destruct (proj1 (Hex ltac:(discriminate))) as (h & Hh).
    + intros r Hr Hn.
      assert (Hu : Username r = "alice" \/ Username r = "bob").
      { vm_compute in Hr.
        destruct Hr as [<-|[<-|[<-|[<-|[<-|[]]]]]]; vm_compute; auto. }
      destruct Hu as [Hu|Hu]; rewrite Hu in Hn; vm_compute in Hn;
        destruct Hn as [Hn|[Hn|[Hn|[]]]]; discriminate Hn.
    + exists h. split; [exact Hh|]. exact (proj1 (proj2 (Hall h Hh))).
Defined.


Lemma failed_fetch_forgets_rank_witness :
  prev_ranks (state_of (fetch_data sample_profile_api sample_skill_api insertion_sort
                          ["alice"; "bob"] sample_ranks)) !! "bob"
  = Some (VStr "N/A").
Proof.
  apply (failed_fetch_forgets_rank sample_profile_api sample_skill_api insertion_sort
           ["alice"; "bob"] sample_ranks
           (state_of (fetch_data sample_profile_api sample_skill_api insertion_sort
                        ["alice"; "bob"] sample_ranks)) "bob").
  - reflexivity.
  - right. left. reflexivity.
  - reflexivity.
Defined.

Example sample_run :
  map (fun r => (row_Username r, Rank_Delta r))
      (rows (state_of (fetch_data sample_profile_api sample_skill_api insertion_sort
                         ["alice"; "bob"; "carol"] sample_ranks)))
  = [("alice", "Up 140"); ("carol", "")].
Proof. reflexivity. Qed.

Example sample_heatmap :
  heatmap insertion_sort sample_frames
  = Ok (Some {| columns := ["alice"; "bob"];
            cells := [("Arrays", "Advanced", [3; 7]); ("Trie", "Advanced", [4; 0]);
                      ("Graphs", "Fundamental", [0; 0])] |}).
Proof. reflexivity. Qed.

(** the input of C1 in a run: dave was seen at rank 500 and his profile now
    comes without a ranking; the exception ends the run before alice *)
Example run_aborts_without_ranking :
  exists s, fetch_data sample_profile_api sample_skill_api insertion_sort
              ["dave"; "alice"] (<["dave" := VInt 500]> ∅) = Aborted s
            /\ rows s = [].
Proof. eexists. split; reflexivity. Qed.


(** * Further properties *)

(** ** The tracked-user store: adding and removing *)

Lemma usernames_of_init (f : csv_file) : usernames_of (init_csv f) = usernames_of f.
Proof. now destruct f. Qed.

Lemma tracked_false (u : string) (df : list TrackedUser) :
  tracked u df = false <-> ~ In (VStr u) (map username df).
Proof.
  rewrite <- tracked_In. destruct (tracked u df); split; intros H; congruence.
Qed.

(** what [add_user] returns and writes, case by case *)
Lemma add_user_cases (read_csv : csv_reader) (now : Z) (u : string) (f : csv_file) :
  read_csv (default [] f) = default [] f ->
  (nonempty (strip u) = true /\ ~ In (VStr (strip u)) (usernames_of f)
   /\ add_user read_csv now u f
      = (true, Some (default [] f ++ [{| username := VStr (strip u);
                                         added_at := Some now |}])%list))
  \/ ((nonempty (strip u) = false \/ In (VStr (strip u)) (usernames_of f))
      /\ add_user read_csv now u f = (false, init_csv f)).
Proof.
  intros Hr. unfold add_user, load_users, save_users, usernames_of.
  assert (Hd : default [] (init_csv f) = default [] f) by now destruct f.
  rewrite Hd, Hr.
  destruct (nonempty (strip u)) eqn:Hn; simpl.
  - destruct (tracked (strip u) (default [] f)) eqn:Ht; simpl.
    + right. split; [right; now apply tracked_In|reflexivity].
    + left. split; [reflexivity|]. split; [now apply tracked_false|reflexivity].
  - right. split; [now left|reflexivity].
Qed.

Lemma NoDup_snoc {A} (l : list A) (x : A) : NoDup l -> ~ In x l -> NoDup (l ++ [x]).
Proof.
  intros Hnd Hx. apply NoDup_app. split; [exact Hnd|].
  split; [|repeat constructor; intros H; inversion H].
  intros y Hy Hy'. apply list_elem_of_In in Hy. apply list_elem_of_In in Hy'.
  destruct Hy' as [<-|[]]. contradiction.
Qed.

(** X1: for a username typed in ASCII and a store that [read_csv] gives back
    as it was written, [add_user] keeps the usernames of the store distinct;
    afterwards the stripped name is in the store unless it is empty; the rows
    that were there stay, in their order, followed by at most one new row,
    and the result is [True] exactly when a row was added. *)
Theorem add_user_keeps_usernames_unique (read_csv : csv_reader) (now : Z) (u : string)
        (f : csv_file) :
  ascii_text u ->
  reads_as_written read_csv (usernames_of f) ->
  NoDup (usernames_of f) ->
  NoDup (usernames_of (snd (add_user read_csv now u f)))
  /\ (nonempty (strip u) = true ->
      In (VStr (strip u)) (usernames_of (snd (add_user read_csv now u f))))
  /\ exists new, default [] (snd (add_user read_csv now u f)) = (default [] f ++ new)%list
                 /\ (length new <= 1)%nat
                 /\ (fst (add_user read_csv now u f) = true <-> new <> []).
Proof.
  intros _ Hr Hnd.
  assert (Hrows : read_csv (default [] f) = default [] f)
    by (apply (reads_rows _ _ _ Hr); auto).
  destruct (add_user_cases read_csv now u f Hrows) as [(Hn & Hout & ->)|([Hn|Hin] & ->)]; simpl.
  - unfold usernames_of in *. simpl. rewrite map_app. simpl. split; [|split].
    + now apply NoDup_snoc.
    + intros _. apply in_app_iff. right. now left.
    + eexists. split; [reflexivity|]. split; [simpl; lia|]. split; [discriminate|reflexivity].
  - rewrite usernames_of_init. split; [exact Hnd|]. split; [congruence|].
    exists []. rewrite app_nil_r. split; [now destruct f|]. split; [simpl; lia|].
    split; [discriminate|congruence].
  - rewrite usernames_of_init. split; [exact Hnd|]. split; [intros _; exact Hin|].
    exists []. rewrite app_nil_r. split; [now destruct f|]. split; [simpl; lia|].
    split; [discriminate|congruence].
Qed.

Lemma add_user_keeps_usernames_unique_witness :
  NoDup (usernames_of (snd (add_user as_written 7 " bob "
                              (Some [{| username := VStr "alice"; added_at := None |}]))))
  /\ In (VStr "bob")
        (usernames_of (snd (add_user as_written 7 " bob "
                              (Some [{| username := VStr "alice"; added_at := None |}])))).
Proof.
  assert (H : NoDup (usernames_of (Some [{| username := VStr "alice"; added_at := None |}]))).
  { repeat constructor. intros H. inversion H. }
  destruct (add_user_keeps_usernames_unique as_written 7 " bob " _ eq_refl
              (as_written_reads _) H) as (H1 & H2 & _).
  split; [exact H1|]. apply H2. reflexivity.
Defined.

Lemma remove_user_rows (read_csv : csv_reader) (u : string) (f : csv_file) :
  read_csv (default [] f) = default [] f ->
  default [] (remove_user read_csv u f)
  = List.filter (fun r => negb (eq_str (username r) u)) (default [] f).
Proof.
  intros Hr. unfold remove_user, load_users, save_users.
  assert (Hd : default [] (init_csv f) = default [] f) by now destruct f.
  now rewrite Hd, Hr.
Qed.

Lemma filter_all {A} (p : A -> bool) (l : list A) :
  (forall x, In x l -> p x = true) -> List.filter p l = l.
Proof.
  induction l as [|x l IH]; simpl; intros H; [reflexivity|].
  rewrite (H x) by now left. f_equal. apply IH. intros y Hy. apply H. now right.
Qed.

Lemma NoDup_map_filter {A B} (g : A -> B) (p : A -> bool) (l : list A) :
  NoDup (map g l) -> NoDup (map g (List.filter p l)).
Proof.
  induction l as [|x l IH]; simpl; intros H; [constructor|].
  apply NoDup_cons in H as [Hx Hl].
  destruct (p x); simpl; [|now apply IH].
  apply NoDup_cons. split; [|now apply IH].
  intros Hin. apply Hx. apply list_elem_of_In in Hin. apply list_elem_of_In.
  apply in_map_iff in Hin as (y & <- & Hy). apply filter_In in Hy as [Hy _].
  now apply in_map.
Qed.

Lemma not_eq_str (v : value) (u : string) : negb (eq_str v u) = true <-> v <> VStr u.
Proof.
  rewrite negb_true_iff, <- not_true_iff_false, eq_str_true. reflexivity.
Qed.

(** X2: for a store that [read_csv] gives back as it was written,
    [remove_user] removes every row of that username and no other row: the
    rows left are those of the other usernames, in their order; distinct
    usernames stay distinct; and removing a username that is not in the store
    leaves the rows as they are. The name is compared as given, not
    stripped. *)
Theorem remove_user_removes_only (read_csv : csv_reader) (u : string) (f : csv_file) :
  reads_as_written read_csv (usernames_of f) ->
  ~ In (VStr u) (usernames_of (remove_user read_csv u f))
  /\ (forall r, In r (default [] (remove_user read_csv u f))
                <-> In r (default [] f) /\ username r <> VStr u)
  /\ (NoDup (usernames_of f) -> NoDup (usernames_of (remove_user read_csv u f)))
  /\ (~ In (VStr u) (usernames_of f) ->
      default [] (remove_user read_csv u f) = default [] f).
Proof.
  intros Hr.
  assert (Hrows : read_csv (default [] f) = default [] f)
    by (apply (reads_rows _ _ _ Hr); auto).
  unfold usernames_of. rewrite (remove_user_rows _ _ _ Hrows).
  assert (Hiff : forall r, In r (List.filter (fun r => negb (eq_str (username r) u))
                                             (default [] f))
                           <-> In r (default [] f) /\ username r <> VStr u).
  { intros r. rewrite filter_In, not_eq_str. reflexivity. }
  split; [|split; [|split]].
  - intros H. apply in_map_iff in H as (r & Hr' & Hin). apply Hiff in Hin as [_ Hne].
    contradiction.
  - exact Hiff.
  - apply NoDup_map_filter.
  - intros Hout. apply filter_all. intros r Hr'. apply not_eq_str.
    intros E. apply Hout. apply in_map_iff. now exists r.
Qed.

Lemma remove_user_removes_only_witness :
  default [] (remove_user as_written "bob"
                (Some [{| username := VStr "alice"; added_at := None |}]))
  = [{| username := VStr "alice"; added_at := None |}].
Proof.
  apply (proj2 (proj2 (proj2 (remove_user_removes_only as_written "bob"
                                (Some [{| username := VStr "alice"; added_at := None |}])
                                (as_written_reads _))))).
  intros [H|[]]. discriminate H.
Defined.

(** X3: for a username typed in ASCII and a store that [read_csv] gives back
    as it was written, before and after the new row, adding a new username
    and then removing its stripped form gives back the rows the store
    had. *)
Theorem add_then_remove (read_csv : csv_reader) (now : Z) (u : string) (f : csv_file) :
  ascii_text u ->
  reads_as_written read_csv (VStr (strip u) :: usernames_of f) ->
  nonempty (strip u) = true ->
  ~ In (VStr (strip u)) (usernames_of f) ->
  fst (add_user read_csv now u f) = true
  /\ default [] (remove_user read_csv (strip u) (snd (add_user read_csv now u f)))
     = default [] f.
Proof.
  intros _ Hr Hn Hout.
  assert (Hrows : read_csv (default [] f) = default [] f).
  { apply (reads_rows _ _ _ Hr). intros v Hv. now right. }
  destruct (add_user_cases read_csv now u f Hrows) as [(_ & _ & ->)|([Hn'|Hin] & _)];
    [|congruence|contradiction].
  cbn [fst snd]. split; [reflexivity|]. rewrite remove_user_rows.
  - unfold default at 1. cbn [from_option]. unfold id.
    rewrite List.filter_app. simpl. rewrite String.eqb_refl. simpl. rewrite app_nil_r.
    apply filter_all. intros r Hr'. apply not_eq_str.
    intros E. apply Hout. unfold usernames_of. apply in_map_iff. now exists r.
  - apply (reads_rows _ _ _ Hr). simpl. intros v Hv. rewrite map_app in Hv.
    apply in_app_iff in Hv as [Hv|[<-|[]]]; [now right|now left].
Qed.

Lemma add_then_remove_witness :
  default [] (remove_user as_written "bob"
                (snd (add_user as_written 7 " bob"
                        (Some [{| username := VStr "alice"; added_at := None |}]))))
  = [{| username := VStr "alice"; added_at := None |}].
Proof.
  apply (add_then_remove as_written 7 " bob"
           (Some [{| username := VStr "alice"; added_at := None |}])).
  - reflexivity.
  - apply as_written_reads.
  - reflexivity.
  - intros [H|[]]. discriminate H.
Defined.

(** the loop of the handler over the names typed *)
Lemma add_fold (read_csv : csv_reader) (now : Z) (names : list string) :
  Forall (fun n => strip n = n) names ->
  forall (f : csv_file) (added : list string),
  reads_as_written read_csv (usernames_of f ++ map VStr names) ->
  exists f' new,
    foldl (fun '(f0, added) u =>
             let '(ok, f1) := add_user read_csv now u f0 in
             (f1, if ok then (added ++ [u])%list else added))
          (f, added) names
    = (f', (added ++ new)%list)
    /\ default [] f'
       = (default [] f ++ map (fun n => {| username := VStr n; added_at := Some now |}) new)%list
    /\ (forall n, In n names -> nonempty n = true -> In (VStr n) (usernames_of f'))
    /\ (NoDup (usernames_of f) -> NoDup (usernames_of f')).
Proof.
  induction 1 as [|n names Hn _ IH]; intros f added Hr; simpl.
  - exists f, []. simpl. rewrite !app_nil_r. repeat split; [intros n []|exact id].
  - assert (Hrows : read_csv (default [] f) = default [] f).
    { apply (reads_rows _ _ _ Hr). intros v Hv. apply in_app_iff. now left. }
    destruct (add_user_cases read_csv now n f Hrows) as [(Hne & Hout & E)|(Hor & E)];
      rewrite E; rewrite Hn in *.
    + destruct (IH (Some (default [] f ++ [{| username := VStr n; added_at := Some now |}])%list)
                   (added ++ [n])%list) as (f' & new & Hf & Hrows' & Hin & Hnd).
      { apply (reads_fewer _ _ _ Hr). unfold usernames_of. simpl. intros v Hv.
        rewrite map_app in Hv. simpl in Hv. rewrite !in_app_iff in Hv. simpl in Hv.
        rewrite in_app_iff. simpl. tauto. }
      exists f', (n :: new).
      simpl in Hrows'. split; [|split; [|split]].
      * rewrite Hf. now rewrite <- app_assoc.
      * rewrite Hrows', <- app_assoc. reflexivity.
      * intros m [<-|Hm] Hm'; [|now apply Hin].
        unfold usernames_of. rewrite Hrows', !map_app. simpl.
        apply in_app_iff. left. apply in_app_iff. right. now left.
      * intros Hnd0. apply Hnd. unfold usernames_of in *. simpl. rewrite map_app. simpl.
        now apply NoDup_snoc.
    + destruct (IH (init_csv f) added) as (f' & new & Hf & Hrows' & Hin & Hnd).
      { apply (reads_fewer _ _ _ Hr). rewrite usernames_of_init. intros v Hv.
        rewrite in_app_iff in *. simpl. tauto. }
      assert (Hd : default [] (init_csv f) = default [] f) by now destruct f.
      exists f', new. rewrite Hd in Hrows'. split; [exact Hf|]. split; [exact Hrows'|]. split.
      * intros m [<-|Hm] Hm'; [|now apply Hin].
        destruct Hor as [Hne|Hin0]; [congruence|].
        unfold usernames_of in *. rewrite Hrows', map_app. apply in_app_iff. now left.
      * rewrite usernames_of_init in Hnd. exact Hnd.
Qed.

(** X4: for an input in ASCII and a store that [read_csv] gives back as it
    was written, also with the usernames typed: after the button "Add
    User(s)", every name typed between the commas is in the store in stripped
    form; the rows that were there stay, in their order, followed by the new
    ones; distinct usernames stay distinct; and the page reports "Added: ..."
    with the names of the new rows when there are new rows and "All
    usernames already exist." when there is none. *)
Theorem add_users_clicked_adds_all (read_csv : csv_reader) (now : Z) (bulk_input : string)
        (f : csv_file) :
  ascii_text bulk_input ->
  reads_as_written read_csv
    (usernames_of f ++ map (fun x => VStr (strip x)) (split_comma bulk_input)) ->
  nonempty (strip bulk_input) = true ->
  exists new,
    default [] (fst (add_users_clicked read_csv now bulk_input f))
    = (default [] f ++ map (fun n => {| username := VStr n; added_at := Some now |}) new)%list
    /\ (forall x, In x (split_comma bulk_input) -> nonempty (strip x) = true ->
                  In (VStr (strip x))
                     (usernames_of (fst (add_users_clicked read_csv now bulk_input f))))
    /\ (NoDup (usernames_of f) ->
        NoDup (usernames_of (fst (add_users_clicked read_csv now bulk_input f))))
    /\ snd (add_users_clicked read_csv now bulk_input f)
       = match new with
         | [] => StWarning "All usernames already exist."
         | _ => StSuccess ("Added: " +:+ join ", " new)
         end.
Proof.
  intros _ Hr Hne. unfold add_users_clicked. rewrite Hne.
  set (names := List.filter nonempty (map strip (split_comma bulk_input))).
  assert (Hfix : Forall (fun n => strip n = n) names).
  { apply Forall_forall. intros n Hn. apply list_elem_of_In, filter_In in Hn as [Hn _].
    apply in_map_iff in Hn as (x & <- & _). apply strip_fixed. }
  assert (Hr' : reads_as_written read_csv (usernames_of f ++ map VStr names)).
  { apply (reads_fewer _ _ _ Hr). intros v Hv. rewrite in_app_iff in *.
    destruct Hv as [Hv|Hv]; [now left|right].
    apply in_map_iff in Hv as (n & <- & Hn). apply filter_In in Hn as [Hn _].
    apply in_map_iff in Hn as (x & <- & Hx). apply in_map_iff. now exists x. }
  destruct (add_fold read_csv now names Hfix f [] Hr') as (f' & new & Hf & Hrows & Hin & Hnd).
  rewrite Hf. simpl. exists new.
  assert (Hcase : forall (m1 m2 : message),
             fst (match new with [] => (f', m1) | _ :: _ => (f', m2) end) = f')
    by (intros; now destruct new).
  rewrite !Hcase. split; [exact Hrows|]. split; [|split; [exact Hnd|]].
  - intros x Hx Hsx. apply Hin; [|exact Hsx].
    apply filter_In. split; [|exact Hsx]. now apply in_map.
  - now destruct new.
Qed.

Lemma add_users_clicked_adds_all_witness :
  exists new,
    default [] (fst (add_users_clicked as_written 7 "alice, bob"
                       (Some [{| username := VStr "alice"; added_at := None |}])))
    = ([{| username := VStr "alice"; added_at := None |}]
         ++ map (fun n => {| username := VStr n; added_at := Some 7 |}) new)%list
    /\ snd (add_users_clicked as_written 7 "alice, bob"
              (Some [{| username := VStr "alice"; added_at := None |}]))
       = match new with
         | [] => StWarning "All usernames already exist."
         | _ => StSuccess ("Added: " +:+ join ", " new)
         end.
Proof.
  destruct (add_users_clicked_adds_all as_written 7 "alice, bob"
              (Some [{| username := VStr "alice"; added_at := None |}])
              eq_refl (as_written_reads _) eq_refl)
    as (new & H1 & _ & _ & H4).
  exists new. split; [exact H1|exact H4].
Defined.

(** ** The fetch loop: what a completed run leaves *)

Section Runs.
Variable profile_api : string -> response value.
Variable skill_api : string -> response skill_doc.
Variable sv : sorter.

(** one turn of the loop in terms of the answer of the profile endpoint *)
Lemma fetch_user_turn (v : string) (s s1 : run) :
  fetch_user profile_api skill_api sv v s = Completed s1 ->
  prev_ranks s1 = <[v := current_rank profile_api v]> (prev_ranks s)
  /\ ((has_data profile_api v = false /\ rows s1 = rows s /\ skill_dfs s1 = skill_dfs s)
      \/ (has_data profile_api v = true
          /\ exists row df msgs,
              rows s1 = (rows s ++ [row])%list
              /\ row_Username row = v
              /\ rank_change (default VNone (prev_ranks s !! v)) (current_rank profile_api v)
                 = Ok (Rank_Delta row)
              /\ skill_dfs s1 = (skill_dfs s ++ [df])%list
              /\ get_skill_table skill_api sv v = Ok (df, msgs))).
Proof.
  unfold fetch_user, get_profile, get_profile_try, has_data, current_rank.
  destruct (profile_api (profile_url v)) as [| | |prof]; simpl;
    try (intros [= <-]; split; [reflexivity|left; repeat split]).
  destruct (truthy prof) eqn:Ht; simpl;
    [|intros [= <-]; split; [reflexivity|left; repeat split]].
  destruct (make_row v prof (prev_ranks s)) as [row|] eqn:Hrow; [|discriminate].
  destruct (get_skill_table skill_api sv v) as [[df msgs]|] eqn:Hdf; [|discriminate].
  apply make_row_ok in Hrow as (d & -> & Hn & Hd). simpl.
  intros [= <-]. simpl. split; [reflexivity|]. right. split; [reflexivity|].
  exists row, df, msgs. simpl.
  split; [reflexivity|]. split; [exact Hn|]. split; [|split; reflexivity].
  simpl in Hd. now destruct (assoc "ranking" d).
Qed.

Lemma fetch_loop_turns (us : list string) :
  forall s s', fetch_loop profile_api skill_api sv us s = Completed s' ->
  map row_Username (rows s')
  = (map row_Username (rows s) ++ List.filter (has_data profile_api) us)%list
  /\ (exists dfs, skill_dfs s' = (skill_dfs s ++ dfs)%list
                  /\ Forall2 (fun u df => exists msgs, get_skill_table skill_api sv u = Ok (df, msgs))
                             (List.filter (has_data profile_api) us) dfs)
  /\ (forall u, In u us -> prev_ranks s' !! u = Some (current_rank profile_api u))
  /\ (forall u, ~ In u us -> prev_ranks s' !! u = prev_ranks s !! u).
Proof.
  induction us as [|v us IH]; intros s s' Hl; simpl in Hl.
  - injection Hl as <-. simpl. rewrite app_nil_r. split; [reflexivity|].
    split; [exists []; rewrite app_nil_r; split; [reflexivity|constructor]|].
    split; [intros u []|reflexivity].
  - destruct (fetch_user profile_api skill_api sv v s) as [s1|s1] eqn:E; [|discriminate].
    destruct (IH s1 s' Hl) as (Hrows & (dfs & Hdfs & Hall) & Hin & Hout).
    apply fetch_user_turn in E as [Hp Hcase].
    assert (Hranks : forall u, In u (v :: us) -> prev_ranks s' !! u = Some (current_rank profile_api u)).
    { intros u Hu. destruct (in_dec string_dec u us) as [Hi|Ho]; [now apply Hin|].
      destruct Hu as [<-|Hu]; [|contradiction].
      rewrite (Hout v Ho), Hp. apply lookup_insert_eq. }
    assert (Hrest : forall u, ~ In u (v :: us) -> prev_ranks s' !! u = prev_ranks s !! u).
    { intros u Hu. rewrite Hout by (intros H; apply Hu; now right).
      rewrite Hp. apply lookup_insert_ne. intros ->. apply Hu. now left. }
    destruct Hcase as [(Hd & Hr & Hs)|(Hd & row & df & msgs & Hr & Hn & _ & Hs & Hg)];
      simpl; rewrite Hd.
    + rewrite Hrows, Hr. split; [reflexivity|]. split; [|split; assumption].
      exists dfs. now rewrite Hdfs, Hs.
    + rewrite Hrows, Hr, map_app. simpl. rewrite Hn, <- app_assoc. split; [reflexivity|].
      split; [|split; assumption].
      exists (df :: dfs). rewrite Hdfs, Hs, <- app_assoc. split; [reflexivity|].
      constructor; [now exists msgs|exact Hall].
Qed.

(** the rank delta of a row compares the rank the session held before the
    run with the rank of the profile of this run *)
Lemma fetch_loop_deltas (us : list string) :
  NoDup us ->
  forall s s', fetch_loop profile_api skill_api sv us s = Completed s' ->
  forall row, In row (rows s') ->
    In row (rows s)
    \/ (In (row_Username row) us
        /\ rank_change (default VNone (prev_ranks s !! row_Username row))
                       (current_rank profile_api (row_Username row))
           = Ok (Rank_Delta row)).
Proof.
  induction 1 as [|v us Hv Hnd IH]; intros s s' Hl row Hrow; simpl in Hl.
  - injection Hl as <-. now left.
  - destruct (fetch_user profile_api skill_api sv v s) as [s1|s1] eqn:E; [|discriminate].
    apply fetch_user_turn in E as [Hp Hcase].
    destruct (IH s1 s' Hl row Hrow) as [Hin|[Hin Hd]].
    + destruct Hcase as [(_ & Hr & _)|(_ & row' & df & msgs & Hr & Hn & Hd & _)];
        rewrite Hr in Hin; [now left|].
      apply in_app_iff in Hin as [Hin|[<-|[]]]; [now left|].
      right. rewrite Hn. split; [now left|exact Hd].
    + right. split; [now right|].
      rewrite Hp, lookup_insert_ne in Hd; [exact Hd|].
      intros ->. apply Hv. now apply list_elem_of_In.
Qed.

(** X5: when the loop of a run completes, the rows are those of the users
    whose profile arrived and is not empty, one each in the order of the
    user list, and the list of skill tables holds, in the same order, what
    [get_skill_table] returned for each of them. *)
Theorem run_rows_in_fetch_order (usernames : list string) (prev : gmap string value) (s : run) :
  fetch_data profile_api skill_api sv usernames prev = Completed s ->
  map row_Username (rows s) = List.filter (has_data profile_api) usernames
  /\ Forall2 (fun u df => exists msgs, get_skill_table skill_api sv u = Ok (df, msgs))
             (List.filter (has_data profile_api) usernames) (skill_dfs s).
Proof.
  intros H. apply fetch_loop_turns in H as (Hr & (dfs & Hd & Hall) & _). simpl in *.
  split; [exact Hr|]. now rewrite Hd.
Qed.

(** X6: when the loop of a run completes, the session holds for every user
    of the list the rank of this run: the ranking of the profile, [None] for
    a profile without one, "N/A" when no profile arrived; the ranks of users
    that are not in the list stay as they were. *)
Theorem run_records_ranks (usernames : list string) (prev : gmap string value) (s : run) :
  fetch_data profile_api skill_api sv usernames prev = Completed s ->
  (forall u, In u usernames -> prev_ranks s !! u = Some (current_rank profile_api u))
  /\ (forall u, ~ In u usernames -> prev_ranks s !! u = prev !! u).
Proof.
  intros H. apply fetch_loop_turns in H as (_ & _ & Hin & Hout). now split.
Qed.

(** X7: in a completed run over a user list without repetitions, the rank
    delta of every row is what [rank_change] makes of the rank the session
    held for that user before the run and the rank of the profile of this
    run. *)
Theorem run_deltas_against_previous_run
        (usernames : list string) (prev : gmap string value) (s : run) :
  NoDup usernames ->
  fetch_data profile_api skill_api sv usernames prev = Completed s ->
  forall row, In row (rows s) ->
    rank_change (default VNone (prev !! row_Username row))
                (current_rank profile_api (row_Username row))
    = Ok (Rank_Delta row).
Proof.
  intros Hnd H row Hrow.
  destruct (fetch_loop_deltas usernames Hnd _ _ H row Hrow) as [[]|[_ Hd]]. exact Hd.
Qed.

(** with profiles that carry an integer ranking and previous ranks that are
    integers or "N/A", no turn of the loop raises *)
Lemma fetch_loop_completes (us : list string) :
  ranked_profiles profile_api us ->
  forall s, known_ranks (prev_ranks s) ->
  exists s', fetch_loop profile_api skill_api sv us s = Completed s'
             /\ known_ranks (prev_ranks s').
Proof.
  induction us as [|v us IH]; intros Hapi s Hk; simpl; [now exists s|].
  assert (Hapi' : ranked_profiles profile_api us).
  { intros u prof Hu. apply Hapi. now right. }
  assert (Hins : forall r, (r = VStr "N/A" \/ exists z, r = VInt z) ->
                           known_ranks (<[v := r]> (prev_ranks s))).
  { intros r Hr u w. destruct (string_dec u v) as [->|Hne].
    - rewrite lookup_insert_eq. now intros [= <-].
    - rewrite lookup_insert_ne by congruence. apply Hk. }
  unfold fetch_user, get_profile, get_profile_try.
  destruct (profile_api (profile_url v)) as [| | |prof] eqn:Hp; simpl;
    try (apply IH; [exact Hapi'|apply Hins; now left]).
  destruct (truthy prof) eqn:Ht; [|apply IH; [exact Hapi'|apply Hins; now left]].
  destruct (Hapi v prof (or_introl eq_refl) Hp Ht) as (d & z & -> & Hz).
  simpl. rewrite make_row_dict, Hz. simpl.
  assert (Hrc : exists delta, rank_change (default VNone (prev_ranks s !! v)) (VInt z) = Ok delta).
  { destruct (prev_ranks s !! v) as [w|] eqn:Hw; [|now exists ""].
    destruct (Hk v w Hw) as [->|[z' ->]]; [now exists ""|].
    simpl. rewrite rank_change_numbers. eauto. }
  destruct Hrc as [delta ->].
  destruct (compute_accuracy_returns (VDict d)) as [acc ->].
  destruct (get_skill_table_returns skill_api sv v) as (df & msgs & ->).
  apply IH; [exact Hapi'|]. simpl. apply Hins. right. now exists z.
Qed.

(** X8: when every profile that arrives is an object with an integer
    ranking and the session holds only integers and "N/A" as previous
    ranks, the loop completes, and the ranks it leaves are again integers
    or "N/A"; so the same holds of the runs that follow. *)
Theorem run_completes (usernames : list string) (prev : gmap string value) :
  ranked_profiles profile_api usernames ->
  known_ranks prev ->
  exists s, fetch_data profile_api skill_api sv usernames prev = Completed s
            /\ known_ranks (prev_ranks s).
Proof. intros Hapi Hk. now apply fetch_loop_completes. Qed.

End Runs.

(** ** Runs of a session, one after the other *)

Lemma leaderboard_rows (sv : sorter) (rs : list Row) (lb : list (nat * Row)) :
  sorts sv -> leaderboard sv rs = Some lb -> Permutation (map snd lb) rs.
Proof.
  intros Hsv. unfold leaderboard.
  destruct (with_totals rs) as [keyed|] eqn:Hk; [|discriminate]. simpl.
  intros [= <-]. destruct (with_totals_keyed _ _ Hk) as [Hsnd _].
  destruct (Hsv _ total_ge keyed total_ge_total total_ge_trans) as [Hp _].
  rewrite (snd_zip (seq 1 _) _) by now rewrite length_seq.
  rewrite <- Hsnd. now apply Permutation_map.
Qed.

Lemma rank_changes_none (df : list (nat * Row)) :
  Forall (fun row => Rank_Delta row = "") (map snd df) -> rank_changes df = None.
Proof.
  intros H. unfold rank_changes.
  replace (existsb _ df) with false; [reflexivity|].
  symmetry. apply not_true_is_false. intros He.
  apply existsb_exists in He as (ir & Hin & Hne).
  rewrite Forall_forall in H. specialize (H (snd ir)).
  rewrite H in Hne; [discriminate|]. apply list_elem_of_In. now apply in_map.
Qed.

(** X9: in the first run of a session and in the run after "Refresh All",
    over a user list without repetitions, the rank delta of every row is
    empty, and the table "Rank Changes" is not drawn. *)
Theorem fresh_session_shows_no_rank_changes
        (profile_api : string -> response value) (skill_api : string -> response skill_doc)
        (sv : sorter) (usernames : list string) (prev : gmap string value)
        (s : run) (lb : list (nat * Row)) :
  sorts sv ->
  NoDup usernames ->
  fetch_data profile_api skill_api sv usernames (refresh_all prev) = Completed s ->
  leaderboard sv (rows s) = Some lb ->
  Forall (fun row => Rank_Delta row = "") (rows s) /\ rank_changes lb = None.
Proof.
  intros Hsv Hnd Hrun Hlb.
  assert (Hall : Forall (fun row => Rank_Delta row = "") (rows s)).
  { apply Forall_forall. intros row Hrow. apply list_elem_of_In in Hrow.
    destruct (fetch_loop_deltas profile_api skill_api sv usernames Hnd _ _ Hrun row Hrow)
      as [[]|[_ Hd]].
    simpl in Hd. unfold refresh_all in Hd. rewrite lookup_empty in Hd. simpl in Hd.
    now injection Hd as <-. }
  split; [exact Hall|]. apply rank_changes_none.
  eapply Permutation_Forall; [symmetry; exact (leaderboard_rows sv _ _ Hsv Hlb)|exact Hall].
Qed.

(** X10: the rank delta across two runs. When a run saw the user at ranking
    z1 and the next run, over a list without repetitions, sees the user at
    ranking z2, the row of the user in the next run reads "Up z1-z2" if the
    ranking number fell, "Down z2-z1" if it rose and "No change" if it is
    the same; and the next run has such a row if the user is in its list. *)
Theorem rank_delta_between_runs
        (api1 api2 : string -> response value) (sapi1 sapi2 : string -> response skill_doc)
        (sv1 sv2 : sorter) (us1 us2 : list string) (prev : gmap string value)
        (s1 s2 : run) (u : string) (d1 d2 : list (string * value)) (z1 z2 : Z) :
  fetch_data api1 sapi1 sv1 us1 prev = Completed s1 ->
  In u us1 ->
  api1 (profile_url u) = Json (VDict d1) -> assoc "ranking" d1 = Some (VInt z1) ->
  NoDup us2 ->
  fetch_data api2 sapi2 sv2 us2 (prev_ranks s1) = Completed s2 ->
  api2 (profile_url u) = Json (VDict d2) -> assoc "ranking" d2 = Some (VInt z2) ->
  (In u us2 -> exists row, In row (rows s2) /\ row_Username row = u)
  /\ forall row, In row (rows s2) -> row_Username row = u ->
       Rank_Delta row = if Z.ltb z2 z1 then "Up " +:+ str_of_int (z1 - z2)
                        else if Z.ltb z1 z2 then "Down " +:+ str_of_int (z2 - z1)
                        else "No change".
Proof.
  intros Hrun1 Hu1 Hp1 Hz1 Hnd Hrun2 Hp2 Hz2.
  assert (Ht : forall d z, assoc "ranking" d = Some (VInt z) -> truthy (VDict d) = true)
    by (intros [|] ?; [discriminate|reflexivity]).
  assert (Hc : forall api d z, api (profile_url u) = Json (VDict d) ->
                               assoc "ranking" d = Some (VInt z) ->
                               current_rank api u = VInt z).
  { intros api d z Hp Hz. unfold current_rank. rewrite Hp, (Ht d z Hz). simpl. now rewrite Hz. }
  split.
  - intros Hu2. exact (fetch_loop_row api2 sapi2 sv2 u us2 _ s2 (VDict d2) Hrun2 Hu2 Hp2 (Ht _ _ Hz2)).
  - intros row Hrow Hn.
    destruct (fetch_loop_deltas api2 sapi2 sv2 us2 Hnd _ _ Hrun2 row Hrow) as [[]|[_ Hd]].
    simpl in Hd. rewrite Hn in Hd.
    destruct (fetch_loop_turns api1 sapi1 sv1 us1 _ _ Hrun1) as (_ & _ & Hin & _).
    rewrite (Hin u Hu1), (Hc api1 d1 z1 Hp1 Hz1), (Hc api2 d2 z2 Hp2 Hz2) in Hd.
    simpl in Hd. rewrite rank_change_numbers in Hd. injection Hd as <-.
    replace (Z.ltb 0 (z1 - z2)) with (Z.ltb z2 z1)
      by (destruct (Z.ltb_spec z2 z1), (Z.ltb_spec 0 (z1 - z2)); lia || reflexivity).
    replace (Z.ltb (z1 - z2) 0) with (Z.ltb z1 z2)
      by (destruct (Z.ltb_spec z1 z2), (Z.ltb_spec (z1 - z2) 0); lia || reflexivity).
    reflexivity.
Qed.

Lemma run_rows_in_fetch_order_witness :
  map row_Username (rows sample_state)
  = List.filter (has_data sample_profile_api) ["alice"; "bob"; "carol"]
  /\ Forall2 (fun u df => exists msgs,
                  get_skill_table sample_skill_api insertion_sort u = Ok (df, msgs))
             (List.filter (has_data sample_profile_api) ["alice"; "bob"; "carol"])
             (skill_dfs sample_state).
Proof.
  apply (run_rows_in_fetch_order sample_profile_api sample_skill_api insertion_sort
           ["alice"; "bob"; "carol"] sample_ranks sample_state).
  vm_compute. reflexivity.
Defined.

Lemma run_records_ranks_witness :
  prev_ranks sample_state !! "carol" = Some (current_rank sample_profile_api "carol")
  /\ prev_ranks sample_state !! "bob" = Some (current_rank sample_profile_api "bob").
Proof.
  assert (Hrun : fetch_data sample_profile_api sample_skill_api insertion_sort
                   ["alice"; "bob"; "carol"] sample_ranks = Completed sample_state)
    by (vm_compute; reflexivity).
  pose proof (run_records_ranks sample_profile_api sample_skill_api insertion_sort
                ["alice"; "bob"; "carol"] sample_ranks sample_state Hrun) as [H _].
  split.
  - apply (H "carol"). right. right. now left.
  - apply (H "bob"). right. now left.
Defined.

Lemma run_deltas_against_previous_run_witness :
  Forall (fun row => rank_change (default VNone (sample_ranks !! row_Username row))
                                 (current_rank sample_profile_api (row_Username row))
                     = Ok (Rank_Delta row))
         (rows sample_state).
Proof.
  apply Forall_forall. intros row Hrow. apply list_elem_of_In in Hrow. revert row Hrow.
  apply (run_deltas_against_previous_run sample_profile_api sample_skill_api insertion_sort
           ["alice"; "bob"; "carol"] sample_ranks sample_state).
  - repeat constructor; rewrite ?list_elem_of_In; simpl; intuition discriminate.
  - vm_compute. reflexivity.
Defined.

Lemma sample_profiles_ranked : ranked_profiles sample_profile_api ["alice"; "bob"; "carol"].
Proof.
  intros u prof [<-|[<-|[<-|[]]]] H _; vm_compute in H; try discriminate H;
    injection H as <-; do 2 eexists; split; reflexivity.
Qed.

Lemma sample_ranks_known : known_ranks sample_ranks.
Proof.
  intros u v. unfold sample_ranks. rewrite !lookup_insert_Some, lookup_empty.
  intros [[_ <-]|[_ [[_ <-]|[_ H]]]]; [right; eauto|right; eauto|discriminate H].
Qed.

Lemma run_completes_witness :
  exists s, fetch_data sample_profile_api sample_skill_api insertion_sort
              ["alice"; "bob"; "carol"] sample_ranks = Completed s
            /\ known_ranks (prev_ranks s).
Proof.
  exact (run_completes sample_profile_api sample_skill_api insertion_sort
           ["alice"; "bob"; "carol"] sample_ranks sample_profiles_ranked sample_ranks_known).
Defined.

Lemma fresh_session_shows_no_rank_changes_witness :
  Forall (fun row => Rank_Delta row = "") (rows fresh_state)
  /\ rank_changes (default [] (leaderboard insertion_sort (rows fresh_state))) = None.
Proof.
  apply (fresh_session_shows_no_rank_changes sample_profile_api sample_skill_api
           insertion_sort ["alice"; "bob"; "carol"] sample_ranks fresh_state).
  - exact insertion_sort_sorts.
  - repeat constructor; rewrite ?list_elem_of_In; simpl; intuition discriminate.
  - vm_compute. reflexivity.
  - vm_compute. reflexivity.
Defined.

Lemma rank_delta_between_runs_witness :
  exists row, In row (rows later_state) /\ row_Username row = "alice"
              /\ Rank_Delta row = "Up 50".
Proof.
  assert (Hnd : NoDup ["alice"]).
  { repeat constructor; rewrite ?list_elem_of_In; simpl; intuition discriminate. }
  assert (Hrun1 : fetch_data sample_profile_api sample_skill_api insertion_sort
                    ["alice"; "bob"; "carol"] sample_ranks = Completed sample_state)
    by (vm_compute; reflexivity).
  assert (Hrun2 : fetch_data later_profile_api sample_skill_api insertion_sort
                    ["alice"] (prev_ranks sample_state) = Completed later_state)
    by (vm_compute; reflexivity).
  destruct (rank_delta_between_runs sample_profile_api later_profile_api
              sample_skill_api sample_skill_api insertion_sort insertion_sort
              ["alice"; "bob"; "carol"] ["alice"] sample_ranks sample_state later_state
              "alice"
              [("totalSolved", VInt 120); ("ranking", VInt 500);
               ("matchedUserStats",
                 VDict [("acSubmissionNum", VList [bucket "Easy" 1; bucket "All" 1]);
                        ("totalSubmissionNum", VList [bucket "Easy" 2; bucket "All" 3])])]
              [("totalSolved", VInt 121); ("ranking", VInt 450)] 500 450
              Hrun1 (or_introl eq_refl) eq_refl eq_refl Hnd Hrun2 eq_refl eq_refl)
    as [Hex Hall].
  destruct (Hex (or_introl eq_refl)) as (row & Hin & Hn).
  exists row. split; [exact Hin|]. split; [exact Hn|]. exact (Hall row Hin Hn).
Defined.

(** ** The skill fetcher: malformed entries *)

Lemma skill_records_raise (level u : string) (l : list skill_json) :
  In SkillNotObject l -> skill_records level u l = Raise.
Proof.
  induction l as [|[tag n|] l IH]; simpl; [intros []| |reflexivity].
  intros [H|H]; [discriminate|]. now rewrite IH.
Qed.

Lemma skill_records_all (level u : string) (l : list skill_json) :
  ~ In SkillNotObject l ->
  exists rs, skill_records level u l = Ok rs
             /\ length rs = length l
             /\ forall tag n, In (SkillObject tag n) l ->
                  exists r, In r rs /\ Skill (fst r) = default "Unknown" tag
                            /\ ProblemsSolved (fst r) = default 0 n.
Proof.
  induction l as [|[tag n|] l IH]; simpl; intros Hno.
  - exists []. repeat split. intros ? ? [].
  - destruct IH as (rs & -> & Hlen & Hall); [tauto|]. simpl.
    eexists. split; [reflexivity|]. split; [simpl; now rewrite Hlen|].
    intros tag' n' [[= <- <-]|Hin].
    + eexists. split; [now left|]. now split.
    + destruct (Hall _ _ Hin) as (r & Hr & Hf). exists r. split; [now right|exact Hf].
  - tauto.
Qed.

Lemma level_records_raise (u : string) (items : list (string * skills_json)) :
  In SkillNotObject (skill_objects items) -> level_records u items = Raise.
Proof.
  induction items as [|[level_raw [l|]] items IH]; simpl; [intros []| |].
  - intros H. apply in_app_iff in H as [H|H].
    + now rewrite skill_records_raise.
    + rewrite IH by exact H. now destruct (skill_records _ u l).
  - intros H. now rewrite IH.
Qed.

Lemma level_records_all (u : string) (items : list (string * skills_json)) :
  ~ In SkillNotObject (skill_objects items) ->
  exists rs, level_records u items = Ok rs
             /\ length rs = length (skill_objects items)
             /\ forall tag n, In (SkillObject tag n) (skill_objects items) ->
                  exists r, In r rs /\ Skill (fst r) = default "Unknown" tag
                            /\ ProblemsSolved (fst r) = default 0 n.
Proof.
  induction items as [|[level_raw [l|]] items IH]; simpl; intros Hno.
  - exists []. repeat split. intros ? ? [].
  - rewrite in_app_iff in Hno.
    destruct (skill_records_all (normalize_level level_raw) u l) as (here & -> & Hl1 & Hh);
      [tauto|].
    destruct IH as (more & -> & Hl2 & Hm); [tauto|]. simpl.
    eexists. split; [reflexivity|]. split; [rewrite !length_app; lia|].
    intros tag n Hin. apply in_app_iff in Hin as [Hin|Hin].
    + destruct (Hh _ _ Hin) as (r & Hr & Hf). exists r. split; [|exact Hf].
      apply in_app_iff. now left.
    + destruct (Hm _ _ Hin) as (r & Hr & Hf). exists r. split; [|exact Hf].
      apply in_app_iff. now right.
  - destruct IH as (more & -> & Hl2 & Hm); [exact Hno|]. simpl.
    exists more. now repeat split.
Qed.

(** X11: the skill table is all or nothing. When one entry of one list of
    the document is not an object, [get_skill_table] returns the empty table
    with an error message, also for a user whose other entries are in order.
    When all entries are objects, there is no message and the table has one
    record per entry, levels that are no lists left out; each record carries
    the username, the tag name or "Unknown" when the entry has none, and the
    number of problems solved or 0 when the entry has none. *)
Theorem skill_table_all_or_nothing
        (api : string -> response skill_doc) (sv : sorter) (u : string)
        (items : list (string * skills_json)) :
  sorts sv ->
  api (skill_url u) = Json (Levels items) ->
  (In SkillNotObject (skill_objects items) ->
   get_skill_table api sv u = Ok ([], [StError ("Skill error (" +:+ u +:+ ")")]))
  /\ (~ In SkillNotObject (skill_objects items) ->
      exists df, get_skill_table api sv u = Ok (df, [])
                 /\ length df = length (skill_objects items)
                 /\ Forall (fun r => Username r = u) df
                 /\ forall tag n, In (SkillObject tag n) (skill_objects items) ->
                      exists r, In r df /\ Skill r = default "Unknown" tag
                                /\ ProblemsSolved r = default 0 n).
Proof.
  intros Hsv Hapi. split; intros H.
  - unfold get_skill_table, get_skill_table_try.
    now rewrite Hapi, (level_records_raise u items H).
  - destruct (level_records_all u items H) as (rs & Hrs & Hlen & Hall).
    destruct (get_skill_table_json api sv u items rs Hsv Hapi Hrs) as (df & Hdf & Hp & _).
    exists df. split; [exact Hdf|]. split; [|split].
    + rewrite (Permutation_length Hp), length_map. exact Hlen.
    + eapply Permutation_Forall; [symmetry; exact Hp|].
      apply Forall_map. eapply Forall_impl; [exact (level_records_well_formed u items rs Hrs)|].
      intros r (_ & _ & Hu). exact Hu.
    + intros tag n Hin. destruct (Hall tag n Hin) as (r & Hr & Hs & Hn).
      exists (fst r). split; [|now split].
      apply (Permutation_in (l := map fst rs)); [now symmetry|]. now apply in_map.
Qed.

Lemma skill_table_all_or_nothing_witness :
  exists df, get_skill_table sample_skill_api insertion_sort "alice" = Ok (df, [])
             /\ length df = 3%nat
             /\ Forall (fun r => Username r = "alice") df.
Proof.
  destruct (skill_table_all_or_nothing sample_skill_api insertion_sort "alice"
              [("unrated", SkillList [SkillObject (Some "Graphs") None]);
               ("advanced", SkillList [SkillObject (Some "Arrays") (Some 3);
                                       SkillObject (Some "Trie") (Some 4)])]
              insertion_sort_sorts eq_refl) as [_ H].
  destruct H as (df & H1 & H2 & H3 & _).
  - simpl. intros [H|[H|[H|[]]]]; discriminate H.
  - exists df. split; [exact H1|]. split; [exact H2|exact H3].
Defined.

(** ** Level names and letter case *)

(** X12: the level names of the skill endpoint are read without regard to
    letter case. For names in ASCII: two names that differ in the case of
    their letters at most get the same level, so a name, the name in lower
    case and the name in upper case do; and a level that [get_skill_table]
    has assigned is left as it is when normalized again. *)
Theorem normalize_level_ignores_case (level_raw : string) :
  ascii_text level_raw ->
  normalize_level (map_string lower level_raw) = normalize_level level_raw
  /\ normalize_level (map_string upper level_raw) = normalize_level level_raw
  /\ normalize_level (normalize_level level_raw) = normalize_level level_raw
  /\ (forall other, ascii_text other -> caseless level_raw other ->
                    normalize_level other = normalize_level level_raw).
Proof.
  intros _. unfold normalize_level at 1 3.
  destruct (capitalize_case level_raw) as [-> ->]. split; [reflexivity|]. split; [reflexivity|].
  split.
  - destruct (normalize_level_spec level_raw) as [[<-|[<-|[<-|[]]]] _]; reflexivity.
  - intros other _ H. unfold normalize_level. now rewrite (capitalize_caseless _ _ H).
Qed.

Lemma normalize_level_ignores_case_witness :
  normalize_level (map_string upper "Intermediate") = normalize_level "Intermediate"
  /\ normalize_level "iNTERMEDIATE" = normalize_level "Intermediate".
Proof.
  destruct (normalize_level_ignores_case "Intermediate" eq_refl) as (_ & H2 & _ & H4).
  split; [exact H2|]. apply H4; reflexivity.
Defined.

(** ** compute_accuracy: all accepted, none accepted *)

Lemma round_half_even_comp (q q' : Q) : (q == q')%Q -> round_half_even q = round_half_even q'.
Proof.
  intros H. unfold round_half_even. rewrite (Qfloor_comp q q' H).
  assert (E : (q - inject_Z (Qfloor q') == q' - inject_Z (Qfloor q'))%Q) by now rewrite H.
  now rewrite (Qcompare_comp _ _ E (1 # 2) (1 # 2) (Qeq_refl _)).
Qed.

Lemma round_half_even_Z (n : Z) : round_half_even (inject_Z n) = n.
Proof.
  rewrite (round_half_even_comp (inject_Z n) (n # 1)) by reflexivity.
  unfold round_half_even. change (n # 1) with (inject_Z n). rewrite Qfloor_Z.
  assert (E : (inject_Z n - inject_Z n == 0)%Q) by ring.
  now rewrite (Qcompare_comp _ _ E (1 # 2) (1 # 2) (Qeq_refl _)).
Qed.

(** a quotient of an integer by itself is the float 1.0 *)
Lemma of_Q_same (y : Z) : 0 < y -> of_Q (inject_Z y / inject_Z y) = Finite 1.
Proof.
  intros Hy. destruct y as [|p|p]; try lia.
  assert (Hu : ulp (inject_Z (Z.pos p) / inject_Z (Z.pos p)) = ulp 1).
  { unfold ulp. f_equal. f_equal. f_equal.
    unfold ilog2, Qabs, Qdiv, Qmult, Qinv, inject_Z. cbn [Qnum Qden].
    rewrite Z.mul_1_r, Pos.mul_1_l. cbn [Z.abs].
    rewrite Z.leb_refl, Z_div_same by lia. reflexivity. }
  assert (Hr : rnd (inject_Z (Z.pos p) / inject_Z (Z.pos p)) = rnd 1).
  { unfold rnd. rewrite Hu. apply Qred_complete.
    rewrite (round_half_even_comp (inject_Z (Z.pos p) / inject_Z (Z.pos p) / ulp 1) (1 / ulp 1));
      [reflexivity|].
    apply Qmult_comp; [|reflexivity].
    unfold Qeq, Qdiv, Qmult, Qinv, inject_Z. cbn [Qnum Qden]. lia. }
  unfold of_Q. rewrite Hr. vm_compute. reflexivity.
Qed.

(** zero divided by an integer is the float 0.0 *)
Lemma of_Q_none (y : Z) : y <> 0 -> of_Q (inject_Z 0 / inject_Z y) = Finite 0.
Proof.
  intros Hy.
  assert (Hn : Qnum (inject_Z 0 / inject_Z y) = 0) by reflexivity.
  assert (Hu : ulp (inject_Z 0 / inject_Z y) = ulp 0).
  { assert (Hz : forall d, ilog2 (Qabs (0 # d)) = 0).
    { intros d. unfold ilog2, Qabs. cbn [Qnum Qden Z.abs].
      change (Z.leb (Z.pos d) 0) with false. cbv iota. now rewrite Z.div_0_r. }
    unfold ulp. destruct (inject_Z 0 / inject_Z y)%Q as [n d]. simpl in Hn. subst n.
    rewrite Hz. change 0%Q with (0 # 1). now rewrite Hz. }
  assert (Hr : rnd (inject_Z 0 / inject_Z y) = rnd 0).
  { unfold rnd. rewrite Hu. apply Qred_complete.
    rewrite (round_half_even_comp (inject_Z 0 / inject_Z y / ulp 0) (0 / ulp 0));
      [reflexivity|].
    apply Qmult_comp; [|reflexivity].
    unfold Qeq. rewrite Hn. reflexivity. }
  unfold of_Q. rewrite Hr. vm_compute. reflexivity.
Qed.

(** X13: the two ends of the scale are exact. For a profile whose "All"
    bucket has a positive number of submissions, [compute_accuracy] returns
    100.0 when all of them were accepted and 0.0 when none was. *)
Theorem compute_accuracy_endpoints (p : value) (ac total : list value) (y : Z) :
  stats_of p ac total -> 0 < y ->
  (all_bucket ac total y y -> compute_accuracy p = Ok (Finite 100))
  /\ (all_bucket ac total 0 y -> compute_accuracy p = Ok (Finite 0)).
Proof.
  intros Hs Hy. split; intros Hb; rewrite (compute_accuracy_all p ac total _ y Hs Hb);
    unfold accuracy_of; rewrite (proj2 (Z.eqb_neq y 0)) by lia.
  - rewrite (of_Q_same y Hy). vm_compute. reflexivity.
  - rewrite (of_Q_none y) by lia. vm_compute. reflexivity.
Qed.

Lemma compute_accuracy_endpoints_witness :
  compute_accuracy (profile_of 7 7) = Ok (Finite 100).
Proof.
  apply (proj1 (compute_accuracy_endpoints (profile_of 7 7) _ _ 7 (profile_of_stats 7 7)
                  ltac:(lia)) (profile_of_all 7 7)).
Defined.

(** ** Lists, sorted lists and the order of strings *)

Lemma filter_Permutation' {A} (p : A -> bool) (l l' : list A) :
  Permutation l l' -> Permutation (List.filter p l) (List.filter p l').
Proof.
  induction 1 as [|x l l' _ IH|x y l|l l' l'' _ IH1 _ IH2]; simpl.
  - constructor.
  - destruct (p x); [now constructor|exact IH].
  - destruct (p x), (p y); try reflexivity. constructor.
  - now transitivity (List.filter p l').
Qed.

Lemma StronglySorted_filter' {A} (R : A -> A -> Prop) (p : A -> bool) (l : list A) :
  StronglySorted R l -> StronglySorted R (List.filter p l).
Proof.
  induction 1 as [|x l _ IH Hx]; simpl; [constructor|].
  destruct (p x); [|exact IH]. constructor; [exact IH|].
  rewrite Forall_forall in *. intros y Hy. apply Hx.
  apply list_elem_of_In. apply list_elem_of_In, filter_In in Hy. tauto.
Qed.

Lemma StronglySorted_app_parts {A} (R : A -> A -> Prop) (l1 l2 : list A) :
  StronglySorted R (l1 ++ l2) ->
  StronglySorted R l1 /\ forall x y, In x l1 -> In y l2 -> R x y.
Proof.
  induction l1 as [|a l1 IH]; simpl; intros H.
  - split; [constructor|intros ? ? []].
  - apply StronglySorted_inv in H as [Hs Ha]. destruct (IH Hs) as [H1 H2].
    split.
    + constructor; [exact H1|]. apply Forall_app in Ha. tauto.
    + intros x y [<-|Hx] Hy; [|now apply H2].
      rewrite Forall_forall in Ha. apply Ha, list_elem_of_In, in_app_iff. now right.
Qed.

Lemma StronglySorted_weaken {A} (R R' : A -> A -> Prop) (P : A -> Prop) (l : list A) :
  (forall a b, P a -> P b -> R a b -> R' a b) ->
  Forall P l -> StronglySorted R l -> StronglySorted R' l.
Proof.
  intros HR HP HS. rewrite <- (map_id l).
  now apply (StronglySorted_map id R R' P).
Qed.

Lemma solved_sum_Permutation (l l' : list SkillRecord) :
  Permutation l l' -> solved_sum l = solved_sum l'.
Proof.
  unfold solved_sum.
  induction 1 as [|x l l' _ IH|x y l|l l' l'' _ IH1 _ IH2]; simpl; lia.
Qed.

Lemma string_leb_trans (s1 s2 s3 : string) :
  String.leb s1 s2 = true -> String.leb s2 s3 = true -> String.leb s1 s3 = true.
Proof.
  unfold String.leb. revert s2 s3.
  induction s1 as [|c1 s1 IH]; intros [|c2 s2] [|c3 s3]; simpl; try easy.
  unfold Ascii.compare.
  destruct (N.compare_spec (N_of_ascii c1) (N_of_ascii c2)) as [E1|L1|G1];
    destruct (N.compare_spec (N_of_ascii c2) (N_of_ascii c3)) as [E2|L2|G2];
    destruct (N.compare_spec (N_of_ascii c1) (N_of_ascii c3)) as [E3|L3|G3];
    try easy; try lia.
  apply IH.
Qed.

(** ** The views of the section "Skill Comparison" *)

Lemma sort_by_level_sorts (sv : sorter) (df : list SkillRecord) :
  sorts sv ->
  Permutation (sort_by_level sv df) df /\ StronglySorted skill_order (sort_by_level sv df).
Proof.
  intros Hsv. unfold sort_by_level.
  set (keyed := map (fun r => (r, level_sort (Level r))) df).
  destruct (Hsv _ skill_le keyed skill_le_total skill_le_trans) as [Hp Hs].
  split.
  - transitivity (map fst keyed); [now apply Permutation_map|].
    unfold keyed. rewrite map_map. simpl. now rewrite map_id.
  - apply (StronglySorted_map fst (fun x y => skill_le x y = true) skill_order
             (fun a => snd a = level_sort (Level (fst a)))); [| |exact Hs].
    + intros a b Ha Hb. unfold skill_le, skill_order.
      rewrite !orb_true_iff, !andb_true_iff, !Z.ltb_lt, !Z.eqb_eq, !Z.leb_le. lia.
    + eapply Permutation_Forall; [symmetry; exact Hp|].
      unfold keyed. apply Forall_map. now apply Forall_forall.
Qed.

Lemma skill_key_le_total (df : list SkillRecord) (x y : string) :
  skill_key_le df x y = true \/ skill_key_le df y x = true.
Proof.
  unfold skill_key_le. rewrite !orb_true_iff, !andb_true_iff, !Z.ltb_lt, !Z.eqb_eq.
  destruct (Z.lt_trichotomy (skill_rank df x) (skill_rank df y)) as [L|[E|G]];
    [left; now left| |right; now left].
  destruct (String.leb_total x y) as [H|H]; [left|right]; right; split; auto.
Qed.

Lemma skill_key_le_trans (df : list SkillRecord) (x y z : string) :
  skill_key_le df x y = true -> skill_key_le df y z = true -> skill_key_le df x z = true.
Proof.
  unfold skill_key_le. rewrite !orb_true_iff, !andb_true_iff, !Z.ltb_lt, !Z.eqb_eq.
  intros [H1|[H1 L1]] [H2|[H2 L2]]; try lia.
  right. split; [lia|]. exact (string_leb_trans _ _ _ L1 L2).
Qed.

(** of counts whose total fits 64 bits, every part has a sum that fits *)
Lemma small_counts_filter (p : SkillRecord -> bool) (df : list SkillRecord) :
  Forall (fun r => 0 <= ProblemsSolved r) df ->
  0 <= solved_sum (List.filter p df) <= solved_sum df.
Proof.
  unfold solved_sum. induction 1 as [|r df Hr _ IH]; simpl; [lia|].
  destruct (p r); simpl; lia.
Qed.

Lemma small_counts_fits (p : SkillRecord -> bool) (df : list SkillRecord) :
  small_counts df ->
  fits64 (solved_sum (List.filter p df)) /\ fits64 (- solved_sum (List.filter p df)).
Proof.
  intros [Hpos Hsum]. pose proof (small_counts_filter p df Hpos).
  unfold fits64. lia.
Qed.

Lemma skill_rank_small (df : list SkillRecord) (x : string) :
  small_counts df -> skill_rank df x = - solved_sum (records_with x df).
Proof.
  intros H. unfold skill_rank, skill_total.
  destruct (small_counts_fits (fun r => String.eqb (Skill r) x) df H) as [H1 H2].
  rewrite (wrap64_fits _ H1). now apply wrap64_fits.
Qed.

(** X14: the select box lists every skill of the data once, in the order of
    the keys that line 234 compares: the negative of the skill's total of
    problems solved over all users and levels, a 64-bit number, and then the
    name. For counts, none below zero, whose total fits 64 bits this is: the
    skill with the larger total before the one with the smaller, and skills
    of equal total in the order of their names. *)
Theorem unique_skills_ordered (df : list SkillRecord) :
  int64_column df ->
  NoDup (unique_skills df)
  /\ (forall x, In x (unique_skills df) <-> exists r, In r df /\ Skill r = x)
  /\ StronglySorted (skill_key_before df) (unique_skills df)
  /\ (small_counts df -> StronglySorted (skill_before df) (unique_skills df)).
Proof.
  intros _. unfold unique_skills.
  destruct (insertion_sort_sorts string (skill_key_le df) (remove_dups (map Skill df))
              (skill_key_le_total df) (skill_key_le_trans df)) as [Hp Hs].
  assert (Hkey : StronglySorted (skill_key_before df)
                   (insertion_sort string (skill_key_le df) (remove_dups (map Skill df)))).
  { apply (StronglySorted_weaken (fun x y => skill_key_le df x y = true) (skill_key_before df)
             (fun _ => True)); [|now apply Forall_forall|exact Hs].
    intros x y _ _. unfold skill_key_le, skill_key_before.
    rewrite !orb_true_iff, !andb_true_iff, !Z.ltb_lt, !Z.eqb_eq.
    intros [H|[H L]]; [now left|right; now split]. }
  split; [|split; [|split]].
  - rewrite Hp. apply NoDup_remove_dups.
  - intros x. rewrite <- list_elem_of_In, Hp, elem_of_remove_dups, list_elem_of_In, in_map_iff.
    split; intros (r & H1 & H2); exists r; now split.
  - exact Hkey.
  - intros Hsmall.
    apply (StronglySorted_weaken (skill_key_before df) (skill_before df) (fun _ => True));
      [|now apply Forall_forall|exact Hkey].
    intros x y _ _. unfold skill_key_before, skill_before.
    rewrite !(skill_rank_small df) by exact Hsmall.
    intros [H|[H L]]; [left; lia|right; split; [lia|exact L]].
Qed.

Lemma sample_frames_small : small_counts (all_skills sample_frames).
Proof. split; [repeat constructor; vm_compute; discriminate|vm_compute; reflexivity]. Qed.

Lemma sample_frames_int64 : int64_column (all_skills sample_frames).
Proof. repeat constructor; vm_compute; discriminate. Qed.

Lemma unique_skills_ordered_witness :
  NoDup (unique_skills (all_skills sample_frames))
  /\ StronglySorted (skill_before (all_skills sample_frames))
                    (unique_skills (all_skills sample_frames)).
Proof.
  destruct (unique_skills_ordered (all_skills sample_frames) sample_frames_int64)
    as (H1 & _ & _ & H4).
  split; [exact H1|exact (H4 sample_frames_small)].
Defined.

Lemma top_five_take (p : SkillRecord -> bool) (df sorted : list SkillRecord) :
  Permutation sorted df -> StronglySorted skill_order sorted ->
  top_five p df (take 5 (List.filter p sorted)).
Proof.
  intros Hp Hs.
  assert (Hpf : Permutation (List.filter p sorted) (List.filter p df))
    by now apply filter_Permutation'.
  assert (Hsf : StronglySorted skill_order (List.filter p sorted))
    by now apply StronglySorted_filter'.
  set (l := List.filter p sorted) in *.
  rewrite <- (take_drop 5 l) in Hsf.
  apply StronglySorted_app_parts in Hsf as [Hst Hsd].
  assert (Hin : forall r, In r (take 5 l) -> In r df /\ p r = true).
  { intros r Hr. apply filter_In. apply (Permutation_in _ Hpf).
    rewrite <- (take_drop 5 l). apply in_app_iff. now left. }
  split; [|split; [|split]].
  - rewrite length_take. now rewrite (Permutation_length Hpf).
  - exact Hin.
  - exact Hst.
  - intros r r' Hr' Hr Hpr Hout. apply Hsd; [exact Hr'|].
    assert (Hl : In r l).
    { apply (Permutation_in (l := List.filter p df)); [now symmetry|]. now apply filter_In. }
    rewrite <- (take_drop 5 l) in Hl. apply in_app_iff in Hl as [Hl|Hl]; [contradiction|exact Hl].
Qed.

(** X15: with "All Skills" selected and skill data at hand, the page shows
    two tables: the first five Advanced records and the first five records
    of the levels Intermediate and Fundamental, each in the order of the
    levels and, within a level, of the problems solved, larger first; a
    record that is left out comes after every record shown. Without skill
    data the page shows a note. *)
Theorem skill_comparison_top_five (sv : sorter) (dfs : list (list SkillRecord)) :
  sorts sv ->
  (all_skills dfs = [] -> skill_comparison sv "All Skills" dfs = NoSkillData)
  /\ (all_skills dfs <> [] ->
      exists advanced other,
        skill_comparison sv "All Skills" dfs = TopSkills advanced other
        /\ top_five is_advanced (all_skills dfs) advanced
        /\ top_five is_other (all_skills dfs) other).
Proof.
  intros Hsv. unfold skill_comparison, filtered_skills. simpl.
  destruct (all_skills dfs) as [|r0 l0] eqn:E; split; try congruence.
  intros _. destruct (sort_by_level_sorts sv (r0 :: l0) Hsv) as [Hp Hs].
  do 2 eexists. split; [reflexivity|]. split; now apply top_five_take.
Qed.

Lemma skill_comparison_top_five_witness :
  exists advanced other,
    skill_comparison insertion_sort "All Skills" sample_frames = TopSkills advanced other
    /\ top_five is_advanced (all_skills sample_frames) advanced
    /\ top_five is_other (all_skills sample_frames) other.
Proof.
  apply (skill_comparison_top_five insertion_sort sample_frames insertion_sort_sorts).
  discriminate.
Defined.

Lemma solved_sum_filter_filter (p q : SkillRecord -> bool) (df : list SkillRecord) :
  List.filter p (List.filter q df) = List.filter (fun r => q r && p r) df.
Proof.
  induction df as [|r df IH]; simpl; [reflexivity|].
  destruct (q r); simpl; [|exact IH]. destruct (p r); now rewrite IH.
Qed.

(** the sums of the pivot table by user *)
Lemma user_sums_fold (df : list SkillRecord) (m : gmap string Z) (u : string) :
  fits64 (default 0 (m !! u)) ->
  default 0
    (foldl (fun (m : gmap string Z) r =>
              <[Username r := wrap64 (default 0 (m !! Username r) + ProblemsSolved r)]> m)
           m df !! u)
  = wrap64 (default 0 (m !! u) + solved_sum (records_of u df)).
Proof.
  revert m. induction df as [|r df IH]; intros m Hm; simpl.
  - unfold solved_sum. simpl. rewrite Z.add_0_r. symmetry. now apply wrap64_fits.
  - unfold records_of. simpl.
    destruct (String.eqb_spec (Username r) u) as [E|Hne].
    + rewrite IH by (rewrite E, lookup_insert_eq; apply wrap64_range).
      rewrite E, lookup_insert_eq. simpl. rewrite wrap64_add.
      unfold solved_sum, records_of. simpl. f_equal. lia.
    + rewrite IH by (now rewrite lookup_insert_ne by exact Hne).
      now rewrite lookup_insert_ne by exact Hne.
Qed.

Lemma user_sums_rows (df : list SkillRecord) :
  user_sums df
  = map (fun u => (u, wrap64 (solved_sum (records_of u df))))
        (sorted_unique String.leb (map Username df)).
Proof.
  unfold user_sums. apply map_ext. intros u.
  rewrite user_sums_fold, lookup_empty by (rewrite lookup_empty; simpl; unfold fits64; lia).
  reflexivity.
Qed.

Lemma sum_ge_total (a b : string * Z) : sum_ge a b = true \/ sum_ge b a = true.
Proof. unfold sum_ge. rewrite !Z.leb_le. lia. Qed.

Lemma sum_ge_trans (a b c : string * Z) :
  sum_ge a b = true -> sum_ge b c = true -> sum_ge a c = true.
Proof. unfold sum_ge. rewrite !Z.leb_le. lia. Qed.

Lemma sorted_unique_NoDup {A} `{EqDecision A} (le : A -> A -> bool) (l : list A) :
  NoDup (sorted_unique le l).
Proof.
  unfold sorted_unique. rewrite (insertion_sort_perm le (remove_dups l)).
  apply NoDup_remove_dups.
Qed.

(** X16: with a skill of the select box chosen, the page shows one row per
    user who has a record of that skill, with the sum of the problems solved
    over the user's records of the skill at all levels, added in 64 bits (the
    exact sum for counts, none below zero, whose total fits 64 bits), the
    larger number first; the note "No data available" is not shown for a
    skill of the select box. *)
Theorem skill_comparison_pivot (sv : sorter) (selected : string)
        (dfs : list (list SkillRecord)) :
  sorts sv ->
  int64_column (all_skills dfs) ->
  selected <> "All Skills" ->
  In selected (unique_skills (all_skills dfs)) ->
  exists table,
    skill_comparison sv selected dfs = SkillPivot table
    /\ NoDup (map fst table)
    /\ (forall u, In u (map fst table) <->
                  exists r, In r (all_skills dfs) /\ Skill r = selected /\ Username r = u)
    /\ (forall u n, In (u, n) table ->
                    n = wrap64 (solved_sum (records_of u (records_with selected
                                                                       (all_skills dfs)))))
    /\ (small_counts (all_skills dfs) ->
        forall u n, In (u, n) table ->
                    n = solved_sum (records_of u (records_with selected (all_skills dfs))))
    /\ StronglySorted (fun a b => snd b <= snd a) table.
Proof.
  intros Hsv _ Hsel Hin.
  assert (Hex : exists r, In r (all_skills dfs) /\ Skill r = selected).
  { unfold unique_skills in Hin.
    apply list_elem_of_In in Hin.
    rewrite (insertion_sort_perm (skill_key_le (all_skills dfs))) in Hin.
    apply elem_of_remove_dups, list_elem_of_In, in_map_iff in Hin as (r & H1 & H2).
    now exists r. }
  unfold skill_comparison, filtered_skills.
  rewrite (proj2 (String.eqb_neq selected "All Skills") Hsel).
  destruct (all_skills dfs) as [|r0 l0] eqn:E; [now destruct Hex as (r & [] & _)|].
  set (df := r0 :: l0) in *. clearbody df. clear E r0 l0.
  fold (records_with selected df).
  destruct (records_with selected df) as [|r1 l1] eqn:Ef.
  { destruct Hex as (r & Hr & Hs). exfalso.
    assert (H : In r (records_with selected df)).
    { apply filter_In. split; [exact Hr|]. now apply String.eqb_eq. }
    rewrite Ef in H. destruct H. }
  rewrite <- Ef. clear Ef r1 l1.
  destruct (sort_by_level_sorts sv (records_with selected df) Hsv) as [Hp _].
  set (sorted := sort_by_level sv (records_with selected df)) in *.
  destruct (Hsv _ sum_ge (user_sums sorted) sum_ge_total sum_ge_trans) as [Hpt Hst].
  exists (sv _ sum_ge (user_sums sorted)). split; [reflexivity|].
  assert (Hfst : Permutation (map fst (sv _ sum_ge (user_sums sorted)))
                             (sorted_unique String.leb (map Username sorted))).
  { transitivity (map fst (user_sums sorted)); [now apply Permutation_map|].
    rewrite user_sums_rows, map_map. simpl. now rewrite map_id. }
  assert (Hsum : forall u n, In (u, n) (sv _ sum_ge (user_sums sorted)) ->
                   n = wrap64 (solved_sum (records_of u (records_with selected df)))).
  { intros u n Hn. apply list_elem_of_In in Hn. rewrite Hpt in Hn.
    apply list_elem_of_In in Hn. rewrite user_sums_rows in Hn.
    apply in_map_iff in Hn as (u' & [= -> <-] & _).
    f_equal. apply solved_sum_Permutation. now apply filter_Permutation'. }
  split; [|split; [|split; [|split]]].
  - rewrite Hfst. apply sorted_unique_NoDup.
  - intros u. rewrite <- list_elem_of_In, Hfst, list_elem_of_In, sorted_unique_elem, in_map_iff.
    split.
    + intros (r & Hu & Hr). exists r.
      apply (Permutation_in _ Hp), filter_In in Hr as [Hr Hs].
      apply String.eqb_eq in Hs. now repeat split.
    + intros (r & Hr & Hs & Hu). exists r. split; [exact Hu|].
      apply (Permutation_in (l := records_with selected df)); [now symmetry|].
      apply filter_In. split; [exact Hr|]. now apply String.eqb_eq.
  - exact Hsum.
  - intros Hsmall u n Hn. rewrite (Hsum u n Hn). apply wrap64_fits.
    unfold records_of, records_with. rewrite solved_sum_filter_filter.
    now apply small_counts_fits.
  - apply (StronglySorted_weaken (fun a b => sum_ge a b = true) _ (fun _ => True));
      [|now apply Forall_forall|exact Hst].
    intros a b _ _. unfold sum_ge. now rewrite Z.leb_le.
Qed.

Lemma skill_comparison_pivot_witness :
  exists table,
    skill_comparison insertion_sort "Arrays" sample_frames = SkillPivot table
    /\ NoDup (map fst table)
    /\ StronglySorted (fun a b => snd b <= snd a) table.
Proof.
  destruct (skill_comparison_pivot insertion_sort "Arrays" sample_frames insertion_sort_sorts
              sample_frames_int64)
    as (table & H1 & H2 & _ & _ & _ & H5).
  - discriminate.
  - vm_compute. now left.
  - exists table. split; [exact H1|]. split; [exact H2|exact H5].
Defined.

(** ** The detailed tables per user *)

Lemma existsb_filter {A} (p : A -> bool) (l : list A) :
  existsb p l = match List.filter p l with [] => false | _ => true end.
Proof.
  induction l as [|x l IH]; simpl; [reflexivity|].
  destruct (p x); [reflexivity|exact IH].
Qed.

Lemma detailed_rows (sv : sorter) (df : list SkillRecord) (users : list string) :
  sorts sv ->
  map fst (flat_map (fun user =>
                       match List.filter (fun r => String.eqb (Username r) user) df with
                       | [] => []
                       | usr => [(user, sort_by_level sv usr)]
                       end) users)
  = List.filter (fun u => existsb (fun r => String.eqb (Username r) u) df) users
  /\ forall u t,
      In (u, t) (flat_map (fun user =>
                             match List.filter (fun r => String.eqb (Username r) user) df with
                             | [] => []
                             | usr => [(user, sort_by_level sv usr)]
                             end) users) ->
      In u users /\ Permutation t (records_of u df) /\ StronglySorted skill_order t.
Proof.
  intros Hsv. induction users as [|user users [IH1 IH2]]; simpl.
  - split; [reflexivity|intros ? ? []].
  - rewrite existsb_filter. fold (records_of user df).
    destruct (records_of user df) as [|r0 l0] eqn:E; simpl.
    + split; [exact IH1|]. intros u t H. destruct (IH2 u t H) as (H1 & H2). split; [now right|exact H2].
    + rewrite IH1. split; [reflexivity|].
      intros u t [[= <- <-]|H].
      * split; [now left|]. rewrite E. now apply sort_by_level_sorts.
      * destruct (IH2 u t H) as (H1 & H2). split; [now right|exact H2].
Qed.

(** X17: with skill data at hand, the detailed tables are those of the users
    of the leaderboard who have skill records, in the order of the
    leaderboard; the table of a user holds the records of that user, each
    once, in the order of the levels and of the problems solved. *)
Theorem detailed_tables_by_user (sv : sorter) (users : list string)
        (dfs : list (list SkillRecord)) :
  sorts sv ->
  all_skills dfs <> [] ->
  exists tables,
    detailed_tables sv users dfs = Ok tables
    /\ map fst tables
       = List.filter (fun u => existsb (fun r => String.eqb (Username r) u) (all_skills dfs))
                     users
    /\ forall u t, In (u, t) tables ->
         Permutation t (records_of u (all_skills dfs)) /\ StronglySorted skill_order t.
Proof.
  intros Hsv Hne. unfold detailed_tables.
  destruct users as [|u0 users].
  { exists []. split; [reflexivity|]. split; [reflexivity|]. intros ? ? []. }
  destruct (all_skills dfs) as [|r0 l0] eqn:E; [congruence|].
  destruct (detailed_rows sv (r0 :: l0) (u0 :: users) Hsv) as [H1 H2].
  eexists. split; [reflexivity|]. split; [exact H1|].
  intros u t H. exact (proj2 (H2 u t H)).
Qed.

Lemma detailed_tables_by_user_witness :
  exists tables,
    detailed_tables insertion_sort ["bob"; "carol"; "alice"] sample_frames = Ok tables
    /\ map fst tables = ["bob"; "alice"].
Proof.
  destruct (detailed_tables_by_user insertion_sort ["bob"; "carol"; "alice"] sample_frames
              insertion_sort_sorts) as (tables & H1 & H2 & _).
  - discriminate.
  - exists tables. split; [exact H1|exact H2].
Defined.

(** X18: when the skill endpoint fails for every user of a run that has at
    least one row, the run completes and the sections "Skill Comparison" and
    heatmap show their note, but the detailed tables raise: the frame of all
    skills has no column "Username". *)
Theorem no_skill_data_raises_in_detailed_tables
        (profile_api : string -> response value) (skill_api : string -> response skill_doc)
        (sv : sorter) (usernames : list string) (prev : gmap string value)
        (s : run) (lb : list (nat * Row)) :
  sorts sv ->
  fetch_data profile_api skill_api sv usernames prev = Completed s ->
  (forall u, In u usernames -> failed (skill_api (skill_url u)) = true) ->
  rows s <> [] ->
  leaderboard sv (rows s) = Some lb ->
  skill_comparison sv "All Skills" (skill_dfs s) = NoSkillData
  /\ heatmap sv (skill_dfs s) = Ok None
  /\ detailed_tables sv (map (fun ir => row_Username (snd ir)) lb) (skill_dfs s) = Raise.
Proof.
  intros Hsv Hrun Hdown Hrows Hlb.
  assert (Hall : all_skills (skill_dfs s) = []).
  { destruct (fetch_loop_turns profile_api skill_api sv usernames _ _ Hrun)
      as (_ & (dfs & Hd & Hf) & _).
    simpl in Hd. rewrite Hd. clear Hd.
    assert (Hin : forall u, In u (List.filter (has_data profile_api) usernames) ->
                            failed (skill_api (skill_url u)) = true).
    { intros u Hu. apply Hdown. apply filter_In in Hu. tauto. }
    induction Hf as [|u df us dfs (msgs & Hu) _ IH]; [reflexivity|].
    rewrite (get_skill_table_failed skill_api sv u) in Hu by (apply Hin; now left).
    injection Hu as <- _. unfold all_skills in *. simpl. apply IH.
    intros v Hv. apply Hin. now right. }
  unfold skill_comparison, heatmap, detailed_tables. rewrite Hall.
  split; [reflexivity|]. split; [reflexivity|].
  pose proof (leaderboard_rows sv _ _ Hsv Hlb) as Hp.
  destruct lb as [|ir lb]; [|reflexivity].
  simpl in Hp. apply Permutation_nil in Hp. congruence.
Qed.

Lemma no_skill_data_raises_in_detailed_tables_witness :
  detailed_tables insertion_sort
    (map (fun ir => row_Username (snd ir))
         (default [] (leaderboard insertion_sort (rows down_state))))
    (skill_dfs down_state) = Raise.
Proof.
  apply (no_skill_data_raises_in_detailed_tables sample_profile_api skill_api_down
           insertion_sort ["alice"; "bob"; "carol"] sample_ranks down_state
           (default [] (leaderboard insertion_sort (rows down_state)))).
  - exact insertion_sort_sorts.
  - vm_compute. reflexivity.
  - reflexivity.
  - vm_compute. discriminate.
  - vm_compute. reflexivity.
Defined.

(** ** The heatmap: the name clash and the totals *)

(** X19: the heatmap raises exactly when a user who has skill records is
    called Skill, Level or _sort: [reset_index] cannot insert a column of
    a name that the table has already. *)
Theorem heatmap_raises_on_name_clash (sv : sorter) (dfs : list (list SkillRecord)) :
  heatmap sv dfs = Raise
  <-> exists r, In r (all_skills dfs) /\ In (Username r) index_names.
Proof.
  unfold heatmap.
  destruct (all_skills dfs) as [|r0 l0] eqn:E.
  { split; [discriminate|]. now intros (r & [] & _). }
  set (df := r0 :: l0) in *. clearbody df.
  destruct (pivot_table df) as [cols table] eqn:Ept.
  unfold pivot_table in Ept. injection Ept as <- _.
  destruct (name_clash _) eqn:Hc.
  - split; [intros _|reflexivity].
    unfold name_clash in Hc. apply existsb_exists in Hc as (c & Hin & Hc).
    apply existsb_exists in Hc as (n & Hn & Hcn). apply String.eqb_eq in Hcn. subst n.
    apply sorted_unique_elem, in_map_iff in Hin as (r & <- & Hr). now exists r.
  - split; [discriminate|]. intros (r & Hr & Hn). exfalso.
    assert (Ht : name_clash (sorted_unique String.leb (map Username df)) = true);
      [|congruence].
    unfold name_clash. apply existsb_exists. exists (Username r). split.
    + apply sorted_unique_elem. now apply in_map.
    + apply existsb_exists. exists (Username r). split; [exact Hn|apply String.eqb_refl].
Qed.

Lemma sum_Z_app (l k : list Z) : sum_Z (l ++ k) = sum_Z l + sum_Z k.
Proof. unfold sum_Z. induction l as [|x l IH]; simpl; lia. Qed.

Lemma sum_Z_Permutation (l k : list Z) : Permutation l k -> sum_Z l = sum_Z k.
Proof.
  unfold sum_Z. induction 1 as [|x l l' _ IH|x y l|l l' l'' _ IH1 _ IH2]; simpl; lia.
Qed.

Lemma sum_Z_zero {A} (l : list A) : sum_Z (map (fun _ => 0) l) = 0.
Proof. unfold sum_Z. induction l as [|x l IH]; simpl; lia. Qed.

(** a key that occurs once in a list picks its value once *)
Lemma sum_Z_pick {K} `{EqDecision K} (keys : list K) (x : K) (c : Z) :
  NoDup keys -> In x keys ->
  sum_Z (map (fun k => if bool_decide (x = k) then c else 0) keys) = c.
Proof.
  induction 1 as [|k keys Hk Hnd IH]; intros Hin; [destruct Hin|].
  change (sum_Z (map ?f (k :: keys))) with (f k + sum_Z (map f keys)). cbn beta.
  destruct (bool_decide_reflect (x = k)) as [E|E].
  - subst k.
    rewrite (map_ext_in _ (fun _ => 0)), sum_Z_zero; [lia|].
    intros k Hk'. destruct (bool_decide_reflect (x = k)) as [E|E]; [|reflexivity].
    subst k. exfalso. apply Hk. now apply list_elem_of_In.
  - destruct Hin as [->|Hin]; [congruence|]. rewrite IH by exact Hin. lia.
Qed.

(** the sums of the groups of a partition add up to the sum of the whole *)
Lemma solved_sum_partition {K} `{EqDecision K} (f : SkillRecord -> K) (keys : list K)
      (df : list SkillRecord) :
  NoDup keys -> (forall r, In r df -> In (f r) keys) ->
  sum_Z (map (fun k => solved_sum (List.filter (fun r => bool_decide (f r = k)) df)) keys)
  = solved_sum df.
Proof.
  intros Hnd. induction df as [|r df IH]; intros Hin.
  - simpl. apply sum_Z_zero.
  - rewrite (map_ext _ (fun k => (if bool_decide (f r = k) then ProblemsSolved r else 0)
                                 + solved_sum (List.filter (fun r => bool_decide (f r = k)) df))).
    + assert (Hadd : forall (g h : K -> Z) l,
                 sum_Z (map (fun k => g k + h k) l) = sum_Z (map g l) + sum_Z (map h l)).
      { intros g h l. unfold sum_Z. induction l as [|x l IHl]; simpl; lia. }
      rewrite Hadd, IH by (intros r' Hr'; apply Hin; now right).
      rewrite sum_Z_pick; [reflexivity|exact Hnd|apply Hin; now left].
    + intros k. simpl. destruct (bool_decide (f r = k)); reflexivity.
Qed.


(** the sums of the groups of one row of the pivot table, exact *)
Lemma pivot_row_exact (df : list SkillRecord) (k : pivot_key) :
  sum_Z (map (fun u => solved_sum (List.filter (group_of (k, u)) df))
             (sorted_unique String.leb (map Username df)))
  = solved_sum (List.filter (fun r => bool_decide (key_of r = k)) df).
Proof.
  rewrite <- (solved_sum_partition Username (sorted_unique String.leb (map Username df))
                (List.filter (fun r => bool_decide (key_of r = k)) df)).
  - f_equal. apply map_ext. intros u.
    rewrite solved_sum_filter_filter. f_equal. apply List.filter_ext. intros r.
    unfold group_of. repeat case_bool_decide; simplify_eq; try reflexivity; congruence.
  - apply sorted_unique_NoDup.
  - intros r Hr. apply sorted_unique_elem, in_map. apply filter_In in Hr. tauto.
Qed.

(** the cells of the pivot table are the exact sums of the groups, each
    brought into the 64 bits *)
Lemma pivot_row_cells (df : list SkillRecord) (k : pivot_key) (cols : list string) :
  map (fun u => default 0 (group_sum df !! (k, u))) cols
  = map wrap64 (map (fun u => solved_sum (List.filter (group_of (k, u)) df)) cols).
Proof.
  rewrite map_map. apply map_ext. intros u. unfold group_sum.
  rewrite group_sum_fold, lookup_empty by (rewrite lookup_empty; simpl; unfold fits64; lia).
  simpl. now rewrite Z.add_0_l.
Qed.

Lemma wrap64_sum (l : list Z) : wrap64 (sum_Z (map wrap64 l)) = wrap64 (sum_Z l).
Proof.
  unfold sum_Z. induction l as [|a l IH]; simpl; [reflexivity|].
  rewrite wrap64_add, (Z.add_comm a), <- wrap64_add, IH, wrap64_add. f_equal. lia.
Qed.

Lemma map_wrap64_fits (l : list Z) : Forall fits64 l -> map wrap64 l = l.
Proof.
  induction 1 as [|a l Ha _ IH]; simpl; [reflexivity|].
  now rewrite (wrap64_fits a Ha), IH.
Qed.

(** X20: in the heatmap no username heads two columns and no pair of a
    skill and a level two rows. The numbers of the matrix add up, in 64
    bits, to the problems solved of all records of all users; for counts,
    none below zero, whose total fits 64 bits they add up to that total. *)
Theorem heatmap_totals (sv : sorter) (dfs : list (list SkillRecord)) (h : Heatmap) :
  sorts sv ->
  int64_column (all_skills dfs) ->
  heatmap sv dfs = Ok (Some h) ->
  NoDup (columns h)
  /\ NoDup (map fst (cells h))
  /\ wrap64 (sum_Z (flat_map snd (cells h))) = wrap64 (solved_sum (all_skills dfs))
  /\ (small_counts (all_skills dfs) ->
      sum_Z (flat_map snd (cells h)) = solved_sum (all_skills dfs)).
Proof.
  intros Hsv _. unfold heatmap.
  destruct (all_skills dfs) as [|r0 l0] eqn:E; [discriminate|].
  set (df := r0 :: l0) in *. clearbody df. clear E r0 l0.
  destruct (pivot_table df) as [cols table] eqn:Ept.
  destruct (name_clash cols); [discriminate|]. intros [= <-]. simpl.
  unfold pivot_table in Ept. injection Ept as <- <-.
  set (cols := sorted_unique String.leb (map Username df)) in *.
  set (index := sorted_unique pivot_key_le (map key_of df)) in *.
  set (table := map (fun k => (k, map (fun u => default 0 (group_sum df !! (k, u))) cols)) index).
  destruct (Hsv _ sort_le table sort_le_total sort_le_trans) as [Hp _].
  set (sums := flat_map (fun k => map (fun u => solved_sum (List.filter (group_of (k, u)) df))
                                       cols) index).
  assert (Hrows : forall idx : list pivot_key,
             flat_map snd (map (fun k => (k, map (fun u => default 0 (group_sum df !! (k, u)))
                                                 cols)) idx)
             = map wrap64 (flat_map (fun k => map (fun u => solved_sum
                                                             (List.filter (group_of (k, u)) df))
                                                  cols) idx)).
  { induction idx as [|k idx IH]; [reflexivity|].
    simpl. now rewrite map_app, pivot_row_cells, IH. }
  assert (Hsums : forall idx : list pivot_key,
             sum_Z (flat_map (fun k => map (fun u => solved_sum
                                                      (List.filter (group_of (k, u)) df))
                                           cols) idx)
             = sum_Z (map (fun k => solved_sum (List.filter (fun r => bool_decide (key_of r = k))
                                                            df)) idx)).
  { induction idx as [|k idx IH]; [reflexivity|].
    simpl. rewrite sum_Z_app, IH. f_equal. apply pivot_row_exact. }
  assert (Hcells : Permutation (flat_map snd (map (fun row : pivot_key * list Z =>
                                                     (fst (fst (fst row)), snd (fst (fst row)),
                                                      snd row))
                                                  (sv _ sort_le table)))
                               (map wrap64 sums)).
  { rewrite flat_map_concat_map, map_map. simpl. rewrite <- flat_map_concat_map.
    rewrite (Permutation_flat_map snd Hp). unfold table, sums. now rewrite Hrows. }
  assert (Hexact : sum_Z sums = solved_sum df).
  { unfold sums. rewrite Hsums.
    apply solved_sum_partition;
      [apply sorted_unique_NoDup|intros r Hr; now apply sorted_unique_elem, in_map]. }
  split; [apply sorted_unique_NoDup|]. split; [|split].
  - rewrite map_map. simpl.
    rewrite (Permutation_map (fun row : pivot_key * list Z =>
                                (fst (fst (fst row)), snd (fst (fst row)))) Hp).
    unfold table. rewrite map_map. simpl.
    apply (NoDup_fmap_2_strong (fun k : pivot_key => (fst (fst k), snd (fst k))));
      [|apply sorted_unique_NoDup].
    intros k1 k2 H1 H2 Heq.
    apply list_elem_of_In, sorted_unique_elem, in_map_iff in H1 as (r1 & <- & _).
    apply list_elem_of_In, sorted_unique_elem, in_map_iff in H2 as (r2 & <- & _).
    unfold key_of in *. simpl in Heq. injection Heq as -> ->. reflexivity.
  - transitivity (wrap64 (sum_Z (map wrap64 sums)));
      [f_equal; exact (sum_Z_Permutation _ _ Hcells)|].
    now rewrite wrap64_sum, Hexact.
  - intros [Hpos Hsum].
    transitivity (sum_Z (map wrap64 sums)); [exact (sum_Z_Permutation _ _ Hcells)|].
    rewrite map_wrap64_fits; [exact Hexact|].
    unfold sums. apply Forall_forall. intros z Hz.
    apply list_elem_of_In, in_flat_map in Hz as (k & _ & Hz).
    apply in_map_iff in Hz as (u & <- & _).
    pose proof (small_counts_filter (group_of (k, u)) df Hpos). unfold fits64. lia.
Qed.

Lemma heatmap_totals_witness :
  exists h, heatmap insertion_sort sample_frames = Ok (Some h)
            /\ NoDup (columns h)
            /\ sum_Z (flat_map snd (cells h)) = solved_sum (all_skills sample_frames).
Proof.
  eexists. split; [vm_compute; reflexivity|].
  destruct (heatmap_totals insertion_sort sample_frames _ insertion_sort_sorts
              sample_frames_int64 eq_refl)
    as (H1 & _ & _ & H4).
  split; [exact H1|exact (H4 sample_frames_small)].
Defined.

(** ** Runs that abort, and user lists with repetitions *)

Lemma make_row_raises (user : string) (prof : value) (prev : gmap string value) :
  make_row user prof prev = Raise ->
  ~ is_dict prof
  \/ exists d, prof = VDict d
               /\ rank_change (default VNone (prev !! user)) (default VNone (assoc "ranking" d))
                  = Raise.
Proof.
  destruct prof as [| | | | |d]; try (intros _; left; intros [d' H]; discriminate H).
  rewrite make_row_dict. intros H. right. exists d. split; [reflexivity|].
  destruct (rank_change _ _); [|reflexivity].
  destruct (compute_accuracy_returns (VDict d)) as [acc E]. rewrite E in H. discriminate H.
Qed.

(** a turn that raises: the profile arrived, and its row cannot be made *)
Lemma fetch_user_raises (profile_api : string -> response value)
      (skill_api : string -> response skill_doc) (sv : sorter) (u : string) (s s' : run) :
  fetch_user profile_api skill_api sv u s = Aborted s' ->
  exists prof,
    profile_api (profile_url u) = Json prof
    /\ truthy prof = true
    /\ (~ is_dict prof
        \/ rank_change (default VNone (prev_ranks s !! u)) (current_rank profile_api u) = Raise)
    /\ rows s' = rows s /\ skill_dfs s' = skill_dfs s /\ prev_ranks s' = prev_ranks s.
Proof.
  unfold fetch_user, get_profile, get_profile_try, current_rank.
  destruct (profile_api (profile_url u)) as [| | |prof]; simpl; try discriminate.
  destruct (truthy prof) eqn:Ht; [|discriminate]. simpl.
  destruct (make_row u prof (prev_ranks s)) as [row|] eqn:Hrow.
  - destruct (get_skill_table_returns skill_api sv u) as (df & msgs & ->).
    apply make_row_ok in Hrow as (d & -> & _). discriminate.
  - intros [= <-]. exists prof. split; [reflexivity|]. split; [exact Ht|].
    split; [|repeat split].
    destruct (make_row_raises _ _ _ Hrow) as [H|(d & -> & H)]; [now left|right].
    simpl. now destruct (assoc "ranking" d).
Qed.

(** X21: a run that aborts does so at a user whose profile arrived, because
    the profile is no object or because its ranking cannot be subtracted
    from the rank the session holds; the rows, the skill tables and the
    ranks of the session are then those that the loop over the users before
    that one has left. *)
Theorem run_aborts_at (profile_api : string -> response value)
        (skill_api : string -> response skill_doc) (sv : sorter)
        (usernames : list string) (prev : gmap string value) (s : run) :
  fetch_data profile_api skill_api sv usernames prev = Aborted s ->
  exists pre u post s1 prof,
    usernames = (pre ++ u :: post)%list
    /\ fetch_data profile_api skill_api sv pre prev = Completed s1
    /\ rows s = rows s1 /\ skill_dfs s = skill_dfs s1 /\ prev_ranks s = prev_ranks s1
    /\ profile_api (profile_url u) = Json prof
    /\ truthy prof = true
    /\ (~ is_dict prof
        \/ rank_change (default VNone (prev_ranks s1 !! u)) (current_rank profile_api u)
           = Raise).
Proof.
  unfold fetch_data.
  generalize {| rows := []; skill_dfs := []; prev_ranks := prev; messages := [] |}.
  induction usernames as [|v us IH]; intros s0 H; simpl in H; [discriminate|].
  destruct (fetch_user profile_api skill_api sv v s0) as [s1|s1] eqn:E.
  - destruct (IH s1 H) as (pre & u & post & s2 & prof & -> & Hpre & Hrest).
    exists (v :: pre), u, post, s2, prof. split; [reflexivity|].
    split; [|exact Hrest]. simpl. now rewrite E.
  - injection H as <-.
    apply fetch_user_raises in E as (prof & Hp & Ht & Hwhy & H1 & H2 & H3).
    exists [], v, us, s0, prof. simpl. repeat split; assumption.
Qed.

Lemma run_aborts_at_witness :
  exists pre u post s1 prof,
    ["alice"; "dave"; "carol"] = (pre ++ u :: post)%list
    /\ fetch_data sample_profile_api sample_skill_api insertion_sort pre
         (<["dave" := VInt 500]> ∅) = Completed s1
    /\ rows aborted_state = rows s1
    /\ sample_profile_api (profile_url u) = Json prof.
Proof.
  destruct (run_aborts_at sample_profile_api sample_skill_api insertion_sort
              ["alice"; "dave"; "carol"] (<["dave" := VInt 500]> ∅) aborted_state)
    as (pre & u & post & s1 & prof & H1 & H2 & H3 & _ & _ & H6 & _).
  - vm_compute. reflexivity.
  - exists pre, u, post, s1, prof. repeat split; assumption.
Defined.

(** X22: a user who stands in the list a second time is compared with the
    rank that the first turn has just stored: when the profile carries an
    integer ranking and the run completes, it has a row of that user that
    reads "No change", whatever the session held before. *)
Theorem repeated_user_reports_no_change
        (profile_api : string -> response value) (skill_api : string -> response skill_doc)
        (sv : sorter) (pre post : list string) (prev : gmap string value) (s : run)
        (u : string) (d : list (string * value)) (z : Z) :
  In u pre ->
  profile_api (profile_url u) = Json (VDict d) ->
  assoc "ranking" d = Some (VInt z) ->
  fetch_data profile_api skill_api sv (pre ++ u :: post) prev = Completed s ->
  exists row, In row (rows s) /\ row_Username row = u /\ Rank_Delta row = "No change".
Proof.
  intros Hu Hp Hz. unfold fetch_data. rewrite fetch_loop_app.
  destruct (fetch_loop profile_api skill_api sv pre _) as [s1|s1] eqn:Hpre; [|discriminate].
  destruct (fetch_loop_turns profile_api skill_api sv pre _ _ Hpre) as (_ & _ & Hin & _).
  assert (Ht : truthy (VDict d) = true) by (destruct d; [discriminate|reflexivity]).
  assert (Hc : current_rank profile_api u = VInt z).
  { unfold current_rank. rewrite Hp, Ht. simpl. now rewrite Hz. }
  simpl. destruct (fetch_user profile_api skill_api sv u s1) as [s2|s2] eqn:E; [|discriminate].
  intros Hpost.
  apply fetch_user_turn in E as [_ [(Hd & _)|(_ & row & df & msgs & Hr & Hn & Hdelta & _)]].
  - unfold has_data in Hd. rewrite Hp, Ht in Hd. discriminate.
  - exists row. split; [|split; [exact Hn|]].
    + apply (fetch_loop_keeps_rows profile_api skill_api sv post s2 s row Hpost).
      rewrite Hr. apply in_app_iff. right. now left.
    + rewrite (Hin u Hu), Hc in Hdelta. simpl in Hdelta.
      rewrite rank_change_numbers, Z.sub_diag in Hdelta. simpl in Hdelta.
      now injection Hdelta as <-.
Qed.

Lemma repeated_user_reports_no_change_witness :
  exists row, In row (rows repeated_state) /\ row_Username row = "alice"
              /\ Rank_Delta row = "No change".
Proof.
  apply (repeated_user_reports_no_change later_profile_api sample_skill_api insertion_sort
           ["alice"] [] ∅ repeated_state "alice"
           [("totalSolved", VInt 121); ("ranking", VInt 450)] 450).
  - now left.
  - reflexivity.
  - reflexivity.
  - vm_compute. reflexivity.
Defined.

(** ** The messages of a run and of the handler "Add User(s)" *)

Lemma get_skill_table_messages (skill_api : string -> response skill_doc) (sv : sorter)
      (u : string) (df : list SkillRecord) (msgs : list message) :
  get_skill_table skill_api sv u = Ok (df, msgs) ->
  msgs = if skill_failed skill_api u then [StError ("Skill error (" +:+ u +:+ ")")] else [].
Proof.
  unfold get_skill_table, get_skill_table_try, skill_failed.
  destruct (skill_api (skill_url u)) as [| | |[items|]]; try (now intros [= _ <-]).
  destruct (existsb _ (skill_objects items)) eqn:E.
  - apply existsb_exists in E as ([tag n|] & Hin & Hs); [discriminate|].
    rewrite (level_records_raise u items Hin). now intros [= _ <-].
  - destruct (level_records_all u items) as (rs & -> & _).
    + intros Hin. apply not_true_iff_false in E. apply E.
      apply existsb_exists. now exists SkillNotObject.
    + simpl. destruct rs; now intros [= _ <-].
Qed.

Lemma fetch_user_messages (profile_api : string -> response value)
      (skill_api : string -> response skill_doc) (sv : sorter) (u : string) (s s' : run) :
  fetch_user profile_api skill_api sv u s = Completed s' ->
  messages s' = (messages s ++ errors_of profile_api skill_api u)%list.
Proof.
  unfold fetch_user, get_profile, get_profile_try, errors_of, has_data.
  destruct (profile_api (profile_url u)) as [| | |prof]; simpl;
    try (now intros [= <-]).
  destruct (truthy prof) eqn:Ht; simpl; [|intros [= <-]; simpl; now rewrite !app_nil_r].
  destruct (make_row u prof (prev_ranks s)) as [row|]; [|discriminate].
  destruct (get_skill_table skill_api sv u) as [[df msgs]|] eqn:Hdf; [|discriminate].
  destruct (get prof "ranking" VNone); [|discriminate].
  intros [= <-]. simpl. rewrite app_nil_r.
  now rewrite (get_skill_table_messages _ _ _ _ _ Hdf).
Qed.

(** X23: the error messages of a completed run are, user by user in the
    order of the list, "Profile error" when the profile fetch failed and
    "Skill error" when the user has data and the skill fetch failed; a
    profile that arrives empty puts no message on the page, and neither does
    the skill endpoint for a user without data, which is not asked. *)
Theorem run_messages (profile_api : string -> response value)
        (skill_api : string -> response skill_doc) (sv : sorter)
        (usernames : list string) (prev : gmap string value) (s : run) :
  fetch_data profile_api skill_api sv usernames prev = Completed s ->
  messages s = flat_map (errors_of profile_api skill_api) usernames.
Proof.
  unfold fetch_data.
  change (flat_map (errors_of profile_api skill_api) usernames)
    with (messages {| rows := []; skill_dfs := []; prev_ranks := prev; messages := [] |}
          ++ flat_map (errors_of profile_api skill_api) usernames)%list.
  generalize {| rows := []; skill_dfs := []; prev_ranks := prev; messages := [] |}.
  induction usernames as [|v us IH]; intros s0 H; simpl in H.
  - injection H as <-. simpl. now rewrite app_nil_r.
  - destruct (fetch_user profile_api skill_api sv v s0) as [s1|s1] eqn:E; [|discriminate].
    rewrite (IH s1 H), (fetch_user_messages _ _ _ _ _ _ E). simpl. now rewrite app_assoc.
Qed.

Lemma run_messages_witness :
  messages sample_state = flat_map (errors_of sample_profile_api sample_skill_api)
                                   ["alice"; "bob"; "carol"].
Proof.
  apply (run_messages sample_profile_api sample_skill_api insertion_sort
           ["alice"; "bob"; "carol"] sample_ranks sample_state).
  vm_compute. reflexivity.
Defined.

(** X24: an input that is not blank but names no user, commas and spaces
    only, gets the answer "All usernames already exist.", and the store is
    left as it is. *)
Theorem add_users_clicked_without_names (read_csv : csv_reader) (now : Z)
        (bulk_input : string) (f : csv_file) :
  nonempty (strip bulk_input) = true ->
  Forall (fun x => strip x = "") (split_comma bulk_input) ->
  add_users_clicked read_csv now bulk_input f
  = (f, StWarning "All usernames already exist.").
Proof.
  intros Hne Hall. unfold add_users_clicked. rewrite Hne.
  rewrite (filter_none nonempty (map strip (split_comma bulk_input))); [reflexivity|].
  intros n Hn. apply in_map_iff in Hn as (x & <- & Hx).
  rewrite Forall_forall in Hall. rewrite (Hall x) by now apply list_elem_of_In.
  reflexivity.
Qed.

Lemma add_users_clicked_without_names_witness :
  add_users_clicked as_written 7 " , ," None
  = (None, StWarning "All usernames already exist.").
Proof.
  apply (add_users_clicked_without_names as_written 7 " , ," None); [reflexivity|].
  repeat constructor.
Defined.
